(** * MarketFace-web3: the NFT mint / evolve backend

    A shallow embedding of the two Express servers of the repository
    ([src/index.js] and the later variant [src/unnamed/part_000]) and of
    the library functions they call ([ethers.toUtf8Bytes],
    [ethers.keccak256], [JSON.parse]), followed by the properties of the
    anchoring logic: which hash is submitted with which reference, what
    each endpoint answers, and which external calls precede a failure.

    How the code is read:
    - a handler is a program that returns, throws or awaits a call to the
      outside (the pinning service, the contract) and continues with the
      answer, fulfilled or rejected; [try]/[catch] and sequencing are
      operations on such programs;
    - a world answers the calls; a handler is run against a world alone,
      or several handlers are interleaved at their awaits, as the event
      loop does;
    - strings are sequences of UTF-16 code units, request bodies are JSON
      values, the text fields of a multipart body are strings;
    - the middleware in front of the handlers ([express.json()], multer's
      [upload.single]) either passes a request on, with [req.body] and
      [req.file] filled in, or refuses it with an error; how it decides
      is the libraries' business, what is answered then is the program's;
    - what the handlers print on the console is left out. *)

From Stdlib Require Import ZArith List String Ascii Lia DecimalString.
From Stdlib Require Import DecimalFacts DecimalPos DecimalN.
From stdpp Require Import base option list gmap.
Import ListNotations.

Set Warnings "-register-all".
Local Open Scope Z_scope.

(* ===================================================================== *)
(** ** JavaScript strings and byte arrays *)
(* ===================================================================== *)

(** A JavaScript string is a sequence of UTF-16 code units, a [Uint8Array]
    a sequence of bytes; both are kept as lists of [Z]. *)
Definition jsstring : Type := list Z.
Definition bytes : Type := list Z.

(** The code units of an ASCII literal of the source. *)
Definition js (s : string) : jsstring :=
  map (fun a => Z.of_N (N_of_ascii a)) (list_ascii_of_string s).
Arguments js _%_string.

(** A text between double quotes. *)
Definition quoted (s : jsstring) : jsstring := 34 :: s ++ [34].

(** [BigInt.prototype.toString()]: the decimal digits. *)
Definition bigint_toString (n : N) : jsstring :=
  js (NilEmpty.string_of_uint (N.to_uint n)).

(** Errors thrown by the code and by the libraries: an [Error] object, of
    which the handlers only read [message]. *)
Record JsError : Type := mkError { message : jsstring }.

Inductive result (A : Type) : Type :=
| Ok (a : A)
| Err (e : JsError).
Arguments Ok {A} a.
Arguments Err {A} e.

(* ===================================================================== *)
(** ** ethers: toUtf8Bytes on a string *)
(* ===================================================================== *)

Module Utf8.

(** The loop of [toUtf8Bytes] over [str.charCodeAt(i)]: one, two or
    three bytes for a code unit of the basic plane, four for a surrogate
    pair; a high surrogate that is not followed by a low one fails the
    [assertArgument] ("invalid surrogate pair"). *)
Fixpoint encode (s : jsstring) : option bytes :=
  match s with
  | [] => Some []
  | c :: t =>
    if c <? 0x80 then cons c <$> encode t
    else if c <? 0x800 then
      (fun r => Z.lor (Z.shiftr c 6) 0xc0
                :: Z.lor (Z.land c 0x3f) 0x80 :: r) <$> encode t
    else if Z.land c 0xfc00 =? 0xd800 then
      match t with
      | c2 :: rest =>
        if Z.land c2 0xfc00 =? 0xdc00 then
          let pair := 0x10000 + Z.shiftl (Z.land c 0x03ff) 10
                      + Z.land c2 0x03ff in
          (fun r => Z.lor (Z.shiftr pair 18) 0xf0
                    :: Z.lor (Z.land (Z.shiftr pair 12) 0x3f) 0x80
                    :: Z.lor (Z.land (Z.shiftr pair 6) 0x3f) 0x80
                    :: Z.lor (Z.land pair 0x3f) 0x80 :: r) <$> encode rest
        else None
      | [] => None
      end
    else
      (fun r => Z.lor (Z.shiftr c 12) 0xe0
                :: Z.lor (Z.land (Z.shiftr c 6) 0x3f) 0x80
                :: Z.lor (Z.land c 0x3f) 0x80 :: r) <$> encode t
  end.

End Utf8.

(* ===================================================================== *)
(** ** ethers: keccak256 *)
(* ===================================================================== *)

Module Keccak.

Definition mask64 : Z := Z.ones 64.

Definition rotl64 (x : Z) (n : Z) : Z :=
  Z.lor (Z.land (Z.shiftl x n) mask64) (Z.shiftr x (64 - n)).

(** The state: 25 lanes of 64 bits, lane (x, y) at index [x + 5 y]. *)
Definition lane (st : list Z) (x y : nat) : Z :=
  nth (x mod 5 + 5 * (y mod 5))%nat st 0.

Definition tabulate (f : nat -> nat -> Z) : list Z :=
  map (fun i => f (i mod 5) (i / 5))%nat (seq 0 25).

Definition rotc : list Z :=
  [ 0;  1; 62; 28; 27;
   36; 44;  6; 55; 20;
    3; 10; 43; 25; 39;
   41; 45; 15; 21;  8;
   18;  2; 61; 56; 14].

Definition rndc : list Z :=
  [0x0000000000000001; 0x0000000000008082; 0x800000000000808A;
   0x8000000080008000; 0x000000000000808B; 0x0000000080000001;
   0x8000000080008081; 0x8000000000008009; 0x000000000000008A;
   0x0000000000000088; 0x0000000080008009; 0x000000008000000A;
   0x000000008000808B; 0x800000000000008B; 0x8000000000008089;
   0x8000000000008003; 0x8000000000008002; 0x8000000000000080;
   0x000000000000800A; 0x800000008000000A; 0x8000000080008081;
   0x8000000000008080; 0x0000000080000001; 0x8000000080008008].

Definition theta (a : list Z) : list Z :=
  let c x := Z.lxor (lane a x 0) (Z.lxor (lane a x 1) (Z.lxor (lane a x 2)
               (Z.lxor (lane a x 3) (lane a x 4)))) in
  let d x := Z.lxor (c ((x + 4) mod 5)%nat) (rotl64 (c ((x + 1) mod 5)%nat) 1) in
  tabulate (fun x y => Z.lxor (lane a x y) (d x)).

Definition rho_pi (a : list Z) : list Z :=
  tabulate (fun x y =>
    let sx := ((x + 3 * y) mod 5)%nat in
    rotl64 (lane a sx x) (nth (sx + 5 * x)%nat rotc 0)).

Definition chi (b : list Z) : list Z :=
  tabulate (fun x y =>
    Z.lxor (lane b x y)
           (Z.land (Z.lxor (lane b (x + 1) y) mask64) (lane b (x + 2) y))).

Definition iota (rc : Z) (a : list Z) : list Z :=
  match a with
  | l0 :: rest => Z.lxor l0 rc :: rest
  | [] => []
  end.

Definition round (a : list Z) (rc : Z) : list Z :=
  iota rc (chi (rho_pi (theta a))).

Definition keccak_f (a : list Z) : list Z := fold_left round rndc a.

(** A lane is read from and written to eight bytes, lowest byte first. *)
Fixpoint lane_of_bytes (l : bytes) : Z :=
  match l with
  | [] => 0
  | b :: t => Z.lor b (Z.shiftl (lane_of_bytes t) 8)
  end.

Fixpoint bytes_of_lane (n : nat) (w : Z) : bytes :=
  match n with
  | O => []
  | S n => Z.land w 0xff :: bytes_of_lane n (Z.shiftr w 8)
  end.

Definition rate : nat := 136.

(** pad10*1 with the Keccak domain byte 0x01. *)
Definition pad (m : bytes) : bytes :=
  let q := (rate - length m mod rate)%nat in
  if (q =? 1)%nat then m ++ [0x81]
  else m ++ 0x01 :: repeat 0 (q - 2) ++ [0x80].

Definition block (m : bytes) (i : nat) : bytes :=
  firstn rate (skipn (rate * i) m).

Definition absorb_block (st : list Z) (blk : bytes) : list Z :=
  keccak_f (tabulate (fun x y =>
    let i := (x + 5 * y)%nat in
    Z.lxor (lane st x y) (lane_of_bytes (firstn 8 (skipn (8 * i) blk))))).

Definition sponge (m : bytes) : list Z :=
  let p := pad m in
  fold_left absorb_block
            (map (block p) (seq 0 (length p / rate)))
            (repeat 0 25).

Definition keccak256 (m : bytes) : bytes :=
  flat_map (bytes_of_lane 8) (firstn 4 (sponge m)).

End Keccak.

(** [ethers.hexlify]: "0x" and two lower-case hex digits per byte. *)
Definition hexdigit (d : Z) : Z := if d <? 10 then 48 + d else 87 + d.

Definition hexlify (b : bytes) : jsstring :=
  js "0x" ++ flat_map (fun x => [hexdigit (Z.shiftr x 4); hexdigit (Z.land x 0xf)]) b.

(* ===================================================================== *)
(** ** JavaScript values *)
(* ===================================================================== *)

(** The values that reach the handlers: what [express.json()] leaves in
    [req.body] and what [JSON.parse] returns.  A number is kept as the
    decimal [m * 10^e] it was written as; JavaScript rounds it to the
    nearest double. *)
Inductive JsValue : Type :=
| JUndefined
| JNull
| JBool (b : bool)
| JNumber (m e : Z)
| JString (s : jsstring)
| JArray (items : list JsValue)
| JObject (fields : list (jsstring * JsValue)).

(** Whether the double nearest to [m * 10^e] is not zero: everything of
    magnitude at most 2^-1075 rounds to zero. *)
Definition number_nonzero (m e : Z) : bool :=
  if 0 <=? e then negb (m =? 0)
  else 10 ^ (- e) <? Z.abs m * 2 ^ 1075.

(** ToBoolean, the test behind [!x], [x || d] and [x ? a : b]. *)
Definition truthy (v : JsValue) : bool :=
  match v with
  | JUndefined | JNull => false
  | JBool b => b
  | JNumber m e => number_nonzero m e
  | JString s => negb (bool_decide (s = []))
  | JArray _ | JObject _ => true
  end.

Fixpoint lookup_field (k : jsstring) (fields : list (jsstring * JsValue)) : JsValue :=
  match fields with
  | [] => JUndefined
  | (k', v) :: rest => if bool_decide (k = k') then v else lookup_field k rest
  end.

(** Writing a property: an existing key keeps its place. *)
Fixpoint set_field (k : jsstring) (v : JsValue) (fields : list (jsstring * JsValue))
  : list (jsstring * JsValue) :=
  match fields with
  | [] => [(k, v)]
  | (k', v') :: rest =>
    if bool_decide (k = k') then (k, v) :: rest else (k', v') :: set_field k v rest
  end.

(** [const { k } = o]: it throws a TypeError when [o] is [undefined] or
    [null]; the keys read by this program ("to", "metadataUri") are own
    properties of objects only. *)
Definition destructure (k : jsstring) (o : JsValue) : result JsValue :=
  match o with
  | JUndefined | JNull =>
    Err (mkError (js "Cannot destructure property of 'req.body' as it is undefined."))
  | JObject fields => Ok (lookup_field k fields)
  | _ => Ok JUndefined
  end.

(* ===================================================================== *)
(** ** JSON.parse *)
(* ===================================================================== *)

Module Json.

Inductive token : Type :=
| TLBrace | TRBrace | TLBrack | TRBrack | TColon | TComma
| TStr (s : jsstring)
| TNum (m e : Z)
| TTrue | TFalse | TNull.

(** Where the scanner is inside a number:
    [-]  [0]  [digits]  [.]  [fraction]  [e]  [e+]  [exponent]. *)
Inductive numphase : Type :=
| NMinus | NZero | NInt | NDot | NFrac | NExp | NExpSign | NExpDig.

Record numst : Type := mkNum {
  phase : numphase;
  neg : bool;        (* a leading minus sign *)
  mant : Z;          (* the digits read so far, as an integer *)
  scale : Z;         (* minus the number of fraction digits *)
  eneg : bool;       (* a minus sign on the exponent *)
  expo : Z           (* the exponent digits *)
}.

Inductive lexst : Type :=
| LIdle
| LLit (rest : jsstring) (t : token)   (* the rest of true, false, null *)
| LStr (acc : jsstring)                (* inside a string, reversed *)
| LEsc (acc : jsstring)                (* after a backslash *)
| LHex (acc : jsstring) (n : nat) (v : Z)   (* \u and n digits to go *)
| LNum (st : numst).

Definition is_digit (c : Z) : bool := (48 <=? c) && (c <=? 57).

Definition hexval (c : Z) : option Z :=
  if is_digit c then Some (c - 48)
  else if (97 <=? c) && (c <=? 102) then Some (c - 87)
  else if (65 <=? c) && (c <=? 70) then Some (c - 55)
  else None.

Definition num_token (st : numst) : option token :=
  match phase st with
  | NZero | NInt | NFrac | NExpDig =>
    Some (TNum (if neg st then - mant st else mant st)
               (scale st + (if eneg st then - expo st else expo st)))
  | _ => None
  end.

(** A character that starts a token, or white space. *)
Definition idle_step (c : Z) : option (lexst * list token) :=
  if (c =? 32) || (c =? 9) || (c =? 10) || (c =? 13) then Some (LIdle, [])
  else if c =? 123 then Some (LIdle, [TLBrace])
  else if c =? 125 then Some (LIdle, [TRBrace])
  else if c =? 91 then Some (LIdle, [TLBrack])
  else if c =? 93 then Some (LIdle, [TRBrack])
  else if c =? 58 then Some (LIdle, [TColon])
  else if c =? 44 then Some (LIdle, [TComma])
  else if c =? 34 then Some (LStr [], [])
  else if c =? 116 then Some (LLit (js "rue") TTrue, [])
  else if c =? 102 then Some (LLit (js "alse") TFalse, [])
  else if c =? 110 then Some (LLit (js "ull") TNull, [])
  else if c =? 45 then Some (LNum (mkNum NMinus true 0 0 false 0), [])
  else if c =? 48 then Some (LNum (mkNum NZero false 0 0 false 0), [])
  else if is_digit c then Some (LNum (mkNum NInt false (c - 48) 0 false 0), [])
  else None.

(** The next character of a number, when it belongs to it. *)
Definition num_step (st : numst) (c : Z) : option numst :=
  let d := c - 48 in
  let is_e := (c =? 101) || (c =? 69) in
  match phase st with
  | NMinus =>
    if c =? 48 then Some (mkNum NZero (neg st) 0 0 false 0)
    else if is_digit c then Some (mkNum NInt (neg st) d 0 false 0)
    else None
  | NZero =>
    if c =? 46 then Some (mkNum NDot (neg st) (mant st) 0 false 0)
    else if is_e then Some (mkNum NExp (neg st) (mant st) 0 false 0)
    else None
  | NInt =>
    if is_digit c then Some (mkNum NInt (neg st) (10 * mant st + d) 0 false 0)
    else if c =? 46 then Some (mkNum NDot (neg st) (mant st) 0 false 0)
    else if is_e then Some (mkNum NExp (neg st) (mant st) 0 false 0)
    else None
  | NDot =>
    if is_digit c then Some (mkNum NFrac (neg st) (10 * mant st + d) (scale st - 1) false 0)
    else None
  | NFrac =>
    if is_digit c then Some (mkNum NFrac (neg st) (10 * mant st + d) (scale st - 1) false 0)
    else if is_e then Some (mkNum NExp (neg st) (mant st) (scale st) false 0)
    else None
  | NExp =>
    if c =? 43 then Some (mkNum NExpSign (neg st) (mant st) (scale st) false 0)
    else if c =? 45 then Some (mkNum NExpSign (neg st) (mant st) (scale st) true 0)
    else if is_digit c then Some (mkNum NExpDig (neg st) (mant st) (scale st) false d)
    else None
  | NExpSign =>
    if is_digit c then Some (mkNum NExpDig (neg st) (mant st) (scale st) (eneg st) d)
    else None
  | NExpDig =>
    if is_digit c
    then Some (mkNum NExpDig (neg st) (mant st) (scale st) (eneg st) (10 * expo st + d))
    else None
  end.

Definition lex_step (st : lexst) (c : Z) : option (lexst * list token) :=
  match st with
  | LIdle => idle_step c
  | LLit rest t =>
    match rest with
    | [x] => if c =? x then Some (LIdle, [t]) else None
    | x :: rest' => if c =? x then Some (LLit rest' t, []) else None
    | [] => None
    end
  | LStr acc =>
    if c =? 34 then Some (LIdle, [TStr (rev acc)])
    else if c =? 92 then Some (LEsc acc, [])
    else if c <? 32 then None
    else Some (LStr (c :: acc), [])
  | LEsc acc =>
    if (c =? 34) || (c =? 92) || (c =? 47) then Some (LStr (c :: acc), [])
    else if c =? 98 then Some (LStr (8 :: acc), [])
    else if c =? 102 then Some (LStr (12 :: acc), [])
    else if c =? 110 then Some (LStr (10 :: acc), [])
    else if c =? 114 then Some (LStr (13 :: acc), [])
    else if c =? 116 then Some (LStr (9 :: acc), [])
    else if c =? 117 then Some (LHex acc 3 0, [])
    else None
  | LHex acc n v =>
    h ← hexval c;
    match n with
    | O => Some (LStr ((16 * v + h) :: acc), [])
    | S n' => Some (LHex acc n' (16 * v + h), [])
    end
  | LNum ns =>
    match num_step ns c with
    | Some ns' => Some (LNum ns', [])
    | None =>
      t ← num_token ns;
      '(st', out) ← idle_step c;
      Some (st', t :: out)
    end
  end.

Definition lex_end (st : lexst) : option (list token) :=
  match st with
  | LIdle => Some []
  | LNum ns => t ← num_token ns; Some [t]
  | _ => None
  end.

Fixpoint lex (st : lexst) (s : jsstring) : option (list token) :=
  match s with
  | [] => lex_end st
  | c :: rest =>
    '(st', out) ← lex_step st c;
    toks ← lex st' rest;
    Some (out ++ toks)
  end.

(** The open containers around the value being read. *)
Inductive frame : Type :=
| FArr (items : list JsValue)                         (* reversed *)
| FObj (fields : list (jsstring * JsValue)) (key : jsstring).

Inductive pstate : Type :=
| SVal (stk : list frame)          (* a value is expected *)
| SArr0 (stk : list frame)         (* after [ *)
| SObj0 (stk : list frame)         (* after { *)
| SKey (fields : list (jsstring * JsValue)) (stk : list frame)
| SColon (fields : list (jsstring * JsValue)) (key : jsstring) (stk : list frame)
| SArrNext (items : list JsValue) (stk : list frame)
| SObjNext (fields : list (jsstring * JsValue)) (stk : list frame)
| SDone (v : JsValue).

(** A value is complete: it goes into the innermost open container. *)
Definition reduce (v : JsValue) (stk : list frame) : pstate :=
  match stk with
  | [] => SDone v
  | FArr items :: stk' => SArrNext (v :: items) stk'
  | FObj fields key :: stk' => SObjNext (set_field key v fields) stk'
  end.

Definition value_step (stk : list frame) (t : token) : option pstate :=
  match t with
  | TStr s => Some (reduce (JString s) stk)
  | TNum m e => Some (reduce (JNumber m e) stk)
  | TTrue => Some (reduce (JBool true) stk)
  | TFalse => Some (reduce (JBool false) stk)
  | TNull => Some (reduce JNull stk)
  | TLBrack => Some (SArr0 stk)
  | TLBrace => Some (SObj0 stk)
  | _ => None
  end.

Definition parse_step (st : pstate) (t : token) : option pstate :=
  match st, t with
  | SVal stk, _ => value_step stk t
  | SArr0 stk, TRBrack => Some (reduce (JArray []) stk)
  | SArr0 stk, _ => value_step (FArr [] :: stk) t
  | SObj0 stk, TRBrace => Some (reduce (JObject []) stk)
  | SObj0 stk, TStr k => Some (SColon [] k stk)
  | SKey fields stk, TStr k => Some (SColon fields k stk)
  | SColon fields k stk, TColon => Some (SVal (FObj fields k :: stk))
  | SArrNext items stk, TComma => Some (SVal (FArr items :: stk))
  | SArrNext items stk, TRBrack => Some (reduce (JArray (rev items)) stk)
  | SObjNext fields stk, TComma => Some (SKey fields stk)
  | SObjNext fields stk, TRBrace => Some (reduce (JObject fields) stk)
  | _, _ => None
  end.

Fixpoint parse_tokens (st : pstate) (ts : list token) : option JsValue :=
  match ts with
  | [] => match st with SDone v => Some v | _ => None end
  | t :: rest => st' ← parse_step st t; parse_tokens st' rest
  end.

(** [JSON.parse(text)]: the value, or a SyntaxError. *)
Definition parse (text : jsstring) : result JsValue :=
  match lex LIdle text ≫= parse_tokens (SVal []) with
  | Some v => Ok v
  | None => Err (mkError (js "Unexpected token in JSON"))
  end.

End Json.

(* ===================================================================== *)
(** ** The hash of a reference, as mintNFT and evolveNFT compute it *)
(* ===================================================================== *)

(** [ethers.toUtf8Bytes(str)]: the argument has to be a string
    ([assertArgument(typeof(str) === "string", ...)]) without an unpaired
    high surrogate.  The texts of library and engine errors are shortened. *)
Definition toUtf8Bytes (str : JsValue) : result bytes :=
  match str with
  | JString s =>
    match Utf8.encode s with
    | Some b => Ok b
    | None => Err (mkError (js "invalid surrogate pair"))
    end
  | _ => Err (mkError (js "invalid string value"))
  end.

(** [ethers.keccak256(data)] on a byte array: the digest as a hex string. *)
Definition keccak256 (data : bytes) : jsstring := hexlify (Keccak.keccak256 data).

(* ===================================================================== *)
(** ** The outside world: the pinning service and the contract *)
(* ===================================================================== *)

(** A contract transaction response; the code reads [tx.hash] and calls
    [tx.wait()]. *)
Record Tx : Type := mkTx { tx_hash : jsstring }.

(** An entry of [receipt.logs]: [fragment] is the name of the event
    fragment when the contract interface parsed the log
    ([log.fragment?.name]), [args_tokenId] is [log.args.tokenId]. *)
Record Log : Type := mkLog {
  fragment : option jsstring;
  args_tokenId : option N
}.

Record Receipt : Type := mkReceipt { logs : list Log }.

(** [req.file] as multer's memory storage leaves it. *)
Record File : Type := mkFile { buffer : bytes; originalname : jsstring }.

(** The awaited calls that leave the process. *)
Inductive ExtCall : Type :=
| PinFileToIPFS (fileBuffer : bytes) (fileName : jsstring)
| PinJSONToIPFS (jsonData : JsValue)
| SafeMint (to metadataUri : JsValue) (hash : jsstring)
| CommitEvolution (tokenId : jsstring) (metadataUri : JsValue) (hash : jsstring)
| TxWait (tx : Tx)
| TokenURI (tokenId : jsstring).

(** What a call resolves to: [response.data.IpfsHash], a transaction, a
    receipt, the stored URI. *)
Definition Answer (c : ExtCall) : Type :=
  match c with
  | PinFileToIPFS _ _ | PinJSONToIPFS _ => jsstring
  | SafeMint _ _ _ | CommitEvolution _ _ _ => Tx
  | TxWait _ => Receipt
  | TokenURI _ => jsstring
  end.

(** An async function: it returns, throws, or awaits a call and goes on
    with the settled promise. *)
Inductive prog (A : Type) : Type :=
| Ret (a : A)
| Throw (e : JsError)
| Await (c : ExtCall) (k : result (Answer c) -> prog A).
Arguments Ret {A} a.
Arguments Throw {A} e.
Arguments Await {A} c k.

Fixpoint bind {A B : Type} (p : prog A) (f : A -> prog B) : prog B :=
  match p with
  | Ret a => f a
  | Throw e => Throw e
  | Await c k => Await c (fun r => bind (k r) f)
  end.

#[global] Instance prog_ret : MRet prog := @Ret.
#[global] Instance prog_bind : MBind prog := fun A B f p => bind p f.

(** A synchronous step that may throw. *)
Definition lift {A : Type} (r : result A) : prog A :=
  match r with
  | Ok a => Ret a
  | Err e => Throw e
  end.

(** [await call]: a rejected promise throws. *)
Definition await (c : ExtCall) : prog (Answer c) := Await c lift.

(** [try { p } catch (err) { h err }]. *)
Fixpoint try_catch {A : Type} (p : prog A) (h : JsError -> prog A) : prog A :=
  match p with
  | Ret a => Ret a
  | Throw e => h e
  | Await c k => Await c (fun r => try_catch (k r) h)
  end.

(** The HTTP answer: [res.status(s).json(body)], [res.json(body)] with
    status 200, or [res.sendStatus(s)] without a JSON body. *)
Record Response : Type := mkResponse { status : Z; body : option JsValue }.

Definition json (s : Z) (b : JsValue) : Response := mkResponse s (Some b).
Definition sendStatus (s : Z) : Response := mkResponse s None.

(** The text fields of a multipart body, each name sent once. *)
Definition TextFields : Type := list (jsstring * jsstring).

Fixpoint text_field (k : jsstring) (fs : TextFields) : option jsstring :=
  match fs with
  | [] => None
  | (k', v) :: rest => if bool_decide (k = k') then Some v else text_field k rest
  end.

(** [x || d] on a text field: absent and empty fields take the default. *)
Definition or_default (x : option jsstring) (d : jsstring) : jsstring :=
  match x with
  | Some (c :: s) => c :: s
  | _ => d
  end.

(** [attributes ? JSON.parse(attributes) : d]. *)
Definition parse_attributes (attributes : option jsstring) (d : JsValue) : result JsValue :=
  match attributes with
  | Some (c :: s) => Json.parse (c :: s)
  | _ => Ok d
  end.

(** [req.file.buffer] and [req.file.originalname]: a TypeError without a
    file. *)
Definition file_of (f : option File) : result File :=
  match f with
  | Some f => Ok f
  | None => Err (mkError (js "Cannot read properties of undefined (reading 'buffer')"))
  end.

(** [ethers.getBigInt(event.args.tokenId)]. *)
Definition getBigInt (v : option N) : result N :=
  match v with
  | Some n => Ok n
  | None => Err (mkError (js "invalid BigNumberish value"))
  end.

(* ===================================================================== *)
(** ** Functions that are the same in both files *)
(* ===================================================================== *)

Definition uploadImageToPinata (fileBuffer : bytes) (fileName : jsstring) : prog jsstring :=
  await (PinFileToIPFS fileBuffer fileName).

Definition uploadJSONToPinata (jsonData : JsValue) : prog jsstring :=
  await (PinJSONToIPFS jsonData).

Definition evolveNFT (tokenId : jsstring) (metadataUri : JsValue) : prog jsstring :=
  data ← lift (toUtf8Bytes metadataUri);
  let hash := keccak256 data in
  tx ← await (CommitEvolution tokenId metadataUri hash);
  _ ← await (TxWait tx);
  mret (tx_hash tx).

Definition getTokenURI (tokenId : jsstring) : prog jsstring :=
  await (TokenURI tokenId).

(** HEAD /ping *)
Definition ping : prog Response := mret (sendStatus 200).

(** GET /token/:tokenId *)
Definition token (tokenId : jsstring) : prog Response :=
  try_catch
    (uri ← getTokenURI tokenId;
     mret (json 200 (JObject [(js "success", JBool true);
                              (js "tokenId", JString tokenId);
                              (js "uri", JString uri)])))
    (fun err => mret (json 500 (JObject [(js "success", JBool false);
                                         (js "error", JString (message err))]))).

(* ===================================================================== *)
(** ** src/index.js *)
(* ===================================================================== *)

Module IndexJs.

Definition mintNFT (to metadataUri : JsValue) : prog jsstring :=
  data ← lift (toUtf8Bytes metadataUri);
  let hash := keccak256 data in
  tx ← await (SafeMint to metadataUri hash);
  _ ← await (TxWait tx);
  mret (tx_hash tx).

(** POST /mint *)
Definition mint (req_body : JsValue) : prog Response :=
  try_catch
    (to ← lift (destructure (js "to") req_body);
     metadataUri ← lift (destructure (js "metadataUri") req_body);
     if negb (truthy to) || negb (truthy metadataUri) then
       mret (json 400 (JObject [(js "error", JString (js "to and metadataUri are required"))]))
     else
       txHash ← mintNFT to metadataUri;
       mret (json 200 (JObject [(js "success", JBool true);
                                (js "txHash", JString txHash);
                                (js "metadataUri", metadataUri)])))
    (fun err => mret (json 500 (JObject [(js "error", JString (message err))]))).

(** POST /evolve/:tokenId, with [upload.single("file")] in front *)
Definition evolve (tokenId : jsstring) (req_file : option File) (req_body : TextFields)
  : prog Response :=
  try_catch
    (let attributes := text_field (js "attributes") req_body in
     file ← lift (file_of req_file);
     let fileBuffer := buffer file in
     let fileName := originalname file in
     imageCid ← uploadImageToPinata fileBuffer fileName;
     attrs ← lift (parse_attributes attributes (JObject []));
     let metadata := JObject [
       (js "name", JString (js "Evolved NFT #" ++ tokenId));
       (js "description", JString (js "This NFT has evolved via AI."));
       (js "image", JString (js "ipfs://" ++ imageCid));
       (js "attributes", attrs)] in
     metadataCid ← uploadJSONToPinata metadata;
     txHash ← evolveNFT tokenId (JString (js "ipfs://" ++ metadataCid));
     mret (json 200 (JObject [(js "success", JBool true);
                              (js "txHash", JString txHash);
                              (js "imageCid", JString imageCid);
                              (js "metadataCid", JString metadataCid)])))
    (fun err => mret (json 500 (JObject [(js "success", JBool false);
                                         (js "error", JString (message err))]))).

End IndexJs.

(* ===================================================================== *)
(** ** src/unnamed/part_000 *)
(* ===================================================================== *)

Module Part000.

(** [receipt.logs.find(log => log.fragment?.name === "Transfer")] *)
Definition find_transfer (ls : list Log) : option Log :=
  List.find (fun log => bool_decide (fragment log = Some (js "Transfer"))) ls.

(** The guard [if (!contract) throw ...] never fires: [contract] is the
    object built when the module is loaded. *)
Definition mintNFT (to metadataUri : JsValue) : prog JsValue :=
  data ← lift (toUtf8Bytes metadataUri);
  let hash := keccak256 data in
  tx ← await (SafeMint to metadataUri hash);
  receipt ← await (TxWait tx);
  let event := find_transfer (logs receipt) in
  tokenId ← lift (match event with
                  | Some ev => match getBigInt (args_tokenId ev) with
                               | Ok n => Ok (bigint_toString n)
                               | Err e => Err e
                               end
                  | None => Ok (js "unknown")
                  end);
  mret (JObject [(js "success", JBool true);
                 (js "txHash", JString (tx_hash tx));
                 (js "tokenId", JString tokenId);
                 (js "metadataUri", metadataUri)]).

(** POST /mint *)
Definition mint (req_body : JsValue) : prog Response :=
  try_catch
    (to ← lift (destructure (js "to") req_body);
     metadataUri ← lift (destructure (js "metadataUri") req_body);
     if negb (truthy to) || negb (truthy metadataUri) then
       mret (json 400 (JObject [(js "error", JString (js "to and metadataUri are required"))]))
     else
       result ← mintNFT to metadataUri;
       mret (json 200 result))
    (fun err => mret (json 500 (JObject [(js "error", JString (message err))]))).

(** POST /evolve/:tokenId *)
Definition evolve (tokenId : jsstring) (req_body : JsValue) : prog Response :=
  try_catch
    (metadataUri ← lift (destructure (js "metadataUri") req_body);
     if negb (truthy metadataUri) then
       mret (json 400 (JObject [(js "error", JString (js "metadataUri is required"))]))
     else
       txHash ← evolveNFT tokenId metadataUri;
       mret (json 200 (JObject [(js "success", JBool true);
                                (js "txHash", JString txHash);
                                (js "tokenId", JString tokenId);
                                (js "metadataUri", metadataUri)])))
    (fun err => mret (json 500 (JObject [(js "success", JBool false);
                                         (js "error", JString (message err))]))).

(** POST /upload-image, with [upload.single("image")] in front *)
Definition upload_image (req_file : option File) (req_body : TextFields) : prog Response :=
  try_catch
    (match req_file with
     | None =>
       mret (json 400 (JObject [(js "error",
               JString (js "No file uploaded. Field name must be 'file'."))]))
     | Some file =>
       let name := text_field (js "name") req_body in
       let description := text_field (js "description") req_body in
       let attributes := text_field (js "attributes") req_body in
       let fileBuffer := buffer file in
       let fileName := originalname file in
       imageCid ← uploadImageToPinata fileBuffer fileName;
       attrs ← lift (parse_attributes attributes (JArray []));
       let metadata := JObject [
         (js "name", JString (or_default name (js "Untitled NFT")));
         (js "description", JString (or_default description (js "No description provided")));
         (js "image", JString (js "ipfs://" ++ imageCid));
         (js "attributes", attrs)] in
       metadataCid ← uploadJSONToPinata metadata;
       mret (json 200 (JObject [(js "success", JBool true);
                                (js "imageCid", JString imageCid);
                                (js "metadataCid", JString metadataCid);
                                (js "metadataUri", JString (js "ipfs://" ++ metadataCid));
                                (js "metadata", metadata)]))
     end)
    (fun err => mret (json 500 (JObject [(js "success", JBool false);
                                         (js "error", JString (message err))]))).

(** The last middleware, [app.use((err, req, res, next) => ...)]: what a
    failure of [express.json()] or of multer is answered with. *)
Definition error_middleware (err : JsError) : Response :=
  json 400 (JObject [(js "error", JString (message err))]).

End Part000.

(* ===================================================================== *)
(** ** The middleware in front of the handlers *)
(* ===================================================================== *)

(** What a middleware hands to [next(err)]: an [Error] and its [status]
    property when it has one.  body-parser sets it (400 for a body that is
    not JSON, 413 for a body over the size limit, 415 for a charset it does
    not know); the errors of multer carry none. *)
Record HttpError : Type := mkHttpError { cause : JsError; err_status : option Z }.

(** A request for one of the routes of a server, as the middleware leaves
    it.  [app.use(express.json())] runs for every route and
    [upload.single(...)] for the multipart route; each either passes the
    request on ([Passed], with [req.body] and [req.file] as the handler
    reads them) or calls [next(err)] ([Refused]), and then no handler
    runs. *)
Inductive Arrival (R : Type) : Type :=
| Passed (r : R)
| Refused (err : HttpError).
Arguments Passed {R} r.
Arguments Refused {R} err.

(** Express's own error handler, which answers when the program registers
    none: the status is [err.status] when that is a 4xx or 5xx and 500
    otherwise; the body is an HTML page, so the answer has no JSON body. *)
Definition default_error_handler (err : HttpError) : Response :=
  mkResponse (match err_status err with
              | Some s => if (400 <=? s) && (s <? 600) then s else 500
              | None => 500
              end) None.

(** The routers: [serve] is the route handler that a request reaches once
    the middleware has passed it on, [app] is the application as a whole. *)
Module IndexJsApp.
Inductive Request : Type :=
| HeadPing
| PostMint (req_body : JsValue)
| PostEvolve (tokenId : jsstring) (req_file : option File) (req_body : TextFields)
| GetToken (tokenId : jsstring).

Definition serve (r : Request) : prog Response :=
  match r with
  | HeadPing => ping
  | PostMint b => IndexJs.mint b
  | PostEvolve t f b => IndexJs.evolve t f b
  | GetToken t => token t
  end.

(** index.js registers no error middleware: a refused request is answered
    by Express's default handler. *)
Definition app (a : Arrival Request) : prog Response :=
  match a with
  | Passed r => serve r
  | Refused err => mret (default_error_handler err)
  end.
End IndexJsApp.

Module Part000App.
Inductive Request : Type :=
| HeadPing
| PostMint (req_body : JsValue)
| PostEvolve (tokenId : jsstring) (req_body : JsValue)
| PostUploadImage (req_file : option File) (req_body : TextFields)
| GetToken (tokenId : jsstring).

Definition serve (r : Request) : prog Response :=
  match r with
  | HeadPing => ping
  | PostMint b => Part000.mint b
  | PostEvolve t b => Part000.evolve t b
  | PostUploadImage f b => Part000.upload_image f b
  | GetToken t => token t
  end.

(** part_000 ends with [app.use((err, req, res, next) => ...)]: a refused
    request is answered by that middleware. *)
Definition app (a : Arrival Request) : prog Response :=
  match a with
  | Passed r => serve r
  | Refused err => mret (Part000.error_middleware (cause err))
  end.
End Part000App.

(* ===================================================================== *)
(** ** Running a handler against a world *)
(* ===================================================================== *)

(** A world answers every call and moves to its next state. *)
Record World (S : Type) : Type := mkWorld {
  answer : S -> forall c : ExtCall, S * result (Answer c)
}.
Arguments answer {S} w s c.

(** One handler run to its end: the outcome, the world after it and the
    calls made, in order. *)
Fixpoint run {S A : Type} (w : World S) (p : prog A) (s : S)
  : result A * S * list ExtCall :=
  match p with
  | Ret a => (Ok a, s, [])
  | Throw e => (Err e, s, [])
  | Await c k =>
    let '(s1, r) := answer w s c in
    let '(o, s2, tr) := run w (k r) s1 in
    (o, s2, c :: tr)
  end.

(** Requests served concurrently: the event loop resumes one suspended
    handler at a time, up to its next [await]. *)
Definition step {S A : Type} (w : World S) (p : prog A) (s : S)
  : prog A * S * list ExtCall :=
  match p with
  | Await c k => let '(s1, r) := answer w s c in (k r, s1, [c])
  | _ => (p, s, [])
  end.

Fixpoint schedule {S A : Type} (w : World S) (order : list nat)
         (pool : list (prog A)) (s : S) : list (prog A) * S * list ExtCall :=
  match order with
  | [] => (pool, s, [])
  | i :: rest =>
    match pool !! i with
    | Some p =>
      let '(p1, s1, tr1) := step w p s in
      let '(pool2, s2, tr2) := schedule w rest (<[i := p1]> pool) s1 in
      (pool2, s2, tr1 ++ tr2)
    | None => schedule w rest pool s
    end
  end.

(** A handler that has awaited a call and has not finished. *)
Definition in_flight {A : Type} (p : prog A) : bool :=
  match p with
  | Await _ _ => true
  | _ => false
  end.

Definition finished {A : Type} (p : prog A) : bool := negb (in_flight p).

(** A property of every call a program can make, whatever it is answered. *)
Fixpoint every_call {A : Type} (P : ExtCall -> Prop) (p : prog A) : Prop :=
  match p with
  | Ret _ | Throw _ => True
  | Await c k => P c /\ forall r, every_call P (k r)
  end.

(** The number of calls of a kind on every path of a program. *)
Inductive calls_exactly {A : Type} (f : ExtCall -> bool) : nat -> prog A -> Prop :=
| ce_ret a : calls_exactly f 0 (Ret a)
| ce_throw e : calls_exactly f 0 (Throw e)
| ce_await c k n :
    (forall r, calls_exactly f n (k r)) ->
    calls_exactly f ((if f c then 1 else 0) + n) (Await c k).

Definition count_calls (f : ExtCall -> bool) (tr : list ExtCall) : nat :=
  length (List.filter f tr).

Definition is_create (c : ExtCall) : bool :=
  match c with SafeMint _ _ _ => true | _ => false end.

Definition is_store_call (c : ExtCall) : bool :=
  match c with PinFileToIPFS _ _ | PinJSONToIPFS _ => true | _ => false end.

(** The reference and the hash of a ledger write. *)
Definition written (c : ExtCall) : option (JsValue * jsstring) :=
  match c with
  | SafeMint _ uri h | CommitEvolution _ uri h => Some (uri, h)
  | _ => None
  end.

(* ===================================================================== *)
(** ** HashBinder *)
(* ===================================================================== *)

(** The spec's HashBinder: keccak256 over the UTF-8 encoding of the
    reference string, undefined where the string has no encoding. *)
Definition HashBinder (reference : jsstring) : option jsstring :=
  match Utf8.encode reference with
  | Some data => Some (hexlify (Keccak.keccak256 data))
  | None => None
  end.

(** A ledger write pairs a string with the HashBinder of that string. *)
Definition bound (c : ExtCall) : Prop :=
  match written c with
  | Some (JString r, h) => HashBinder r = Some h
  | Some (_, _) => False
  | None => True
  end.

(* ===================================================================== *)
(** ** A ledger and a content store to run against *)
(* ===================================================================== *)

(** Modelled from the spec: the ledger contract and the pinning service,
    which are not under src/.  The ledger keeps, per record identifier, the
    owner, the current reference and the commitment hash as submitted (it
    "does not re-derive the hash"), assigns identifiers itself and reports
    the new identifier in a Transfer event; an update or a read of an
    unknown identifier is rejected.  [keep] is what the ledger does to a
    submitted hash before storing it: the identity for the ledger of the
    spec, anything else for a faulty adapter. *)
Record AnchorRecord : Type := mkRecord {
  owner : JsValue;
  reference : jsstring;
  commitment : jsstring
}.

Record Chain : Type := mkChain {
  records : gmap N AnchorRecord;
  next_id : N;
  receipts : gmap N Receipt;     (* by transaction number *)
  next_tx : N;
  pins : N                       (* contents pinned so far *)
}.

Definition genesis : Chain := mkChain ∅ 1 ∅ 0 0.

Fixpoint decimal_value (acc : N) (s : jsstring) : option N :=
  match s with
  | [] => Some acc
  | c :: rest =>
    if (48 <=? c) && (c <=? 57)
    then decimal_value (10 * acc + Z.to_N (c - 48)) rest
    else None
  end.

Definition parse_id (s : jsstring) : option N :=
  match s with
  | [] => None
  | _ => decimal_value 0 s
  end.

Definition tx_of (n : N) : Tx := mkTx (js "0x" ++ bigint_toString n).

Definition tx_number (tx : Tx) : option N :=
  match tx_hash tx with
  | 48 :: 120 :: digits => parse_id digits
  | _ => None
  end.

Definition reverted : JsError := mkError (js "execution reverted").

Definition chain_answer (keep : jsstring -> jsstring) (ch : Chain) (c : ExtCall)
  : Chain * result (Answer c) :=
  match c return Chain * result (Answer c) with
  | PinFileToIPFS _ _ | PinJSONToIPFS _ =>
    (mkChain (records ch) (next_id ch) (receipts ch) (next_tx ch) (pins ch + 1),
     Ok (js "Qm" ++ bigint_toString (pins ch)))
  | SafeMint to (JString r) h =>
    (mkChain (<[next_id ch := mkRecord to r (keep h)]> (records ch))
             (next_id ch + 1)
             (<[next_tx ch := mkReceipt [mkLog (Some (js "Transfer")) (Some (next_id ch))]]>
                (receipts ch))
             (next_tx ch + 1) (pins ch),
     Ok (tx_of (next_tx ch)))
  | SafeMint _ _ _ => (ch, Err (mkError (js "invalid string value")))
  | CommitEvolution tokenId (JString r) h =>
    match parse_id tokenId ≫= fun id => (fun rec => (id, rec)) <$> records ch !! id with
    | Some (id, rec) =>
      (mkChain (<[id := mkRecord (owner rec) r (keep h)]> (records ch))
               (next_id ch)
               (<[next_tx ch := mkReceipt []]> (receipts ch))
               (next_tx ch + 1) (pins ch),
       Ok (tx_of (next_tx ch)))
    | None => (ch, Err reverted)
    end
  | CommitEvolution _ _ _ => (ch, Err (mkError (js "invalid string value")))
  | TxWait tx =>
    match tx_number tx ≫= fun n => receipts ch !! n with
    | Some receipt => (ch, Ok receipt)
    | None => (ch, Err (mkError (js "transaction not found")))
    end
  | TokenURI tokenId =>
    match parse_id tokenId ≫= fun id => records ch !! id with
    | Some rec => (ch, Ok (reference rec))
    | None => (ch, Err reverted)
    end
  end.

Definition ledger (keep : jsstring -> jsstring) : World Chain :=
  mkWorld Chain (chain_answer keep).

(** The ledger of the spec. *)
Definition faithful : World Chain := ledger (fun h => h).

(** A ledger behind a faulty adapter: every stored hash is the zero hash. *)
Definition zero_hash : jsstring := js "0x" ++ repeat 48 64.
Definition faulty : World Chain := ledger (fun _ => zero_hash).

(** Every record's stored hash is the HashBinder of its reference. *)
Definition chain_ok (ch : Chain) : Prop :=
  map_Forall (fun _ rec => HashBinder (reference rec) = Some (commitment rec))
             (records ch).

(** A world without state, answering by a fixed table. *)
Definition oracle (f : forall c : ExtCall, result (Answer c)) : World unit :=
  mkWorld unit (fun s c => (s, f c)).

(* ===================================================================== *)
(** ** Vocabulary of the statements *)
(* ===================================================================== *)

(** What a program can end with, whatever it is answered: [Q] holds of
    every value returned and [E] of every error thrown. *)
Fixpoint outcomes {A : Type} (Q : A -> Prop) (E : JsError -> Prop) (p : prog A) : Prop :=
  match p with
  | Ret a => Q a
  | Throw e => E e
  | Await c k => forall r, outcomes Q E (k r)
  end.

(** A handler that never throws and only returns values with [Q]. *)
Definition every_return {A : Type} (Q : A -> Prop) (p : prog A) : Prop :=
  outcomes Q (fun _ => False) p.

(** A property of what a handler returns once it has made a call. *)
Definition after_first_call {A : Type} (Q : A -> Prop) (p : prog A) : Prop :=
  match p with
  | Await c k => forall r, every_return Q (k r)
  | _ => True
  end.

(** The hashes submitted to the ledger during a run. *)
Definition anchor_hashes {S A : Type} (w : World S) (p : prog A) (st : S) : list jsstring :=
  omap (fun c => snd <$> written c) (run w p st).2.

Definition is_hex (c : Z) : bool :=
  ((48 <=? c) && (c <=? 57)) || ((97 <=? c) && (c <=? 102)).

(** A 32-byte digest as ethers prints it: "0x" and 64 hex digits. *)
Definition is_bytes32 (h : jsstring) : Prop :=
  exists digits, h = js "0x" ++ digits /\ length digits = 64%nat
                 /\ forallb is_hex digits = true.

(** A create submission and its confirmation both succeed in world [w]
    from state [st]. *)
Definition create_confirms {S : Type} (w : World S) (st : S) (to uri : JsValue)
           (h : jsstring) (tx : Tx) (receipt : Receipt) (st2 : S) : Prop :=
  exists st1, answer w st (SafeMint to uri h) = (st1, Ok tx)
              /\ answer w st1 (TxWait tx) = (st2, Ok receipt).

Definition update_confirms {S : Type} (w : World S) (st : S) (tokenId : jsstring)
           (uri : JsValue) (h : jsstring) (tx : Tx) (receipt : Receipt) (st2 : S) : Prop :=
  exists st1, answer w st (CommitEvolution tokenId uri h) = (st1, Ok tx)
              /\ answer w st1 (TxWait tx) = (st2, Ok receipt).

(** The bodies of the handlers' answers. *)
Definition error_body (msg : jsstring) : JsValue :=
  JObject [(js "error", JString msg)].

Definition failure_body (msg : jsstring) : JsValue :=
  JObject [(js "success", JBool false); (js "error", JString msg)].

(** The shapes of the failures. *)
Definition failure_400 (r : Response) : Prop :=
  status r = 400 /\ exists msg, body r = Some (error_body msg).

Definition failure_500 (r : Response) : Prop :=
  status r = 500 /\ exists msg, body r = Some (failure_body msg).

Definition carries_error (r : Response) : Prop :=
  exists fields msg, body r = Some (JObject fields)
                     /\ lookup_field (js "error") fields = JString msg.

(** The success of index.js's POST /evolve/:tokenId. *)
Definition evolved_upload (r : Response) : Prop :=
  status r = 200
  /\ exists txHash imageCid metadataCid,
      body r = Some (JObject [(js "success", JBool true);
                              (js "txHash", JString txHash);
                              (js "imageCid", JString imageCid);
                              (js "metadataCid", JString metadataCid)]).

(** The result object of part_000's mintNFT. *)
Definition minted (tx : Tx) (tokenId : jsstring) (metadataUri : JsValue) : JsValue :=
  JObject [(js "success", JBool true);
           (js "txHash", JString (tx_hash tx));
           (js "tokenId", JString tokenId);
           (js "metadataUri", metadataUri)].



(** Either program of the repository. *)
Definition serve_any (r : IndexJsApp.Request + Part000App.Request) : prog Response :=
  match r with
  | inl r => IndexJsApp.serve r
  | inr r => Part000App.serve r
  end.

(** A body that passes the check of POST /mint. *)
Definition mint_fields (req_body to metadataUri : JsValue) : Prop :=
  destructure (js "to") req_body = Ok to
  /\ destructure (js "metadataUri") req_body = Ok metadataUri
  /\ truthy to = true /\ truthy metadataUri = true.

Definition is_mint (r : IndexJsApp.Request + Part000App.Request) : bool :=
  match r with
  | inl (IndexJsApp.PostMint _) | inr (Part000App.PostMint _) => true
  | _ => false
  end.

(** Fixtures: the requests of the spec's scenarios. *)
Definition scenarioA : JsValue :=
  JObject [(js "to", JString (js "0xABC"));
           (js "metadataUri", JString (js "ipfs://Qm123"))].

Definition scenarioB : JsValue :=
  JObject [(js "metadataUri", JString (js "ipfs://Qm999"))].

Definition a_file : File := mkFile [137; 80; 78; 71] (js "face.png").

Definition hashA : jsstring :=
  js "0xf99ea96b4422de66a1ebdb6a648cfe99b4ca3aca56e8c1030981f913f5475b49".

(** A ledger whose receipts carry no event at all. *)
Definition silent_ledger : World unit :=
  oracle (fun c =>
    match c return result (Answer c) with
    | PinFileToIPFS _ _ | PinJSONToIPFS _ => Ok (js "QmX")
    | SafeMint _ _ _ | CommitEvolution _ _ _ => Ok (mkTx (js "0xfeed"))
    | TxWait _ => Ok (mkReceipt [])
    | TokenURI _ => Err reverted
    end).

(** The ledger after the mint of scenario A. *)
Definition after_mintA : Chain :=
  (run faithful (Part000.mint scenarioA) genesis).1.2.

Definition after_faulty_mintA : Chain :=
  (run faulty (Part000.mint scenarioA) genesis).1.2.

(** Scenario B on the ledger after scenario A. *)
Definition hashB : jsstring :=
  js "0x916873443f0fa8d4488f9883618de4b6ffa9be6d0a5c186631e35bfc4b704308".

Definition after_evolveB : Chain :=
  (run faithful (Part000.evolve (js "1") scenarioB) after_mintA).1.2.

(** A multipart body whose [attributes] text is not JSON. *)
Definition bad_attributes : TextFields := [(js "attributes", js "{")].

Definition after_one_pin : Chain := mkChain ∅ 1 ∅ 0 1.

(** Two identical create requests. *)
Definition two_mints : list (prog Response) :=
  [Part000.mint scenarioA; Part000.mint scenarioA].

Arguments keccak256 : simpl never.
Arguments hexlify : simpl never.
Arguments js : simpl never.
Arguments Json.parse : simpl never.
Arguments Utf8.encode : simpl never.
Arguments destructure : simpl never.
Arguments truthy : simpl never.
Arguments toUtf8Bytes : simpl never.
Arguments parse_attributes : simpl never.
Arguments bigint_toString : simpl never.

(* ===================================================================== *)
(** ** More vocabulary: kinds of calls, the uploaded documents *)
(* ===================================================================== *)

(** The calls that change the ledger. *)
Definition is_write (c : ExtCall) : bool :=
  match c with
  | SafeMint _ _ _ | CommitEvolution _ _ _ => true
  | _ => false
  end.

(** The calls an endpoint is seen to make. *)
Definition allowed_call (r : IndexJsApp.Request + Part000App.Request) (c : ExtCall) : bool :=
  match r, c with
  | inl (IndexJsApp.PostMint _), (SafeMint _ _ _ | TxWait _) => true
  | inr (Part000App.PostMint _), (SafeMint _ _ _ | TxWait _) => true
  | inl (IndexJsApp.PostEvolve _ _ _),
    (PinFileToIPFS _ _ | PinJSONToIPFS _ | CommitEvolution _ _ _ | TxWait _) => true
  | inr (Part000App.PostEvolve _ _), (CommitEvolution _ _ _ | TxWait _) => true
  | inr (Part000App.PostUploadImage _ _), (PinFileToIPFS _ _ | PinJSONToIPFS _) => true
  | inl (IndexJsApp.GetToken _), TokenURI _ => true
  | inr (Part000App.GetToken _), TokenURI _ => true
  | _, _ => false
  end.

(** At most [n] calls of a kind on every path of a program. *)
Fixpoint at_most {A : Type} (f : ExtCall -> bool) (n : nat) (p : prog A) : Prop :=
  match p with
  | Ret _ | Throw _ => True
  | Await c k =>
    if f c then
      match n with
      | O => False
      | S n' => forall r, at_most f n' (k r)
      end
    else forall r, at_most f n (k r)
  end.

(** The metadata document that /upload-image of part_000 builds. *)
Definition image_metadata (req_body : TextFields) (imageCid : jsstring) (attrs : JsValue)
  : JsValue :=
  JObject [
    (js "name", JString (or_default (text_field (js "name") req_body) (js "Untitled NFT")));
    (js "description",
     JString (or_default (text_field (js "description") req_body)
                         (js "No description provided")));
    (js "image", JString (js "ipfs://" ++ imageCid));
    (js "attributes", attrs)].

(** The metadata document that /evolve/:tokenId of index.js builds. *)
Definition evolved_metadata (tokenId imageCid : jsstring) (attrs : JsValue) : JsValue :=
  JObject [
    (js "name", JString (js "Evolved NFT #" ++ tokenId));
    (js "description", JString (js "This NFT has evolved via AI."));
    (js "image", JString (js "ipfs://" ++ imageCid));
    (js "attributes", attrs)].

(** A pinning service that is down, and one that takes files but rejects
    documents. *)
Definition store_down : World unit :=
  oracle (fun c =>
    match c return result (Answer c) with
    | PinFileToIPFS _ _ | PinJSONToIPFS _ => Err (mkError (js "Request failed with status code 503"))
    | SafeMint _ _ _ | CommitEvolution _ _ _ => Ok (mkTx (js "0xfeed"))
    | TxWait _ => Ok (mkReceipt [])
    | TokenURI _ => Err reverted
    end).

Definition documents_rejected : World unit :=
  oracle (fun c =>
    match c return result (Answer c) with
    | PinFileToIPFS _ _ => Ok (js "QmImage")
    | PinJSONToIPFS _ => Err (mkError (js "Request failed with status code 400"))
    | SafeMint _ _ _ | CommitEvolution _ _ _ => Ok (mkTx (js "0xfeed"))
    | TxWait _ => Ok (mkReceipt [])
    | TokenURI _ => Err reverted
    end).

(** A ledger that accepts submissions and then fails every wait. *)
Definition never_confirms : World unit :=
  oracle (fun c =>
    match c return result (Answer c) with
    | PinFileToIPFS _ _ | PinJSONToIPFS _ => Ok (js "QmX")
    | SafeMint _ _ _ | CommitEvolution _ _ _ => Ok (mkTx (js "0xfeed"))
    | TxWait _ => Err (mkError (js "transaction execution reverted"))
    | TokenURI _ => Err reverted
    end).

(** A ledger whose receipts list several events around the Transfer of
    token 7. *)
Definition busy_receipt : Receipt :=
  mkReceipt ([mkLog None None; mkLog (Some (js "Approval")) (Some 3%N)]
             ++ mkLog (Some (js "Transfer")) (Some 7%N)
             :: [mkLog (Some (js "Transfer")) (Some 9%N)]).

Definition busy_ledger : World unit :=
  oracle (fun c =>
    match c return result (Answer c) with
    | PinFileToIPFS _ _ | PinJSONToIPFS _ => Ok (js "QmX")
    | SafeMint _ _ _ | CommitEvolution _ _ _ => Ok (mkTx (js "0xfeed"))
    | TxWait _ => Ok busy_receipt
    | TokenURI _ => Err reverted
    end).

(** The [success] field of a JSON answer says whether the status is 200. *)
Definition flag_matches (resp : Response) : Prop :=
  forall fields, body resp = Some (JObject fields) ->
                 (lookup_field (js "success") fields = JBool true <-> status resp = 200).

(** The reference ledger after a create and after an update. *)
Definition after_create (ch : Chain) (to : JsValue) (s h : jsstring) : Chain :=
  mkChain (<[next_id ch := mkRecord to s h]> (records ch))
          (next_id ch + 1)
          (<[next_tx ch := mkReceipt [mkLog (Some (js "Transfer")) (Some (next_id ch))]]>
             (receipts ch))
          (next_tx ch + 1) (pins ch).

Definition after_update (ch : Chain) (id : N) (rec : AnchorRecord) (s h : jsstring) : Chain :=
  mkChain (<[id := mkRecord (owner rec) s h]> (records ch))
          (next_id ch)
          (<[next_tx ch := mkReceipt []]> (receipts ch))
          (next_tx ch + 1) (pins ch).

(* ===================================================================== *)
(** ** Requests that the middleware refuses, calls that are rejected *)
(* ===================================================================== *)

(** Either application of the repository. *)
Definition app_any (a : Arrival IndexJsApp.Request + Arrival Part000App.Request)
  : prog Response :=
  match a with
  | inl a => IndexJsApp.app a
  | inr a => Part000App.app a
  end.

(** A request that the middleware passed on to its handler. *)
Definition arrived (req : IndexJsApp.Request + Part000App.Request)
  : Arrival IndexJsApp.Request + Arrival Part000App.Request :=
  match req with
  | inl r => inl (Passed r)
  | inr r => inr (Passed r)
  end.

(** The calls that the world rejects during a run, each with its error,
    in order. *)
Fixpoint rejections {S A : Type} (w : World S) (p : prog A) (s : S)
  : list (ExtCall * JsError) :=
  match p with
  | Ret _ | Throw _ => []
  | Await c k =>
    let '(s1, r) := answer w s c in
    match r with
    | Ok _ => rejections w (k r) s1
    | Err e => (c, e) :: rejections w (k r) s1
    end
  end.

(** The required-field checks of the handlers: whether a request that
    reached its handler fails the check ([!to || !metadataUri],
    [!metadataUri], [!req.file]).  A body that is [undefined] or [null]
    does not get as far as the check: destructuring it throws. *)
Definition fails_check (req : IndexJsApp.Request + Part000App.Request) : bool :=
  match req with
  | inl (IndexJsApp.PostMint b) | inr (Part000App.PostMint b) =>
    match destructure (js "to") b, destructure (js "metadataUri") b with
    | Ok to, Ok uri => negb (truthy to) || negb (truthy uri)
    | _, _ => false
    end
  | inr (Part000App.PostEvolve _ b) =>
    match destructure (js "metadataUri") b with
    | Ok uri => negb (truthy uri)
    | Err _ => false
    end
  | inr (Part000App.PostUploadImage None _) => true
  | _ => false
  end.

(** The body of a 500 answer: /mint leaves the [success] field out. *)
Definition body_500 (req : IndexJsApp.Request + Part000App.Request) (msg : jsstring)
  : JsValue :=
  if is_mint req then error_body msg else failure_body msg.

(** Errors as the middleware raises them: body-parser on a body that is
    not JSON and on a body over its size limit, multer on a file sent under
    a field name it was not told to expect. *)
Definition malformed_json : HttpError :=
  mkHttpError (mkError (js "Unexpected token } in JSON at position 1")) (Some 400).



(** A receipt whose Transfer event has no argument named [tokenId]. *)
Definition nameless_receipt : Receipt :=
  mkReceipt [mkLog (Some (js "Transfer")) None].

Definition nameless_ledger : World unit :=
  oracle (fun c =>
    match c return result (Answer c) with
    | PinFileToIPFS _ _ | PinJSONToIPFS _ => Ok (js "QmX")
    | SafeMint _ _ _ | CommitEvolution _ _ _ => Ok (mkTx (js "0xfeed"))
    | TxWait _ => Ok nameless_receipt
    | TokenURI _ => Err reverted
    end).

(* ===================================================================== *)
(** ** The encoding of a reference, byte by byte *)
(* ===================================================================== *)

(** A JavaScript string is a sequence of 16-bit code units. *)
Definition code_units (s : jsstring) : Prop := Forall (fun c => 0 <= c < 65536) s.

(** An exhaustive check over the numbers of [n] bits, by which the facts
    about the masks and shifts of the encoder are settled. *)
Fixpoint all_bits (n : nat) (f : Z -> bool) : bool :=
  match n with
  | O => f 0
  | S n' => all_bits n' (fun z => f (2 * z)) && all_bits n' (fun z => f (2 * z + 1))
  end.

(** One step of the loop of [toUtf8Bytes], with the masks and shifts
    written as quotients and remainders: the code units it consumes, the
    bytes it appends, and the code units it leaves. *)
Inductive head_of : jsstring -> bytes -> jsstring -> Prop :=
| head_ascii c t : 0 <= c < 128 -> head_of (c :: t) [c] t
| head_two c t : 128 <= c < 2048 -> head_of (c :: t) [c / 64 + 192; c mod 64 + 128] t
| head_three c t :
    2048 <= c < 65536 -> ~ (0xd800 <= c < 0xdc00) ->
    head_of (c :: t) [c / 4096 + 224; (c / 64) mod 64 + 128; c mod 64 + 128] t
| head_four c c2 t v :
    0xd800 <= c < 0xdc00 -> 0xdc00 <= c2 < 0xe000 ->
    v = 65536 + (c - 0xd800) * 1024 + (c2 - 0xdc00) ->
    head_of (c :: c2 :: t)
            [v / 262144 + 240; (v / 4096) mod 64 + 128; (v / 64) mod 64 + 128; v mod 64 + 128] t.

(* ===================================================================== *)
(** ** UTF-8 as the standard defines it *)
(* ===================================================================== *)

(** The encoding the spec names, written from the standard and not from
    the loop of ethers: the code units are read as code points (a high
    surrogate followed by a low one is one code point above the basic
    plane) and every code point is written in one to four bytes by the
    table of RFC 3629.  A high surrogate that no low surrogate follows has
    no encoding.  A low surrogate that stands alone is written in three
    bytes like any other code point below 0x10000, which is what ethers
    does with it. *)
Module Utf8Standard.

Definition is_high (c : Z) : bool := (0xD800 <=? c) && (c <=? 0xDBFF).
Definition is_low (c : Z) : bool := (0xDC00 <=? c) && (c <=? 0xDFFF).

Fixpoint code_points (s : jsstring) : option (list Z) :=
  match s with
  | [] => Some []
  | c :: t =>
    if is_high c then
      match t with
      | c2 :: rest =>
        if is_low c2 then
          cons (0x10000 + (c - 0xD800) * 0x400 + (c2 - 0xDC00)) <$> code_points rest
        else None
      | [] => None
      end
    else cons c <$> code_points t
  end.

Definition encode_code_point (cp : Z) : bytes :=
  if cp <? 0x80 then [cp]
  else if cp <? 0x800 then [0xC0 + cp / 64; 0x80 + cp mod 64]
  else if cp <? 0x10000 then [0xE0 + cp / 4096; 0x80 + (cp / 64) mod 64; 0x80 + cp mod 64]
  else [0xF0 + cp / 262144; 0x80 + (cp / 4096) mod 64;
        0x80 + (cp / 64) mod 64; 0x80 + cp mod 64].

Definition encode (s : jsstring) : option bytes :=
  flat_map encode_code_point <$> code_points s.

End Utf8Standard.

(** A string has an unpaired high surrogate when some code unit of it is
    a high surrogate and the next one, if there is one, is not a low
    surrogate. *)
Definition unpaired_high_surrogate (s : jsstring) : Prop :=
  exists (i : nat) (c : Z),
    s !! i = Some c /\ Utf8Standard.is_high c = true
    /\ forall c2, s !! S i = Some c2 -> Utf8Standard.is_low c2 = false.

(** A reference whose last code unit is a high surrogate. *)
Definition dangling : jsstring := js "ipfs://Qm" ++ [0xD83D].


(* ===================================================================== *)
(** ** The library functions on known inputs *)
(* ===================================================================== *)

Example keccak_empty :
  hexlify (Keccak.keccak256 [])
  = js "0xc5d2460186f7233c927e7db2dcc703c0e500b653ca82273b7bfad8045d85a470".
Proof. vm_compute. reflexivity. Qed.

Example keccak_abc :
  hexlify (Keccak.keccak256 (js "abc"))
  = js "0x4e03657aea45a94fc7d47ba826c8d667c0d1e6e33a64a036ec44f58fa12d6c45".
Proof. vm_compute. reflexivity. Qed.

Example keccak_transfer_topic :
  hexlify (Keccak.keccak256 (js "Transfer(address,address,uint256)"))
  = js "0xddf252ad1be2c89b69c2b068fc378daa952ba7f163c4a11628f55a4df523b3ef".
Proof. vm_compute. reflexivity. Qed.

Example utf8_ascii : Utf8.encode (js "ipfs://Qm123") = Some (js "ipfs://Qm123").
Proof. reflexivity. Qed.

(** U+00E9, U+20AC and the pair for U+1F600. *)
Example utf8_multibyte :
  Utf8.encode [0xe9; 0x20ac; 0xd83d; 0xde00]
  = Some [0xc3; 0xa9; 0xe2; 0x82; 0xac; 0xf0; 0x9f; 0x98; 0x80].
Proof. reflexivity. Qed.

Example utf8_unpaired_surrogate : Utf8.encode [0x41; 0xd800] = None.
Proof. reflexivity. Qed.

Example json_parse_attributes :
  Json.parse (js "[{" ++ quoted (js "trait_type") ++ js ": " ++ quoted (js "Mood")
              ++ js ", " ++ quoted (js "value") ++ js ": 7}]")
  = Ok (JArray [JObject [(js "trait_type", JString (js "Mood"));
                         (js "value", JNumber 7 0)]]).
Proof. reflexivity. Qed.

Example json_parse_number : Json.parse (js " -12.50e+3 ") = Ok (JNumber (-1250) 1).
Proof. reflexivity. Qed.

Example json_parse_trailing_comma :
  Json.parse (js "[1,]") = Err (mkError (js "Unexpected token in JSON")).
Proof. reflexivity. Qed.

Example truthy_values :
  truthy (JString []) = false /\ truthy (JString (js "0")) = true
  /\ truthy (JNumber 0 0) = false /\ truthy (JNumber 1 (-400)) = false
  /\ truthy (JNumber 5 (-324)) = true /\ truthy (JObject []) = true.
Proof. repeat split. Qed.

(* ===================================================================== *)
(** ** The scenarios of the spec on the reference ledger *)
(* ===================================================================== *)

(** Scenario A: the mint, then the read of token 1. *)
Example scenario_A_mint_then_read :
  (run faithful (Part000App.serve (Part000App.PostMint scenarioA)) genesis).1.1
  = Ok (json 200 (minted (tx_of 0) (js "1") (JString (js "ipfs://Qm123"))))
  /\ (run faithful (Part000App.serve (Part000App.GetToken (js "1"))) after_mintA).1.1
     = Ok (json 200 (JObject [(js "success", JBool true);
                              (js "tokenId", JString (js "1"));
                              (js "uri", JString (js "ipfs://Qm123"))])).
Proof. split; vm_compute; reflexivity. Qed.

(** Scenario B: the update of token 1, then its read. *)
Example scenario_B_evolve_then_read :
  (run faithful (Part000App.serve (Part000App.PostEvolve (js "1") scenarioB)) after_mintA).1.1
  = Ok (json 200 (JObject [(js "success", JBool true);
                           (js "txHash", JString (js "0x1"));
                           (js "tokenId", JString (js "1"));
                           (js "metadataUri", JString (js "ipfs://Qm999"))]))
  /\ (run faithful (Part000App.serve (Part000App.GetToken (js "1"))) after_evolveB).1.1
     = Ok (json 200 (JObject [(js "success", JBool true);
                              (js "tokenId", JString (js "1"));
                              (js "uri", JString (js "ipfs://Qm999"))])).
Proof. split; vm_compute; reflexivity. Qed.

(** Scenario C: the empty body, on either server. *)
Example scenario_C_missing_fields :
  Part000App.serve (Part000App.PostMint (JObject []))
  = Ret (json 400 (error_body (js "to and metadataUri are required")))
  /\ IndexJsApp.serve (IndexJsApp.PostMint (JObject []))
     = Ret (json 400 (error_body (js "to and metadataUri are required"))).
Proof. split; reflexivity. Qed.

(** The record that scenario A leaves on the ledger. *)
Example scenario_A_record :
  records after_mintA !! 1%N
  = Some (mkRecord (JString (js "0xABC")) (js "ipfs://Qm123") hashA)
  /\ HashBinder (js "ipfs://Qm123") = Some hashA.
Proof. split; vm_compute; reflexivity. Qed.

(** A mint and an upload-and-evolve of index.js, interleaved: the record
    ends with the reference of the uploaded metadata and its hash. *)
Example interleaved_mint_and_evolve :
  records (schedule faithful [0; 1; 0; 1; 1; 1; 0]%nat
             (map serve_any [inr (Part000App.PostMint scenarioA);
                             inl (IndexJsApp.PostEvolve (js "1") (Some a_file) [])])
             genesis).1.2 !! 1%N
  = Some (mkRecord (JString (js "0xABC")) (js "ipfs://Qm1") (keccak256 (js "ipfs://Qm1"))).
Proof. vm_compute. reflexivity. Qed.

(** An update of a record that does not exist is rejected by the ledger. *)
Example evolve_unknown_record :
  (run faithful (Part000App.serve (Part000App.PostEvolve (js "7") scenarioB)) genesis).1.1
  = Ok (json 500 (failure_body (js "execution reverted"))).
Proof. vm_compute. reflexivity. Qed.

(* ===================================================================== *)
(** ** Programs, runs and schedules *)
(* ===================================================================== *)

Section Programs.
Context {A : Type}.
Implicit Types (p : prog A) (P : ExtCall -> Prop).

Lemma every_call_impl P (P' : ExtCall -> Prop) p :
  (forall c, P c -> P' c) -> every_call P p -> every_call P' p.
Proof.
  intros HPQ. induction p as [a|e|c k IH]; simpl; auto.
  intros [Hc Hk]. split; auto.
Qed.

Lemma every_call_bind {B : Type} P p (f : A -> prog B) :
  every_call P p -> (forall a, every_call P (f a)) -> every_call P (bind p f).
Proof.
  intros Hp Hf. induction p as [a|e|c k IH]; simpl in *; auto.
  destruct Hp as [Hc Hk]. split; auto.
Qed.

Lemma every_call_try_catch P p (h : JsError -> prog A) :
  every_call P p -> (forall e, every_call P (h e)) -> every_call P (try_catch p h).
Proof.
  intros Hp Hh. induction p as [a|e|c k IH]; simpl in *; auto.
  destruct Hp as [Hc Hk]. split; auto.
Qed.

Lemma every_call_lift P (r : result A) : every_call P (lift r).
Proof. destruct r; exact I. Qed.

Lemma outcomes_impl (Q Q' : A -> Prop) (E E' : JsError -> Prop) p :
  (forall a, Q a -> Q' a) -> (forall e, E e -> E' e) ->
  outcomes Q E p -> outcomes Q' E' p.
Proof.
  intros HQ HE. induction p as [a|e|c k IH]; simpl; auto.
Qed.

Lemma outcomes_bind {B : Type} (Q1 : A -> Prop) (Q : B -> Prop) (E : JsError -> Prop)
      p (f : A -> prog B) :
  outcomes Q1 E p -> (forall a, Q1 a -> outcomes Q E (f a)) -> outcomes Q E (bind p f).
Proof.
  intros Hp Hf. induction p as [a|e|c k IH]; simpl in *; auto.
Qed.

Lemma outcomes_try_catch (Q : A -> Prop) (E1 E : JsError -> Prop) p (h : JsError -> prog A) :
  outcomes Q E1 p -> (forall e, E1 e -> outcomes Q E (h e)) ->
  outcomes Q E (try_catch p h).
Proof.
  intros Hp Hh. induction p as [a|e|c k IH]; simpl in *; auto.
Qed.

Lemma outcomes_lift (Q : A -> Prop) (E : JsError -> Prop) (r : result A) :
  (forall a, r = Ok a -> Q a) -> (forall e, r = Err e -> E e) -> outcomes Q E (lift r).
Proof. destruct r; simpl; auto. Qed.

Context {S : Type} (w : World S).

Lemma run_every_call P p (st : S) :
  every_call P p -> Forall P (run w p st).2.
Proof.
  revert st. induction p as [a|e|c k IH]; simpl; intros st Hp; try constructor.
  destruct Hp as [Hc Hk].
  destruct (answer w st c) as [s1 r].
  specialize (IH r s1 (Hk r)).
  destruct (run w (k r) s1) as [[o s2] tr]. simpl in *. constructor; auto.
Qed.

Lemma run_outcomes (Q : A -> Prop) (E : JsError -> Prop) p (st : S) :
  outcomes Q E p ->
  match (run w p st).1.1 with
  | Ok a => Q a
  | Err e => E e
  end.
Proof.
  revert st. induction p as [a|e|c k IH]; simpl; intros st Hp; auto.
  destruct (answer w st c) as [s1 r].
  specialize (IH r s1 (Hp r)).
  destruct (run w (k r) s1) as [[o s2] tr]. exact IH.
Qed.

Lemma run_every_return (Q : A -> Prop) p (st : S) :
  every_return Q p -> exists a, (run w p st).1.1 = Ok a /\ Q a.
Proof.
  intros Hp. pose proof (run_outcomes _ _ p st Hp) as H.
  destruct ((run w p st).1.1) as [a|e]; [eauto | contradiction].
Qed.

Lemma run_after_first_call (Q : A -> Prop) p (st : S) :
  after_first_call Q p ->
  (run w p st).2 = [] /\ (run w p st).1.2 = st
  \/ exists a, (run w p st).1.1 = Ok a /\ Q a.
Proof.
  destruct p as [a|e|c k]; simpl; intros Hp; auto.
  right. destruct (answer w st c) as [s1 r].
  destruct (run_every_return Q (k r) s1 (Hp r)) as (a & Ha & HQ).
  destruct (run w (k r) s1) as [[o s2] tr]. simpl in *. eauto.
Qed.

(** One step of the event loop. *)
Lemma step_every_call P p (st : S) :
  every_call P p -> every_call P (step w p st).1.1 /\ Forall P (step w p st).2.
Proof.
  destruct p as [a|e|c k]; simpl; intros Hp; auto.
  destruct Hp as [Hc Hk]. destruct (answer w st c) as [s1 r]. simpl. auto.
Qed.

Lemma schedule_every_call P (order : list nat) (pool : list (prog A)) (st : S) :
  Forall (every_call P) pool ->
  Forall (every_call P) (schedule w order pool st).1.1
  /\ Forall P (schedule w order pool st).2.
Proof.
  revert pool st. induction order as [|i rest IH]; simpl; intros pool st Hpool; auto.
  destruct (pool !! i) as [p|] eqn:Hi; [|auto].
  assert (Hp : every_call P p) by (eapply Forall_lookup_1; eauto).
  destruct (step_every_call P p st Hp) as [Hp1 Htr1].
  destruct (step w p st) as [[p1 s1] tr1]. simpl in *.
  destruct (IH (<[i := p1]> pool) s1) as [Hpool2 Htr2].
  { apply Forall_insert; auto. }
  destruct (schedule w rest (<[i := p1]> pool) s1) as [[pool2 s2] tr2]. simpl in *.
  split; auto. apply Forall_app; auto.
Qed.

(** Counting the calls of a kind. *)
Lemma step_calls_exactly (f : ExtCall -> bool) (n : nat) p (st : S) :
  calls_exactly f n p ->
  exists m, calls_exactly f m (step w p st).1.1
            /\ (count_calls f (step w p st).2 + m = n)%nat.
Proof.
  intros Hp. destruct Hp as [a|e|c k n Hk]; simpl.
  - exists 0%nat. split; [constructor | reflexivity].
  - exists 0%nat. split; [constructor | reflexivity].
  - destruct (answer w st c) as [s1 r]. simpl. exists n. split; [apply Hk|].
    unfold count_calls. simpl. destruct (f c); simpl; lia.
Qed.

Lemma calls_exactly_finished (f : ExtCall -> bool) (n : nat) p :
  calls_exactly f n p -> finished p = true -> n = 0%nat.
Proof. intros Hp. destruct Hp; simpl; auto. discriminate. Qed.

End Programs.

(* ===================================================================== *)
(** ** The digest *)
(* ===================================================================== *)

Module KeccakFacts.
Import Keccak.

Lemma length_tabulate f : length (tabulate f) = 25%nat.
Proof. unfold tabulate. rewrite length_map, length_seq. reflexivity. Qed.

Lemma length_round a rc : length (round a rc) = 25%nat.
Proof.
  unfold round, iota.
  pose proof (length_tabulate
    (fun x y => Z.lxor (lane (rho_pi (theta a)) x y)
                  (Z.land (Z.lxor (lane (rho_pi (theta a)) (x + 1) y) mask64)
                          (lane (rho_pi (theta a)) (x + 2) y)))) as H.
  fold (chi (rho_pi (theta a))) in H.
  destruct (chi (rho_pi (theta a))); simpl in *; [discriminate | exact H].
Qed.

Lemma length_rounds rcs a :
  length a = 25%nat -> length (fold_left round rcs a) = 25%nat.
Proof.
  revert a. induction rcs as [|rc rcs IH]; intros a Ha; [exact Ha|].
  cbn [fold_left]. apply IH, length_round.
Qed.

Lemma length_absorb blocks st :
  length st = 25%nat -> length (fold_left absorb_block blocks st) = 25%nat.
Proof.
  revert st. induction blocks as [|b blocks IH]; intros st Hst; [exact Hst|].
  cbn [fold_left]. apply IH. apply length_rounds, length_tabulate.
Qed.

Lemma length_sponge m : length (sponge m) = 25%nat.
Proof. apply length_absorb. reflexivity. Qed.

Lemma length_bytes_of_lane n w : length (bytes_of_lane n w) = n.
Proof. revert w. induction n; simpl; intros; auto. Qed.

Lemma bytes_of_lane_bytes n w : Forall (fun x => 0 <= x < 256) (bytes_of_lane n w).
Proof.
  revert w. induction n as [|n IH]; simpl; intros w; constructor; auto.
  change 255 with (Z.ones 8). rewrite Z.land_ones by lia.
  apply Z.mod_pos_bound. lia.
Qed.

Lemma length_flat_map_bytes_of_lane ls :
  length (flat_map (bytes_of_lane 8) ls) = (8 * length ls)%nat.
Proof.
  induction ls as [|x ls IH]; [reflexivity|].
  cbn [flat_map]. rewrite length_app, IH, length_bytes_of_lane. simpl. lia.
Qed.

Lemma length_keccak256 m : length (keccak256 m) = 32%nat.
Proof.
  unfold keccak256. rewrite length_flat_map_bytes_of_lane, length_firstn, length_sponge.
  reflexivity.
Qed.

Lemma keccak256_bytes m : Forall (fun x => 0 <= x < 256) (keccak256 m).
Proof.
  unfold keccak256. induction (firstn 4 (sponge m)) as [|x ls IH]; [constructor|].
  cbn [flat_map]. apply Forall_app. split; [apply bytes_of_lane_bytes | exact IH].
Qed.

End KeccakFacts.

Lemma hexdigit_is_hex d : 0 <= d < 16 -> is_hex (hexdigit d) = true.
Proof. intros Hd. unfold is_hex, hexdigit. destruct (d <? 10) eqn:E; lia. Qed.

Lemma hexlify_is_bytes32 (b : bytes) :
  length b = 32%nat -> Forall (fun x => 0 <= x < 256) b -> is_bytes32 (hexlify b).
Proof.
  intros Hlen Hb. unfold hexlify. eexists. split; [reflexivity|].
  change 64%nat with (2 * 32)%nat. rewrite <- Hlen. clear Hlen.
  induction Hb as [|x b Hx Hb IH]; [split; reflexivity|].
  destruct IH as [IHlen IHhex]. cbn [flat_map length app forallb]. split; [lia|].
  rewrite IHhex, !hexdigit_is_hex; [reflexivity | |].
  - change 15 with (Z.ones 4). rewrite Z.land_ones by lia.
    apply Z.mod_pos_bound. lia.
  - rewrite Z.shiftr_div_pow2 by lia. change (2 ^ 4) with 16.
    split; [apply Z.div_pos; lia | apply Z.div_lt_upper_bound; lia].
Qed.

Lemma keccak256_is_bytes32 (data : bytes) : is_bytes32 (keccak256 data).
Proof.
  apply hexlify_is_bytes32;
    [apply KeccakFacts.length_keccak256 | apply KeccakFacts.keccak256_bytes].
Qed.

Lemma is_bytes32_length (h : jsstring) : is_bytes32 h -> length h = 66%nat.
Proof. intros (d & -> & Hd & _). rewrite length_app, Hd. reflexivity. Qed.

(* ===================================================================== *)
(** ** The hash submitted with a reference *)
(* ===================================================================== *)

Lemma toUtf8Bytes_Ok (v : JsValue) (data : bytes) :
  toUtf8Bytes v = Ok data -> exists r, v = JString r /\ Utf8.encode r = Some data.
Proof.
  unfold toUtf8Bytes. destruct v; try discriminate.
  destruct (Utf8.encode s) eqn:E; [|discriminate].
  intros [= <-]. eauto.
Qed.

Lemma toUtf8Bytes_string (r : jsstring) (data : bytes) :
  Utf8.encode r = Some data -> toUtf8Bytes (JString r) = Ok data.
Proof. intros E. unfold toUtf8Bytes. rewrite E. reflexivity. Qed.

Lemma HashBinder_Some (r : jsstring) (h : jsstring) :
  HashBinder r = Some h <-> exists data, Utf8.encode r = Some data /\ h = keccak256 data.
Proof.
  unfold HashBinder, keccak256. destruct (Utf8.encode r) as [data|]; split.
  - intros [= <-]. eauto.
  - intros (d & [= <-] & ->). reflexivity.
  - discriminate.
  - intros (d & [=] & _).
Qed.

Lemma bound_hash (uri : JsValue) (data : bytes) :
  toUtf8Bytes uri = Ok data ->
  match uri with
  | JString r => HashBinder r = Some (keccak256 data)
  | _ => False
  end.
Proof.
  intros H. apply toUtf8Bytes_Ok in H as (r & -> & E).
  apply HashBinder_Some. eauto.
Qed.

Lemma evolveNFT_bound tokenId uri : every_call bound (evolveNFT tokenId uri).
Proof.
  unfold evolveNFT, mbind, prog_bind.
  destruct (toUtf8Bytes uri) as [data|e] eqn:E; simpl; [|exact I].
  split; [exact (bound_hash _ _ E)|].
  intros [tx|e]; simpl; [|exact I].
  split; [exact I|]. intros [r|e]; exact I.
Qed.

Lemma index_mintNFT_bound to uri : every_call bound (IndexJs.mintNFT to uri).
Proof.
  unfold IndexJs.mintNFT, mbind, prog_bind.
  destruct (toUtf8Bytes uri) as [data|e] eqn:E; simpl; [|exact I].
  split; [exact (bound_hash _ _ E)|].
  intros [tx|e]; simpl; [|exact I].
  split; [exact I|]. intros [r|e]; exact I.
Qed.

Lemma part_mintNFT_bound to uri : every_call bound (Part000.mintNFT to uri).
Proof.
  unfold Part000.mintNFT, mbind, prog_bind.
  destruct (toUtf8Bytes uri) as [data|e] eqn:E; simpl; [|exact I].
  split; [exact (bound_hash _ _ E)|].
  intros [tx|e]; simpl; [|exact I].
  split; [exact I|]. intros [r|e]; simpl; [|exact I].
  apply every_call_bind; [apply every_call_lift | intros; exact I].
Qed.

Local Ltac bound_handler :=
  repeat first
    [ exact I
    | apply every_call_lift
    | apply evolveNFT_bound
    | apply index_mintNFT_bound
    | apply part_mintNFT_bound
    | apply every_call_try_catch; [|intros; exact I]
    | apply every_call_bind; [|intros]
    | progress (unfold mbind, prog_bind, mret, prog_ret,
                uploadImageToPinata, uploadJSONToPinata, getTokenURI, await; simpl)
    | split
    | match goal with
      | |- every_call _ (if ?b then _ else _) => destruct b
      | |- every_call _ (match ?x with _ => _ end) => destruct x
      | |- forall _, _ => intros
      end ].

Lemma index_serve_bound (r : IndexJsApp.Request) : every_call bound (IndexJsApp.serve r).
Proof.
  destruct r; simpl;
    unfold ping, token, IndexJs.mint, IndexJs.evolve; bound_handler.
Qed.

Lemma part_serve_bound (r : Part000App.Request) : every_call bound (Part000App.serve r).
Proof.
  destruct r; simpl;
    unfold ping, token, Part000.mint, Part000.evolve, Part000.upload_image; bound_handler.
Qed.

(* ===================================================================== *)
(** ** Invariants of a world under the calls of the handlers *)
(* ===================================================================== *)

Section WorldInvariant.
Context {S A : Type} (w : World S).
Variable Inv : S -> Prop.
Variable P : ExtCall -> Prop.
Hypothesis answer_keeps : forall st c, Inv st -> P c -> Inv (answer w st c).1.

Lemma run_keeps (p : prog A) (st : S) :
  every_call P p -> Inv st -> Inv (run w p st).1.2.
Proof.
  revert st. induction p as [a|e|c k IH]; simpl; intros st Hp Hst; auto.
  destruct Hp as [Hc Hk].
  pose proof (answer_keeps st c Hst Hc) as H1.
  destruct (answer w st c) as [s1 r].
  specialize (IH r s1 (Hk r) H1).
  destruct (run w (k r) s1) as [[o s2] tr]. exact IH.
Qed.

Lemma step_keeps (p : prog A) (st : S) :
  every_call P p -> Inv st -> Inv (step w p st).1.2.
Proof.
  destruct p as [a|e|c k]; simpl; intros Hp Hst; auto.
  destruct Hp as [Hc _].
  pose proof (answer_keeps st c Hst Hc) as H1.
  destruct (answer w st c) as [s1 r]. exact H1.
Qed.

Lemma schedule_keeps (order : list nat) (pool : list (prog A)) (st : S) :
  Forall (every_call P) pool -> Inv st -> Inv (schedule w order pool st).1.2.
Proof.
  revert pool st. induction order as [|i rest IH]; simpl; intros pool st Hpool Hst; auto.
  destruct (pool !! i) as [p|] eqn:Hi; [|auto].
  assert (Hp : every_call P p) by (eapply Forall_lookup_1; eauto).
  pose proof (step_keeps p st Hp Hst) as H1.
  destruct (step_every_call w P p st Hp) as [Hp1 _].
  destruct (step w p st) as [[p1 s1] tr1]. simpl in *.
  specialize (IH (<[i := p1]> pool) s1).
  destruct (schedule w rest (<[i := p1]> pool) s1) as [[pool2 s2] tr2]. simpl in *.
  apply IH; auto. apply Forall_insert; auto.
Qed.

End WorldInvariant.

Lemma chain_ok_genesis : chain_ok genesis.
Proof. unfold chain_ok, genesis. simpl. apply map_Forall_empty. Qed.

Lemma faithful_keeps_chain_ok (ch : Chain) (c : ExtCall) :
  chain_ok ch -> bound c -> chain_ok (answer faithful ch c).1.
Proof.
  unfold chain_ok, bound. intros Hch Hc.
  destruct c as [b n|d|to uri h|tokenId uri h|tx|tokenId]; simpl in *; auto.
  - destruct uri; simpl; auto.
    apply map_Forall_insert_2; auto.
  - destruct uri; simpl; auto.
    destruct (parse_id tokenId ≫= _) as [[id rec]|]; simpl; auto.
    apply map_Forall_insert_2; auto.
  - destruct (tx_number tx ≫= _); simpl; auto.
  - destruct (parse_id tokenId ≫= _); simpl; auto.
Qed.

Lemma serve_any_bound r : every_call bound (serve_any r).
Proof. destruct r; [apply index_serve_bound | apply part_serve_bound]. Qed.

(** C1: every create and every update carries, next to the reference, the
    HashBinder of that same reference string: this holds of every call
    mintNFT (either file) and evolveNFT can make, for any arguments, and of
    every call made while either server handles any requests, concurrently
    and in whatever order the event loop resumes them; no write pairs a
    reference with another hash.  On the ledger of the spec, which stores
    what it is given, every record's hash is therefore the HashBinder of
    the record's current reference after the requests, as it was before. *)
Theorem ledger_hash_is_HashBinder_of_reference
        (reqs : list (IndexJsApp.Request + Part000App.Request))
        (order : list nat) (ch : Chain) :
  chain_ok ch ->
  (forall to uri tokenId,
      every_call bound (IndexJs.mintNFT to uri)
      /\ every_call bound (Part000.mintNFT to uri)
      /\ every_call bound (evolveNFT tokenId uri))
  /\ Forall (every_call bound) (map serve_any reqs)
  /\ Forall bound (schedule faithful order (map serve_any reqs) ch).2
  /\ chain_ok (schedule faithful order (map serve_any reqs) ch).1.2.
Proof.
  intros Hch.
  assert (Hpool : Forall (every_call bound) (map serve_any reqs)).
  { apply Forall_map, Forall_forall. intros r _. apply serve_any_bound. }
  split.
  { intros to uri tokenId. split; [apply index_mintNFT_bound|].
    split; [apply part_mintNFT_bound | apply evolveNFT_bound]. }
  split; [exact Hpool|]. split.
  - apply schedule_every_call, Hpool.
  - eapply schedule_keeps; eauto. apply faithful_keeps_chain_ok.
Qed.

Lemma ledger_hash_is_HashBinder_of_reference_witness :
  chain_ok genesis
  /\ Forall bound
            (schedule faithful [0; 1; 0; 1; 1; 1; 0]%nat
               (map serve_any [inr (Part000App.PostMint scenarioA);
                               inl (IndexJsApp.PostEvolve (js "1") (Some a_file) [])])
               genesis).2
  /\ chain_ok
       (schedule faithful [0; 1; 0; 1; 1; 1; 0]%nat
          (map serve_any [inr (Part000App.PostMint scenarioA);
                          inl (IndexJsApp.PostEvolve (js "1") (Some a_file) [])])
          genesis).1.2.
Proof.
  split; [exact chain_ok_genesis|].
  exact (proj2 (proj2 (ledger_hash_is_HashBinder_of_reference
                         [inr (Part000App.PostMint scenarioA);
                          inl (IndexJsApp.PostEvolve (js "1") (Some a_file) [])]
                         [0; 1; 0; 1; 1; 1; 0]%nat genesis chain_ok_genesis))).
Defined.

(* ===================================================================== *)
(** ** Running composed programs *)
(* ===================================================================== *)

Section RunLaws.
Context {S : Type} (w : World S).

Lemma run_bind {A B : Type} (p : prog A) (f : A -> prog B) (st : S) :
  run w (bind p f) st
  = let '(o, s1, tr) := run w p st in
    match o with
    | Ok a => let '(o2, s2, tr2) := run w (f a) s1 in (o2, s2, tr ++ tr2)
    | Err e => (Err e, s1, tr)
    end.
Proof.
  revert st. induction p as [a|e|c k IH]; simpl; intros st.
  - destruct (run w (f a) st) as [[o2 s2] tr2]. reflexivity.
  - reflexivity.
  - destruct (answer w st c) as [s1 r]. rewrite IH.
    destruct (run w (k r) s1) as [[o s2] tr]. destruct o as [a|e]; [|reflexivity].
    destruct (run w (f a) s2) as [[o3 s3] tr3]. reflexivity.
Qed.

Lemma run_try_catch {A : Type} (p : prog A) (h : JsError -> prog A) (st : S) :
  run w (try_catch p h) st
  = let '(o, s1, tr) := run w p st in
    match o with
    | Ok a => (Ok a, s1, tr)
    | Err e => let '(o2, s2, tr2) := run w (h e) s1 in (o2, s2, tr ++ tr2)
    end.
Proof.
  revert st. induction p as [a|e|c k IH]; simpl; intros st.
  - reflexivity.
  - destruct (run w (h e) st) as [[o2 s2] tr2]. reflexivity.
  - destruct (answer w st c) as [s1 r]. rewrite IH.
    destruct (run w (k r) s1) as [[o s2] tr]. destruct o as [a|e]; [reflexivity|].
    destruct (run w (h e) s2) as [[o3 s3] tr3]. reflexivity.
Qed.

(** What the ledger functions do when the submission and the wait
    succeed. *)
Lemma index_mintNFT_confirmed st to s h tx receipt st2 :
  HashBinder s = Some h ->
  create_confirms w st to (JString s) h tx receipt st2 ->
  run w (IndexJs.mintNFT to (JString s)) st
  = (Ok (tx_hash tx), st2, [SafeMint to (JString s) h; TxWait tx]).
Proof.
  intros Hh (st1 & H1 & H2). apply HashBinder_Some in Hh as (data & E & ->).
  unfold IndexJs.mintNFT, mbind, prog_bind. rewrite (toUtf8Bytes_string _ _ E).
  simpl. rewrite H1. simpl. rewrite H2. reflexivity.
Qed.

Lemma evolveNFT_confirmed st tokenId s h tx receipt st2 :
  HashBinder s = Some h ->
  update_confirms w st tokenId (JString s) h tx receipt st2 ->
  run w (evolveNFT tokenId (JString s)) st
  = (Ok (tx_hash tx), st2, [CommitEvolution tokenId (JString s) h; TxWait tx]).
Proof.
  intros Hh (st1 & H1 & H2). apply HashBinder_Some in Hh as (data & E & ->).
  unfold evolveNFT, mbind, prog_bind. rewrite (toUtf8Bytes_string _ _ E).
  simpl. rewrite H1. simpl. rewrite H2. reflexivity.
Qed.

Lemma part_mintNFT_confirmed st to s h tx receipt st2 :
  HashBinder s = Some h ->
  create_confirms w st to (JString s) h tx receipt st2 ->
  run w (Part000.mintNFT to (JString s)) st
  = (match Part000.find_transfer (logs receipt) with
     | Some ev =>
       match args_tokenId ev with
       | Some n => Ok (minted tx (bigint_toString n) (JString s))
       | None => Err (mkError (js "invalid BigNumberish value"))
       end
     | None => Ok (minted tx (js "unknown") (JString s))
     end, st2, [SafeMint to (JString s) h; TxWait tx]).
Proof.
  intros Hh (st1 & H1 & H2). apply HashBinder_Some in Hh as (data & E & ->).
  unfold Part000.mintNFT, mbind, prog_bind. rewrite (toUtf8Bytes_string _ _ E).
  simpl. rewrite H1. simpl. rewrite H2. simpl.
  destruct (Part000.find_transfer (logs receipt)) as [ev|]; simpl; [|reflexivity].
  destruct (args_tokenId ev); reflexivity.
Qed.

End RunLaws.

(* ===================================================================== *)
(** ** POST /upload-image without a file *)
(* ===================================================================== *)

(** C10: a POST /upload-image request that carries no file is answered
    with status 400 and an error message, and the handler makes no call at
    all: nothing is sent to the content store (no image upload, no metadata
    upload) and the world is left as it was.  It is the missing file that
    keeps the store untouched: with a file, the first thing the handler
    does is the image upload. *)
Theorem upload_image_without_file_is_400
        {S : Type} (w : World S) (st : S) (req_body : TextFields) :
  run w (Part000App.serve (Part000App.PostUploadImage None req_body)) st
  = (Ok (json 400 (error_body (js "No file uploaded. Field name must be 'file'."))),
     st, [])
  /\ count_calls is_store_call
       (run w (Part000App.serve (Part000App.PostUploadImage None req_body)) st).2 = 0%nat
  /\ forall file, exists rest,
      (run w (Part000App.serve (Part000App.PostUploadImage (Some file) req_body)) st).2
      = PinFileToIPFS (buffer file) (originalname file) :: rest.
Proof.
  split; [reflexivity|]. split; [reflexivity|].
  intros file. simpl.
  unfold Part000.upload_image, uploadImageToPinata, mbind, prog_bind, await. cbv zeta.
  cbn [lift bind try_catch run].
  destruct (answer w st (PinFileToIPFS (buffer file) (originalname file))) as [st1 r].
  match goal with
  | |- context [run w ?p st1] => destruct (run w p st1) as [[o st2] tr]
  end.
  exists tr. reflexivity.
Qed.

(* ===================================================================== *)
(** ** HashBinder is a function of the reference string *)
(* ===================================================================== *)

Lemma anchor_hashes_index_mintNFT {S : Type} (w : World S) st to s :
  anchor_hashes w (IndexJs.mintNFT to (JString s)) st = option_list (HashBinder s).
Proof.
  unfold anchor_hashes, IndexJs.mintNFT, mbind, prog_bind, HashBinder, toUtf8Bytes.
  destruct (Utf8.encode s) as [data|]; simpl; [|reflexivity].
  destruct (answer w st _) as [s1 [tx|e]]; simpl; [|reflexivity].
  destruct (answer w s1 _) as [s2 [r|e]]; reflexivity.
Qed.

Lemma anchor_hashes_part_mintNFT {S : Type} (w : World S) st to s :
  anchor_hashes w (Part000.mintNFT to (JString s)) st = option_list (HashBinder s).
Proof.
  unfold anchor_hashes, Part000.mintNFT, mbind, prog_bind, HashBinder, toUtf8Bytes.
  destruct (Utf8.encode s) as [data|]; simpl; [|reflexivity].
  destruct (answer w st _) as [s1 [tx|e]]; simpl; [|reflexivity].
  destruct (answer w s1 _) as [s2 [r|e]]; simpl; [|reflexivity].
  destruct (Part000.find_transfer (logs r)) as [ev|]; simpl; [|reflexivity].
  destruct (getBigInt (args_tokenId ev)); reflexivity.
Qed.

Lemma anchor_hashes_evolveNFT {S : Type} (w : World S) st tokenId s :
  anchor_hashes w (evolveNFT tokenId (JString s)) st = option_list (HashBinder s).
Proof.
  unfold anchor_hashes, evolveNFT, mbind, prog_bind, HashBinder, toUtf8Bytes.
  destruct (Utf8.encode s) as [data|]; simpl; [|reflexivity].
  destruct (answer w st _) as [s1 [tx|e]]; simpl; [|reflexivity].
  destruct (answer w s1 _) as [s2 [r|e]]; reflexivity.
Qed.

(* ===================================================================== *)
(** ** POST /mint *)
(* ===================================================================== *)

Lemma index_mint_valid req_body to uri :
  mint_fields req_body to uri ->
  IndexJs.mint req_body
  = try_catch
      (txHash ← IndexJs.mintNFT to uri;
       mret (json 200 (JObject [(js "success", JBool true);
                                (js "txHash", JString txHash);
                                (js "metadataUri", uri)])))
      (fun err => mret (json 500 (error_body (message err)))).
Proof.
  intros (Hto & Huri & Tto & Turi). unfold IndexJs.mint, mbind, prog_bind.
  rewrite Hto. simpl. rewrite Huri. simpl. rewrite Tto, Turi. reflexivity.
Qed.

Lemma part_mint_valid req_body to uri :
  mint_fields req_body to uri ->
  Part000.mint req_body
  = try_catch
      (result ← Part000.mintNFT to uri; mret (json 200 result))
      (fun err => mret (json 500 (error_body (message err)))).
Proof.
  intros (Hto & Huri & Tto & Turi). unfold Part000.mint, mbind, prog_bind.
  rewrite Hto. simpl. rewrite Huri. simpl. rewrite Tto, Turi. reflexivity.
Qed.

Lemma scenarioA_fields :
  mint_fields scenarioA (JString (js "0xABC")) (JString (js "ipfs://Qm123")).
Proof. repeat split. Qed.

Section Mint.
Context {S : Type} (w : World S).
Variables (st st2 : S) (req_body to : JsValue) (s h : jsstring).
Variables (tx : Tx) (receipt : Receipt).
Hypothesis fields_ok : mint_fields req_body to (JString s).
Hypothesis hash_ok : HashBinder s = Some h.
Hypothesis confirmed : create_confirms w st to (JString s) h tx receipt st2.

Lemma index_mint_confirmed :
  run w (IndexJs.mint req_body) st
  = (Ok (json 200 (JObject [(js "success", JBool true);
                            (js "txHash", JString (tx_hash tx));
                            (js "metadataUri", JString s)])),
     st2, [SafeMint to (JString s) h; TxWait tx]).
Proof.
  rewrite (index_mint_valid _ _ _ fields_ok), run_try_catch.
  unfold mbind, prog_bind. rewrite run_bind.
  rewrite (index_mintNFT_confirmed w _ _ _ _ _ _ _ hash_ok confirmed).
  reflexivity.
Qed.

Lemma part_mint_confirmed :
  run w (Part000.mint req_body) st
  = (Ok match Part000.find_transfer (logs receipt) with
        | Some ev =>
          match args_tokenId ev with
          | Some n => json 200 (minted tx (bigint_toString n) (JString s))
          | None => json 500 (error_body (js "invalid BigNumberish value"))
          end
        | None => json 200 (minted tx (js "unknown") (JString s))
        end,
     st2, [SafeMint to (JString s) h; TxWait tx]).
Proof.
  rewrite (part_mint_valid _ _ _ fields_ok), run_try_catch.
  unfold mbind, prog_bind. rewrite run_bind.
  rewrite (part_mintNFT_confirmed w _ _ _ _ _ _ _ hash_ok confirmed).
  destruct (Part000.find_transfer (logs receipt)) as [ev|]; [|reflexivity].
  destruct (args_tokenId ev); reflexivity.
Qed.

End Mint.

Lemma HashBinder_A : HashBinder (js "ipfs://Qm123") = Some hashA.
Proof. vm_compute. reflexivity. Qed.

Lemma scenarioA_confirms :
  create_confirms faithful genesis (JString (js "0xABC")) (JString (js "ipfs://Qm123"))
                  hashA (tx_of 0)
                  (mkReceipt [mkLog (Some (js "Transfer")) (Some 1%N)]) after_mintA.
Proof.
  eexists. split; [reflexivity|]. vm_compute. reflexivity.
Qed.

(** C3, as the code has it: for a POST /mint that has passed
    [express.json()], whose [to] and [metadataUri] are truthy, [metadataUri]
    being a string with a UTF-8 encoding, and whose submission and
    confirmation succeed.  index.js answers 200 with {success:true, txHash,
    metadataUri}, without any tokenId.  part_000 looks for the first
    Transfer event of the receipt: when there is none it answers 200 with
    tokenId "unknown"; when the event carries a [tokenId] argument it
    answers 200 with {success:true, txHash, tokenId, metadataUri}, tokenId
    being that argument in decimal; when the event carries no such
    argument, [getBigInt] throws and the answer is 500 with {error},
    although the create is confirmed on the ledger. *)
Theorem mint_success_response
        {S : Type} (w : World S) (st st2 : S) (req_body to : JsValue) (s h : jsstring)
        (tx : Tx) (receipt : Receipt) :
  mint_fields req_body to (JString s) ->
  HashBinder s = Some h ->
  create_confirms w st to (JString s) h tx receipt st2 ->
  run w (Part000App.app (Passed (Part000App.PostMint req_body))) st
  = (Ok match Part000.find_transfer (logs receipt) with
        | Some ev =>
          match args_tokenId ev with
          | Some n => json 200 (minted tx (bigint_toString n) (JString s))
          | None => json 500 (error_body (js "invalid BigNumberish value"))
          end
        | None => json 200 (minted tx (js "unknown") (JString s))
        end,
     st2, [SafeMint to (JString s) h; TxWait tx])
  /\ run w (IndexJsApp.app (Passed (IndexJsApp.PostMint req_body))) st
     = (Ok (json 200 (JObject [(js "success", JBool true);
                               (js "txHash", JString (tx_hash tx));
                               (js "metadataUri", JString s)])),
        st2, [SafeMint to (JString s) h; TxWait tx]).
Proof.
  intros Hf Hh Hc. cbn [Part000App.app Part000App.serve IndexJsApp.app IndexJsApp.serve].
  split.
  - eapply part_mint_confirmed; eassumption.
  - eapply index_mint_confirmed; eassumption.
Qed.

Lemma nameless_confirms :
  create_confirms nameless_ledger tt (JString (js "0xABC")) (JString (js "ipfs://Qm123"))
                  hashA (mkTx (js "0xfeed")) nameless_receipt tt.
Proof. exists tt. split; reflexivity. Qed.

Lemma mint_success_response_witness :
  mint_fields scenarioA (JString (js "0xABC")) (JString (js "ipfs://Qm123"))
  /\ HashBinder (js "ipfs://Qm123") = Some hashA
  /\ run faithful (Part000App.app (Passed (Part000App.PostMint scenarioA))) genesis
     = (Ok (json 200 (minted (tx_of 0) (js "1") (JString (js "ipfs://Qm123")))),
        after_mintA,
        [SafeMint (JString (js "0xABC")) (JString (js "ipfs://Qm123")) hashA;
         TxWait (tx_of 0)])
  /\ run nameless_ledger (Part000App.app (Passed (Part000App.PostMint scenarioA))) tt
     = (Ok (json 500 (error_body (js "invalid BigNumberish value"))), tt,
        [SafeMint (JString (js "0xABC")) (JString (js "ipfs://Qm123")) hashA;
         TxWait (mkTx (js "0xfeed"))]).
Proof.
  split; [exact scenarioA_fields|]. split; [exact HashBinder_A|]. split.
  - exact (proj1 (mint_success_response faithful genesis after_mintA scenarioA _ _ _ _ _
                    scenarioA_fields HashBinder_A scenarioA_confirms)).
  - exact (proj1 (mint_success_response nameless_ledger tt tt scenarioA _ _ _ _ _
                    scenarioA_fields HashBinder_A nameless_confirms)).
Defined.

(** C3 fails as stated: index.js answers the confirmed mint of scenario A
    without any tokenId although the ledger assigned identifier 1, and
    part_000 answers "unknown" when the receipt carries no Transfer
    event. *)
Lemma mint_response_lacks_assigned_id :
  (exists fields,
      (run faithful (IndexJsApp.serve (IndexJsApp.PostMint scenarioA)) genesis).1.1
      = Ok (json 200 (JObject fields))
      /\ lookup_field (js "success") fields = JBool true
      /\ lookup_field (js "tokenId") fields = JUndefined)
  /\ is_Some (records (run faithful (IndexJsApp.serve (IndexJsApp.PostMint scenarioA))
                           genesis).1.2 !! 1%N)
  /\ (run silent_ledger (Part000App.serve (Part000App.PostMint scenarioA)) tt).1.1
     = Ok (json 200 (minted (mkTx (js "0xfeed")) (js "unknown")
                            (JString (js "ipfs://Qm123")))).
Proof.
  split; [|split].
  - eexists. split; [vm_compute; reflexivity|]. split; reflexivity.
  - vm_compute. eauto.
  - vm_compute. reflexivity.
Qed.

(* ===================================================================== *)
(** ** A confirmed create without a Transfer event *)
(* ===================================================================== *)

(** C5, as the code has it: when a create confirms and the receipt's log
    list holds no entry whose event fragment is named "Transfer", part_000's
    mint does not fail: it answers 200 with success:true and the
    placeholder "unknown" as tokenId; there is no ParseError. *)
Theorem mint_without_transfer_event_answers_unknown
        {S : Type} (w : World S) (st st2 : S) (req_body to : JsValue) (s h : jsstring)
        (tx : Tx) (receipt : Receipt) :
  mint_fields req_body to (JString s) ->
  HashBinder s = Some h ->
  create_confirms w st to (JString s) h tx receipt st2 ->
  Forall (fun log => fragment log <> Some (js "Transfer")) (logs receipt) ->
  run w (Part000.mint req_body) st
  = (Ok (json 200 (JObject [(js "success", JBool true);
                            (js "txHash", JString (tx_hash tx));
                            (js "tokenId", JString (js "unknown"));
                            (js "metadataUri", JString s)])),
     st2, [SafeMint to (JString s) h; TxWait tx]).
Proof.
  intros Hf Hh Hc Hlogs.
  rewrite (part_mint_confirmed w _ _ _ _ _ _ _ _ Hf Hh Hc).
  assert (Hnone : Part000.find_transfer (logs receipt) = None).
  { unfold Part000.find_transfer.
    induction Hlogs as [|log ls Hlog _ IH]; [reflexivity|].
    simpl. rewrite bool_decide_eq_false_2 by exact Hlog. exact IH. }
  rewrite Hnone. reflexivity.
Qed.

Lemma silent_confirms :
  create_confirms silent_ledger tt (JString (js "0xABC")) (JString (js "ipfs://Qm123"))
                  hashA (mkTx (js "0xfeed")) (mkReceipt []) tt.
Proof. exists tt. split; reflexivity. Qed.

Lemma mint_without_transfer_event_answers_unknown_witness :
  mint_fields scenarioA (JString (js "0xABC")) (JString (js "ipfs://Qm123"))
  /\ HashBinder (js "ipfs://Qm123") = Some hashA
  /\ Forall (fun log => fragment log <> Some (js "Transfer")) (logs (mkReceipt []))
  /\ run silent_ledger (Part000.mint scenarioA) tt
     = (Ok (json 200 (JObject [(js "success", JBool true);
                               (js "txHash", JString (js "0xfeed"));
                               (js "tokenId", JString (js "unknown"));
                               (js "metadataUri", JString (js "ipfs://Qm123"))])),
        tt,
        [SafeMint (JString (js "0xABC")) (JString (js "ipfs://Qm123")) hashA;
         TxWait (mkTx (js "0xfeed"))]).
Proof.
  split; [exact scenarioA_fields|]. split; [exact HashBinder_A|].
  split; [constructor|].
  exact (mint_without_transfer_event_answers_unknown
           silent_ledger tt tt scenarioA _ _ _ _ _
           scenarioA_fields HashBinder_A silent_confirms (List.Forall_nil _)).
Defined.

(** C5 fails as stated: the create of scenario A confirms with a receipt
    whose log list is empty, and the operation succeeds with the
    placeholder instead of failing. *)
Lemma mint_without_event_succeeds :
  logs (mkReceipt []) = []
  /\ exists resp,
      (run silent_ledger (Part000App.serve (Part000App.PostMint scenarioA)) tt).1.1
      = Ok resp
      /\ status resp = 200
      /\ body resp = Some (minted (mkTx (js "0xfeed")) (js "unknown")
                                  (JString (js "ipfs://Qm123"))).
Proof.
  split; [reflexivity|]. eexists. split; [vm_compute; reflexivity|].
  split; reflexivity.
Qed.

(* ===================================================================== *)
(** ** After the receipt *)
(* ===================================================================== *)

(** C2, as the code has it: neither mintNFT nor evolveNFT looks at the
    ledger again once the receipt has arrived.  In any world, whatever it
    recorded, an operation whose submission and wait() succeed makes these
    two calls and no other, compares no hash and returns its success result
    (part_000's mintNFT provided the tokenId of a Transfer event, if there
    is one, can be read); there is no HashMismatch outcome. *)
Theorem no_hash_check_after_receipt
        {S : Type} (w : World S) (st st2 : S) (to : JsValue) (tokenId s h : jsstring)
        (tx : Tx) (receipt : Receipt) :
  HashBinder s = Some h ->
  (create_confirms w st to (JString s) h tx receipt st2 ->
   run w (IndexJs.mintNFT to (JString s)) st
   = (Ok (tx_hash tx), st2, [SafeMint to (JString s) h; TxWait tx])
   /\ (run w (Part000.mintNFT to (JString s)) st).1.2 = st2
   /\ (run w (Part000.mintNFT to (JString s)) st).2
      = [SafeMint to (JString s) h; TxWait tx]
   /\ ((forall ev, Part000.find_transfer (logs receipt) = Some ev ->
                   is_Some (args_tokenId ev)) ->
       exists id, (run w (Part000.mintNFT to (JString s)) st).1.1
                  = Ok (minted tx id (JString s))))
  /\ (update_confirms w st tokenId (JString s) h tx receipt st2 ->
      run w (evolveNFT tokenId (JString s)) st
      = (Ok (tx_hash tx), st2, [CommitEvolution tokenId (JString s) h; TxWait tx])).
Proof.
  intros Hh. split.
  - intros Hc. split; [apply (index_mintNFT_confirmed w _ _ _ _ _ _ _ Hh Hc)|].
    rewrite (part_mintNFT_confirmed w _ _ _ _ _ _ _ Hh Hc). simpl.
    split; [reflexivity|]. split; [reflexivity|].
    intros Hev. destruct (Part000.find_transfer (logs receipt)) as [ev|]; [|eauto].
    destruct (Hev ev eq_refl) as [n Hn]. rewrite Hn. eauto.
  - intros Hc. apply (evolveNFT_confirmed w _ _ _ _ _ _ _ Hh Hc).
Qed.

Lemma faulty_confirms :
  create_confirms faulty genesis (JString (js "0xABC")) (JString (js "ipfs://Qm123"))
                  hashA (tx_of 0)
                  (mkReceipt [mkLog (Some (js "Transfer")) (Some 1%N)]) after_faulty_mintA.
Proof. eexists. split; [reflexivity|]. vm_compute. reflexivity. Qed.

Lemma no_hash_check_after_receipt_witness :
  HashBinder (js "ipfs://Qm123") = Some hashA
  /\ run faulty (IndexJs.mintNFT (JString (js "0xABC")) (JString (js "ipfs://Qm123"))) genesis
     = (Ok (tx_hash (tx_of 0)), after_faulty_mintA,
        [SafeMint (JString (js "0xABC")) (JString (js "ipfs://Qm123")) hashA;
         TxWait (tx_of 0)]).
Proof.
  split; [exact HashBinder_A|].
  exact (proj1 (proj1 (no_hash_check_after_receipt
                         faulty genesis after_faulty_mintA (JString (js "0xABC")) (js "1")
                         (js "ipfs://Qm123") hashA (tx_of 0) _ HashBinder_A)
                      faulty_confirms)).
Defined.

(** C2 fails as stated: behind an adapter that records the zero hash, the
    mint of scenario A is confirmed, the hash on the ledger differs from the
    hash computed locally, and the caller is told success; the same holds
    for the update of scenario B. *)
Lemma hash_mismatch_reported_as_success :
  (run faulty (Part000App.serve (Part000App.PostMint scenarioA)) genesis).1.1
  = Ok (json 200 (minted (tx_of 0) (js "1") (JString (js "ipfs://Qm123"))))
  /\ commitment <$> records after_faulty_mintA !! 1%N = Some zero_hash
  /\ HashBinder (js "ipfs://Qm123") <> Some zero_hash
  /\ (exists txh,
       (run faulty (Part000App.serve (Part000App.PostEvolve (js "1") scenarioB))
            after_faulty_mintA).1.1
       = Ok (json 200 (JObject [(js "success", JBool true);
                                (js "txHash", JString txh);
                                (js "tokenId", JString (js "1"));
                                (js "metadataUri", JString (js "ipfs://Qm999"))])))
  /\ commitment <$>
       records (run faulty (Part000App.serve (Part000App.PostEvolve (js "1") scenarioB))
                    after_faulty_mintA).1.2 !! 1%N
     = Some zero_hash
  /\ HashBinder (js "ipfs://Qm999") <> Some zero_hash.
Proof.
  split; [vm_compute; reflexivity|].
  split; [vm_compute; reflexivity|].
  split; [vm_compute; discriminate|].
  split; [eexists; vm_compute; reflexivity|].
  split; [vm_compute; reflexivity | vm_compute; discriminate].
Qed.

(* ===================================================================== *)
(** ** What the handlers answer *)
(* ===================================================================== *)

Lemma outcomes_any {A : Type} (p : prog A) : outcomes (fun _ => True) (fun _ => True) p.
Proof. induction p; simpl; auto. Qed.

Lemma every_return_after {A : Type} (Q : A -> Prop) (p : prog A) :
  every_return Q p -> after_first_call Q p.
Proof. destruct p; simpl; auto. Qed.

(** A handler is [try { ... } catch (err) { res.status(500)... }]: it
    returns what the block returns, or the 500 of the catch clause. *)
Lemma handler_returns (Q : Response -> Prop) (p : prog Response) (h : JsError -> Response) :
  outcomes Q (fun _ => True) p -> (forall e, Q (h e)) ->
  every_return Q (try_catch p (fun err => mret (h err))).
Proof.
  intros Hp Hh. apply outcomes_try_catch with (E1 := fun _ => True); [exact Hp|].
  intros e _. apply Hh.
Qed.

Local Ltac answer_shape :=
  unfold failure_400, failure_500, carries_error, evolved_upload, error_body,
         failure_body, json;
  simpl; repeat split; intros; try discriminate; eauto 10.

Local Ltac block_returns :=
  repeat first
    [ progress (unfold mbind, prog_bind, mret, prog_ret)
    | apply outcomes_bind with (Q1 := fun _ => True); [apply outcomes_any | intros ? _]
    | match goal with
      | |- outcomes _ _ (if ?b then _ else _) => destruct b
      | |- outcomes _ _ (match ?x with _ => _ end) => destruct x
      | |- outcomes _ _ (Ret _) => simpl; answer_shape
      end ].

Local Ltac handler_shape :=
  apply handler_returns; [block_returns | intros; answer_shape].

(** The answers of GET /token. *)
Lemma token_returns tokenId :
  every_return (fun r => status r = 200 \/ failure_500 r) (token tokenId).
Proof. unfold token. handler_shape. Qed.

Lemma index_mint_returns req_body :
  every_return (fun r => status r = 200 \/ failure_400 r
                         \/ (status r = 500 /\ carries_error r))
               (IndexJs.mint req_body).
Proof. unfold IndexJs.mint. handler_shape. Qed.

Lemma part_mint_returns req_body :
  every_return (fun r => status r = 200 \/ failure_400 r
                         \/ (status r = 500 /\ carries_error r))
               (Part000.mint req_body).
Proof. unfold Part000.mint. handler_shape. Qed.

Lemma part_evolve_returns tokenId req_body :
  every_return (fun r => status r = 200 \/ failure_400 r \/ failure_500 r)
               (Part000.evolve tokenId req_body).
Proof. unfold Part000.evolve. handler_shape. Qed.

Lemma upload_image_returns req_file req_body :
  every_return (fun r => status r = 200 \/ failure_400 r \/ failure_500 r)
               (Part000.upload_image req_file req_body).
Proof. unfold Part000.upload_image. handler_shape. Qed.



Lemma index_refused {S : Type} (w : World S) (st : S) (err : HttpError) :
  run w (IndexJsApp.app (Refused err)) st = (Ok (default_error_handler err), st, []).
Proof. reflexivity. Qed.

Lemma part_refused {S : Type} (w : World S) (st : S) (err : HttpError) :
  run w (Part000App.app (Refused err)) st
  = (Ok (json 400 (error_body (message (cause err)))), st, []).
Proof. reflexivity. Qed.

(** A handler run call by call: every answer of the world is taken
    apart, down to the response. *)
Local Ltac run_handler :=
  repeat first
    [ progress cbn [run rejections try_catch bind lift await mbind prog_bind mret prog_ret
                    serve_any IndexJsApp.serve Part000App.serve fst snd negb orb andb]
    | match goal with
      | |- context [destructure ?k ?b] => destruct (destructure k b) eqn:?
      | |- context [truthy ?v] => destruct (truthy v) eqn:?
      | |- context [toUtf8Bytes ?v] => destruct (toUtf8Bytes v) eqn:?
      | |- context [parse_attributes ?a ?d] => destruct (parse_attributes a d) eqn:?
      | |- context [file_of _] => progress cbn [file_of]
      | |- context [Part000.find_transfer ?l] => destruct (Part000.find_transfer l) eqn:?
      | |- context [getBigInt ?v] => destruct (getBigInt v) eqn:?
      | |- context [answer ?w ?s ?c] => destruct (answer w s c) as [? [?|?]] eqn:?
      end ].

Local Ltac close_case :=
  eexists _, _, _; split; [reflexivity|];
  cbn [status json sendStatus body_500 is_mint negb orb andb];
  repeat split; intros;
  try discriminate; try lia; try reflexivity;
  try match goal with
      | H : _ :: _ = _ :: _ |- _ => injection H as <- <- <-
      end;
  repeat split;
  try solve [ exists []; reflexivity | eexists [_]; reflexivity
            | eexists [_; _]; reflexivity | eexists [_; _; _]; reflexivity ];
  eauto.

Lemma handler_answers {S : Type} (w : World S) (st : S)
      (req : IndexJsApp.Request + Part000App.Request) :
  exists resp st' tr,
    run w (serve_any req) st = (Ok resp, st', tr)
    /\ (status resp = 200 \/ status resp = 400 \/ status resp = 500)
    /\ (status resp = 400 <-> fails_check req = true)
    /\ (status resp = 400 -> tr = [] /\ exists msg, resp = json 400 (error_body msg))
    /\ (status resp = 500 -> exists msg, resp = json 500 (body_500 req msg))
    /\ (forall c e es, rejections w (serve_any req) st = (c, e) :: es ->
                       es = [] /\ (exists pre, tr = pre ++ [c])
                       /\ resp = json 500 (body_500 req (message e))).
Proof.
  destruct req as [[|b|t f b|t]|[|b|t b|f b|t]]; try destruct f as [file|];
    cbn [serve_any IndexJsApp.serve Part000App.serve];
    unfold fails_check, ping, token, IndexJs.mint, IndexJs.evolve, Part000.mint,
           Part000.evolve, Part000.upload_image, IndexJs.mintNFT, Part000.mintNFT,
           evolveNFT, getTokenURI, uploadImageToPinata, uploadJSONToPinata.
  all: run_handler.
  all: close_case.
Qed.

Lemma app_any_arrived (req : IndexJsApp.Request + Part000App.Request) :
  app_any (arrived req) = serve_any req.
Proof. destruct req; reflexivity. Qed.




(* ===================================================================== *)
(** ** POST /evolve/:tokenId *)
(* ===================================================================== *)


Lemma part_evolve_confirmed {S : Type} (w : World S) st st2 tokenId req_body s h tx receipt :
  destructure (js "metadataUri") req_body = Ok (JString s) ->
  truthy (JString s) = true ->
  HashBinder s = Some h ->
  update_confirms w st tokenId (JString s) h tx receipt st2 ->
  run w (Part000.evolve tokenId req_body) st
  = (Ok (json 200 (JObject [(js "success", JBool true);
                            (js "txHash", JString (tx_hash tx));
                            (js "tokenId", JString tokenId);
                            (js "metadataUri", JString s)])),
     st2, [CommitEvolution tokenId (JString s) h; TxWait tx]).
Proof.
  intros Hd Ht Hh Hc. unfold Part000.evolve, mbind, prog_bind. rewrite Hd. simpl.
  rewrite Ht. simpl. rewrite run_try_catch, run_bind.
  rewrite (evolveNFT_confirmed w _ _ _ _ _ _ _ Hh Hc). reflexivity.
Qed.

Lemma HashBinder_B : HashBinder (js "ipfs://Qm999") = Some hashB.
Proof. vm_compute. reflexivity. Qed.







(* ===================================================================== *)
(** ** Validation, parsing and uploads: what comes first *)
(* ===================================================================== *)

Local Ltac not_400 :=
  apply handler_returns; [block_returns | intros; simpl; discriminate].

Local Ltac head_reduce :=
  cbn [try_catch bind lift after_first_call every_return outcomes await].

Lemma serve_400_before_any_call (req : IndexJsApp.Request + Part000App.Request) :
  after_first_call (fun r => status r <> 400) (serve_any req).
Proof.
  destruct req as [[|b|t f b|t]|[|b|t b|f b|t]]; simpl;
    unfold ping, token, IndexJs.mint, IndexJs.evolve, Part000.mint, Part000.evolve,
           Part000.upload_image, getTokenURI, uploadImageToPinata,
           mbind, prog_bind, mret, prog_ret; try exact I.
  - destruct (destructure (js "to") b); head_reduce; [|exact I].
    destruct (destructure (js "metadataUri") b); head_reduce; [|exact I].
    destruct (negb (truthy a) || negb (truthy a0)); head_reduce; [exact I|].
    apply every_return_after. not_400.
  - cbv zeta. destruct f as [file|]; head_reduce; [|exact I].
    intros r. not_400.
  - head_reduce. intros r. not_400.
  - destruct (destructure (js "to") b); head_reduce; [|exact I].
    destruct (destructure (js "metadataUri") b); head_reduce; [|exact I].
    destruct (negb (truthy a) || negb (truthy a0)); head_reduce; [exact I|].
    apply every_return_after. not_400.
  - destruct (destructure (js "metadataUri") b); head_reduce; [|exact I].
    destruct (negb (truthy a)); head_reduce; [exact I|].
    apply every_return_after. not_400.
  - cbv zeta. destruct f as [file|]; head_reduce; [|exact I].
    intros r. not_400.
  - head_reduce. intros r. not_400.
Qed.

Lemma index_evolve_bad_attributes {S : Type} (w : World S) st st1 tokenId file req_body
      attrs e imageCid :
  text_field (js "attributes") req_body = Some attrs -> attrs <> [] ->
  Json.parse attrs = Err e ->
  answer w st (PinFileToIPFS (buffer file) (originalname file)) = (st1, Ok imageCid) ->
  run w (IndexJs.evolve tokenId (Some file) req_body) st
  = (Ok (json 500 (failure_body (message e))), st1,
     [PinFileToIPFS (buffer file) (originalname file)]).
Proof.
  intros Hf Hne Hp Hpin.
  unfold IndexJs.evolve, uploadImageToPinata, mbind, prog_bind, await. cbv zeta.
  cbn [file_of lift bind try_catch run]. rewrite Hpin. cbn [lift bind try_catch].
  rewrite Hf. unfold parse_attributes. destruct attrs as [|c cs]; [contradiction|].
  rewrite Hp. reflexivity.
Qed.

Lemma upload_image_bad_attributes {S : Type} (w : World S) st st1 file req_body
      attrs e imageCid :
  text_field (js "attributes") req_body = Some attrs -> attrs <> [] ->
  Json.parse attrs = Err e ->
  answer w st (PinFileToIPFS (buffer file) (originalname file)) = (st1, Ok imageCid) ->
  run w (Part000.upload_image (Some file) req_body) st
  = (Ok (json 500 (failure_body (message e))), st1,
     [PinFileToIPFS (buffer file) (originalname file)]).
Proof.
  intros Hf Hne Hp Hpin.
  unfold Part000.upload_image, uploadImageToPinata, mbind, prog_bind, await. cbv zeta.
  cbn [lift bind try_catch run]. rewrite Hpin. cbn [lift bind try_catch].
  rewrite Hf. unfold parse_attributes. destruct attrs as [|c cs]; [contradiction|].
  rewrite Hp. reflexivity.
Qed.

(** C9, as the code has it.  The checks for required fields come before
    any outside work: a request answered with 400 has made no call and left
    the world as it was.  The [attributes] field of a multipart request is
    parsed later, after the image upload: when the request carries a file
    and a non-empty [attributes] text that is not valid JSON, the image is
    uploaded first, then the parse fails and the answer is 500 with
    {success:false, error}; the image upload is the only call made (no
    metadata upload, no ledger call).  This holds for /upload-image of
    part_000 and for /evolve/:tokenId of index.js. *)
Theorem required_fields_first_attributes_after_upload
        {S : Type} (w : World S) (st : S) :
  (forall req resp,
      (run w (serve_any req) st).1.1 = Ok resp -> status resp = 400 ->
      (run w (serve_any req) st).2 = [] /\ (run w (serve_any req) st).1.2 = st)
  /\ (forall file req_body attrs e imageCid st1 tokenId,
         text_field (js "attributes") req_body = Some attrs -> attrs <> [] ->
         Json.parse attrs = Err e ->
         answer w st (PinFileToIPFS (buffer file) (originalname file)) = (st1, Ok imageCid) ->
         run w (Part000App.serve (Part000App.PostUploadImage (Some file) req_body)) st
         = (Ok (json 500 (failure_body (message e))), st1,
            [PinFileToIPFS (buffer file) (originalname file)])
         /\ run w (IndexJsApp.serve (IndexJsApp.PostEvolve tokenId (Some file) req_body)) st
            = (Ok (json 500 (failure_body (message e))), st1,
               [PinFileToIPFS (buffer file) (originalname file)])).
Proof.
  split.
  - intros req resp Hrun H400.
    destruct (run_after_first_call w _ _ st (serve_400_before_any_call req))
      as [H|(a & Ha & Hne)]; [exact H|].
    rewrite Hrun in Ha. injection Ha as <-. contradiction.
  - intros file req_body attrs e imageCid st1 tokenId Hf Hne Hp Hpin. split.
    + eapply upload_image_bad_attributes; eassumption.
    + eapply index_evolve_bad_attributes; eassumption.
Qed.

Lemma required_fields_first_attributes_after_upload_witness :
  text_field (js "attributes") bad_attributes = Some (js "{")
  /\ js "{" <> []
  /\ Json.parse (js "{") = Err (mkError (js "Unexpected token in JSON"))
  /\ answer faithful genesis (PinFileToIPFS (buffer a_file) (originalname a_file))
     = (after_one_pin, Ok (js "Qm0"))
  /\ run faithful (Part000App.serve (Part000App.PostUploadImage (Some a_file) bad_attributes))
         genesis
     = (Ok (json 500 (failure_body (js "Unexpected token in JSON"))), after_one_pin,
        [PinFileToIPFS (buffer a_file) (originalname a_file)]).
Proof.
  assert (Hne : js "{" <> []) by discriminate.
  split; [reflexivity|]. split; [exact Hne|]. split; [reflexivity|].
  split; [reflexivity|].
  exact (proj1 (proj2 (required_fields_first_attributes_after_upload faithful genesis)
                      a_file bad_attributes (js "{") _ (js "Qm0") after_one_pin (js "1")
                      eq_refl Hne eq_refl eq_refl)).
Defined.

(** C9 fails as stated: a multipart POST /upload-image whose [attributes]
    field is the text "{" fails on parsing only after the image has been
    uploaded to the store. *)
Lemma invalid_attributes_fail_after_image_upload :
  Json.parse (js "{") = Err (mkError (js "Unexpected token in JSON"))
  /\ run faithful (Part000App.serve (Part000App.PostUploadImage (Some a_file) bad_attributes))
         genesis
     = (Ok (json 500 (failure_body (js "Unexpected token in JSON"))), after_one_pin,
        [PinFileToIPFS (buffer a_file) (originalname a_file)])
  /\ pins genesis = 0%N /\ pins after_one_pin = 1%N
  /\ count_calls is_store_call [PinFileToIPFS (buffer a_file) (originalname a_file)] = 1%nat.
Proof.
  split; [reflexivity|]. split; [reflexivity|]. repeat split.
Qed.

(* ===================================================================== *)
(** ** Identical creates served concurrently *)
(* ===================================================================== *)

Lemma count_calls_app f tr1 tr2 :
  count_calls f (tr1 ++ tr2) = (count_calls f tr1 + count_calls f tr2)%nat.
Proof. unfold count_calls. rewrite List.filter_app, length_app. reflexivity. Qed.

Lemma sum_list_insert (ns : list nat) (i n m : nat) :
  ns !! i = Some n -> (sum_list (<[i := m]> ns) + n = sum_list ns + m)%nat.
Proof.
  revert i. induction ns as [|x ns IH]; intros [|i] H; simpl in *; try discriminate.
  - injection H as ->. lia.
  - specialize (IH i H). lia.
Qed.

Section Pool.
Context {S A : Type} (w : World S) (f : ExtCall -> bool).

(** Every task of the pool makes its own calls: what has been called so
    far and what each task still has to call add up to the same total,
    however the tasks are interleaved. *)
Lemma schedule_calls_exactly (order : list nat) (pool : list (prog A)) (ns : list nat)
      (st : S) :
  Forall2 (calls_exactly f) ns pool ->
  exists ns',
    Forall2 (calls_exactly f) ns' (schedule w order pool st).1.1
    /\ (count_calls f (schedule w order pool st).2 + sum_list ns' = sum_list ns)%nat.
Proof.
  revert pool ns st. induction order as [|i rest IH]; simpl; intros pool ns st Hpool.
  - exists ns. split; [exact Hpool | reflexivity].
  - destruct (pool !! i) as [p|] eqn:Hi; [|apply IH, Hpool].
    destruct (Forall2_lookup_r _ _ _ _ _ Hpool Hi) as (n & Hn & Hp).
    destruct (step_calls_exactly w f n p st Hp) as (m & Hm & Hcount).
    destruct (step w p st) as [[p1 s1] tr1]. simpl in *.
    destruct (IH (<[i := p1]> pool) (<[i := m]> ns) s1) as (ns' & Hns' & Hsum).
    { apply Forall2_insert; assumption. }
    destruct (schedule w rest (<[i := p1]> pool) s1) as [[pool2 s2] tr2]. simpl in *.
    exists ns'. split; [exact Hns'|].
    rewrite count_calls_app. pose proof (sum_list_insert ns i n m Hn). lia.
Qed.

Lemma finished_pool_calls_nothing (pool : list (prog A)) (ns : list nat) :
  Forall2 (calls_exactly f) ns pool ->
  Forall (fun p => finished p = true) pool -> sum_list ns = 0%nat.
Proof.
  induction 1 as [|n p ns pool Hp _ IH]; intros Hfin; [reflexivity|].
  inversion Hfin as [|? ? Hp_fin Hrest]; subst. simpl.
  rewrite (calls_exactly_finished f n p Hp Hp_fin), (IH Hrest). reflexivity.
Qed.

End Pool.

Lemma index_mintNFT_submits_once to s h :
  HashBinder s = Some h ->
  calls_exactly is_create 1
    (try_catch
       (txHash ← IndexJs.mintNFT to (JString s);
        mret (json 200 (JObject [(js "success", JBool true);
                                 (js "txHash", JString txHash);
                                 (js "metadataUri", JString s)])))
       (fun err => mret (json 500 (error_body (message err)))))
  /\ every_call (fun c => is_create c = true -> c = SafeMint to (JString s) h)
       (IndexJs.mintNFT to (JString s)).
Proof.
  intros Hh. apply HashBinder_Some in Hh as (data & E & ->).
  unfold IndexJs.mintNFT, mbind, prog_bind, await. rewrite (toUtf8Bytes_string _ _ E).
  cbn [lift bind try_catch every_call]. split.
  - apply (ce_await is_create (SafeMint _ _ _) _ 0). intros [tx|e]; [|constructor].
    cbn [lift bind try_catch].
    apply (ce_await is_create (TxWait tx) _ 0). intros [r|e]; constructor.
  - split; [reflexivity|]. intros [tx|e]; cbn [lift bind every_call]; [|exact I].
    split; [discriminate|]. intros [r|e]; exact I.
Qed.

Lemma part_mintNFT_submits_once to s h :
  HashBinder s = Some h ->
  calls_exactly is_create 1
    (try_catch
       (result ← Part000.mintNFT to (JString s); mret (json 200 result))
       (fun err => mret (json 500 (error_body (message err)))))
  /\ every_call (fun c => is_create c = true -> c = SafeMint to (JString s) h)
       (Part000.mintNFT to (JString s)).
Proof.
  intros Hh. apply HashBinder_Some in Hh as (data & E & ->).
  unfold Part000.mintNFT, mbind, prog_bind, await. rewrite (toUtf8Bytes_string _ _ E).
  cbn [lift bind try_catch every_call]. split.
  - apply (ce_await is_create (SafeMint _ _ _) _ 0). intros [tx|e]; [|constructor].
    cbn [lift bind try_catch].
    apply (ce_await is_create (TxWait tx) _ 0). intros [r|e]; [|constructor].
    cbn [lift bind try_catch].
    destruct (Part000.find_transfer (logs r)) as [ev|]; [|constructor].
    destruct (getBigInt (args_tokenId ev)); constructor.
  - split; [reflexivity|]. intros [tx|e]; cbn [lift bind every_call]; [|exact I].
    split; [discriminate|]. intros [r|e]; cbn [lift bind every_call]; [|exact I].
    apply every_call_bind; [apply every_call_lift | intros; exact I].
Qed.

Lemma mint_submits_once (handler : JsValue -> prog Response) req_body to s h :
  handler = IndexJs.mint \/ handler = Part000.mint ->
  mint_fields req_body to (JString s) -> HashBinder s = Some h ->
  calls_exactly is_create 1 (handler req_body)
  /\ every_call (fun c => is_create c = true -> c = SafeMint to (JString s) h)
                (handler req_body).
Proof.
  intros [-> | ->] Hf Hh.
  - rewrite (index_mint_valid _ _ _ Hf).
    destruct (index_mintNFT_submits_once to s h Hh) as [H1 H2]. split; [exact H1|].
    apply every_call_try_catch; [|intros; exact I].
    apply every_call_bind; [exact H2 | intros; exact I].
  - rewrite (part_mint_valid _ _ _ Hf).
    destruct (part_mintNFT_submits_once to s h Hh) as [H1 H2]. split; [exact H1|].
    apply every_call_try_catch; [|intros; exact I].
    apply every_call_bind; [exact H2 | intros; exact I].
Qed.

(** C6, as the code has it: the servers keep no registry of operations in
    flight, and every create request starts its own ledger submission.  Two
    identical valid requests to POST /mint, served concurrently in any
    interleaving and in any world, have made exactly two safeMint
    submissions by the time both are answered, and the two submissions are
    the same call (same owner, same reference, same hash). *)
Theorem identical_creates_submit_twice
        {S : Type} (w : World S) (st : S) (order : list nat)
        (handler : JsValue -> prog Response) (req_body to : JsValue) (s h : jsstring) :
  handler = IndexJs.mint \/ handler = Part000.mint ->
  mint_fields req_body to (JString s) ->
  HashBinder s = Some h ->
  Forall (fun p => finished p = true)
         (schedule w order [handler req_body; handler req_body] st).1.1 ->
  count_calls is_create (schedule w order [handler req_body; handler req_body] st).2
  = 2%nat
  /\ Forall (fun c => is_create c = true -> c = SafeMint to (JString s) h)
            (schedule w order [handler req_body; handler req_body] st).2.
Proof.
  intros Hhandler Hf Hh Hfin.
  destruct (mint_submits_once handler req_body to s h Hhandler Hf Hh) as [Hone Hsame].
  split.
  - destruct (schedule_calls_exactly w is_create order
                [handler req_body; handler req_body] [1; 1]%nat st)
      as (ns' & Hns' & Hsum).
    { repeat constructor; exact Hone. }
    rewrite (finished_pool_calls_nothing is_create _ _ Hns' Hfin) in Hsum.
    simpl in Hsum. lia.
  - apply schedule_every_call. repeat constructor; exact Hsame.
Qed.

Lemma identical_creates_submit_twice_witness :
  mint_fields scenarioA (JString (js "0xABC")) (JString (js "ipfs://Qm123"))
  /\ HashBinder (js "ipfs://Qm123") = Some hashA
  /\ Forall (fun p => finished p = true)
            (schedule faithful [0; 1; 0; 1; 0; 1]%nat two_mints genesis).1.1
  /\ count_calls is_create (schedule faithful [0; 1; 0; 1; 0; 1]%nat two_mints genesis).2
     = 2%nat.
Proof.
  assert (Hfin : Forall (fun p => finished p = true)
                   (schedule faithful [0; 1; 0; 1; 0; 1]%nat two_mints genesis).1.1).
  { vm_compute. repeat constructor. }
  split; [exact scenarioA_fields|]. split; [exact HashBinder_A|]. split; [exact Hfin|].
  exact (proj1 (identical_creates_submit_twice
                  faithful genesis [0; 1; 0; 1; 0; 1]%nat Part000.mint scenarioA _ _ _
                  (or_intror eq_refl) scenarioA_fields HashBinder_A Hfin)).
Defined.

(** C6 fails as stated: the first request of scenario A has submitted its
    create and waits for the confirmation when an identical request is
    served; the second request submits a create of its own, and the two
    requests are answered with two different record identifiers. *)
Lemma duplicate_create_while_in_flight_mints_twice :
  in_flight <$> (schedule faithful [0]%nat two_mints genesis).1.1 !! 0%nat = Some true
  /\ (schedule faithful [0]%nat two_mints genesis).2
     = [SafeMint (JString (js "0xABC")) (JString (js "ipfs://Qm123")) hashA]
  /\ (schedule faithful [0; 1; 0; 1]%nat two_mints genesis).2
     = [SafeMint (JString (js "0xABC")) (JString (js "ipfs://Qm123")) hashA;
        SafeMint (JString (js "0xABC")) (JString (js "ipfs://Qm123")) hashA;
        TxWait (tx_of 0); TxWait (tx_of 1)]
  /\ (schedule faithful [0; 1; 0; 1]%nat two_mints genesis).1.1
     = [Ret (json 200 (minted (tx_of 0) (js "1") (JString (js "ipfs://Qm123"))));
        Ret (json 200 (minted (tx_of 1) (js "2") (JString (js "ipfs://Qm123"))))].
Proof.
  split; [vm_compute; reflexivity|]. split; [vm_compute; reflexivity|].
  split; vm_compute; reflexivity.
Qed.

(* ===================================================================== *)
(** ** GET /token/:tokenId *)
(* ===================================================================== *)

(** X1: GET /token/:tokenId makes exactly one call, the read of the URI
    with the identifier taken from the path as it is, and answers with what
    the read gave: 200 with {success:true, tokenId, uri}, or 500 with
    {success:false, error} carrying the message of the rejection. *)
Theorem token_reads_the_ledger_once
        {S : Type} (w : World S) (st : S) (tokenId : jsstring) :
  (run w (token tokenId) st).2 = [TokenURI tokenId]
  /\ (run w (token tokenId) st).1.2 = (answer w st (TokenURI tokenId)).1
  /\ (run w (token tokenId) st).1.1
     = Ok match (answer w st (TokenURI tokenId)).2 with
          | Ok uri => json 200 (JObject [(js "success", JBool true);
                                         (js "tokenId", JString tokenId);
                                         (js "uri", JString uri)])
          | Err e => json 500 (failure_body (message e))
          end.
Proof.
  unfold token, getTokenURI, mbind, prog_bind, await.
  cbn [lift bind try_catch run].
  destruct (answer w st (TokenURI tokenId)) as [st1 [uri|e]]; repeat split.
Qed.

(* ===================================================================== *)
(** ** POST /upload-image *)
(* ===================================================================== *)

Lemma upload_image_with_file file req_body :
  Part000.upload_image (Some file) req_body
  = try_catch
      (imageCid ← uploadImageToPinata (buffer file) (originalname file);
       attrs ← lift (parse_attributes (text_field (js "attributes") req_body) (JArray []));
       metadataCid ← uploadJSONToPinata (image_metadata req_body imageCid attrs);
       mret (json 200 (JObject [(js "success", JBool true);
                                (js "imageCid", JString imageCid);
                                (js "metadataCid", JString metadataCid);
                                (js "metadataUri", JString (js "ipfs://" ++ metadataCid));
                                (js "metadata", image_metadata req_body imageCid attrs)])))
      (fun err => mret (json 500 (failure_body (message err)))).
Proof. reflexivity. Qed.

(** X2: when /upload-image is given a file, its [attributes] parse (or
    are absent) and both uploads succeed, the answer is 200 and describes
    exactly what was pinned: [metadata] is the document that was sent to
    the store, its [image] is "ipfs://" followed by the identifier the
    store gave for the file, and [metadataUri] is "ipfs://" followed by the
    identifier the store gave for that document.  The two uploads are the
    only calls. *)
Theorem upload_image_answers_what_it_pinned
        {S : Type} (w : World S) (st st1 st2 : S) (file : File) (req_body : TextFields)
        (attrs : JsValue) (imageCid metadataCid : jsstring) :
  parse_attributes (text_field (js "attributes") req_body) (JArray []) = Ok attrs ->
  answer w st (PinFileToIPFS (buffer file) (originalname file)) = (st1, Ok imageCid) ->
  answer w st1 (PinJSONToIPFS (image_metadata req_body imageCid attrs))
  = (st2, Ok metadataCid) ->
  run w (Part000.upload_image (Some file) req_body) st
  = (Ok (json 200 (JObject [(js "success", JBool true);
                            (js "imageCid", JString imageCid);
                            (js "metadataCid", JString metadataCid);
                            (js "metadataUri", JString (js "ipfs://" ++ metadataCid));
                            (js "metadata", image_metadata req_body imageCid attrs)])),
     st2,
     [PinFileToIPFS (buffer file) (originalname file);
      PinJSONToIPFS (image_metadata req_body imageCid attrs)])
  /\ (exists fields, image_metadata req_body imageCid attrs = JObject fields
                     /\ lookup_field (js "image") fields = JString (js "ipfs://" ++ imageCid)
                     /\ lookup_field (js "attributes") fields = attrs).
Proof.
  intros Hp H1 H2. split.
  - rewrite upload_image_with_file.
    unfold uploadImageToPinata, uploadJSONToPinata, mbind, prog_bind, mret, prog_ret, await.
    cbn [lift bind try_catch run]. rewrite H1. cbn [lift bind try_catch run].
    rewrite Hp. cbn [lift bind try_catch run]. rewrite H2. reflexivity.
  - eexists. split; [reflexivity|]. split; reflexivity.
Qed.

Lemma upload_image_answers_what_it_pinned_witness :
  parse_attributes (text_field (js "attributes") [(js "name", js "Face")]) (JArray [])
  = Ok (JArray [])
  /\ run faithful (Part000.upload_image (Some a_file) [(js "name", js "Face")]) genesis
     = (Ok (json 200 (JObject [(js "success", JBool true);
                               (js "imageCid", JString (js "Qm0"));
                               (js "metadataCid", JString (js "Qm1"));
                               (js "metadataUri", JString (js "ipfs://" ++ js "Qm1"));
                               (js "metadata",
                                image_metadata [(js "name", js "Face")] (js "Qm0")
                                               (JArray []))])),
        mkChain ∅ 1 ∅ 0 2,
        [PinFileToIPFS (buffer a_file) (originalname a_file);
         PinJSONToIPFS (image_metadata [(js "name", js "Face")] (js "Qm0") (JArray []))]).
Proof.
  split; [reflexivity|].
  exact (proj1 (upload_image_answers_what_it_pinned
                  faithful genesis after_one_pin (mkChain ∅ 1 ∅ 0 2) a_file
                  [(js "name", js "Face")] (JArray []) (js "Qm0") (js "Qm1")
                  eq_refl eq_refl eq_refl)).
Defined.

(** X3: /upload-image never touches the ledger, in any world: the calls
    of a run are none (no file), the image upload alone, or the image
    upload followed by one document upload. *)
Theorem upload_image_calls_the_store_only
        {S : Type} (w : World S) (st : S) (req_file : option File) (req_body : TextFields) :
  Forall (fun c => is_store_call c = true)
         (run w (Part000.upload_image req_file req_body) st).2
  /\ match req_file with
     | None => (run w (Part000.upload_image req_file req_body) st).2 = []
     | Some file =>
       (run w (Part000.upload_image req_file req_body) st).2
       = [PinFileToIPFS (buffer file) (originalname file)]
       \/ exists doc,
           (run w (Part000.upload_image req_file req_body) st).2
           = [PinFileToIPFS (buffer file) (originalname file); PinJSONToIPFS doc]
     end.
Proof.
  destruct req_file as [file|]; [|split; [constructor | reflexivity]].
  rewrite upload_image_with_file.
  unfold uploadImageToPinata, uploadJSONToPinata, mbind, prog_bind, mret, prog_ret, await.
  cbn [lift bind try_catch run].
  destruct (answer w st _) as [st1 [imageCid|e]]; cbn [lift bind try_catch run].
  2: { split; [repeat constructor | left; reflexivity]. }
  destruct (parse_attributes _ _) as [attrs|e]; cbn [lift bind try_catch run].
  2: { split; [repeat constructor | left; reflexivity]. }
  destruct (answer w st1 _) as [st2 [metadataCid|e]]; cbn [lift bind try_catch run];
    (split; [repeat constructor | right; eexists; reflexivity]).
Qed.

(** X4: a rejected upload is reported with the message of the rejection
    and nothing is undone.  When the store rejects the image, /upload-image
    answers 500 with that message after this one call; when it takes the
    image and rejects the document, the answer is 500 with that message and
    the image stays uploaded. *)
Theorem upload_image_reports_rejected_upload
        {S : Type} (w : World S) (st st1 : S) (file : File) (req_body : TextFields)
        (e : JsError) :
  (answer w st (PinFileToIPFS (buffer file) (originalname file)) = (st1, Err e) ->
   run w (Part000.upload_image (Some file) req_body) st
   = (Ok (json 500 (failure_body (message e))), st1,
      [PinFileToIPFS (buffer file) (originalname file)]))
  /\ (forall imageCid attrs st2,
         answer w st (PinFileToIPFS (buffer file) (originalname file)) = (st1, Ok imageCid) ->
         parse_attributes (text_field (js "attributes") req_body) (JArray []) = Ok attrs ->
         answer w st1 (PinJSONToIPFS (image_metadata req_body imageCid attrs)) = (st2, Err e) ->
         run w (Part000.upload_image (Some file) req_body) st
         = (Ok (json 500 (failure_body (message e))), st2,
            [PinFileToIPFS (buffer file) (originalname file);
             PinJSONToIPFS (image_metadata req_body imageCid attrs)])).
Proof.
  split.
  - intros H1. rewrite upload_image_with_file.
    unfold uploadImageToPinata, mbind, prog_bind, await.
    cbn [lift bind try_catch run]. rewrite H1. reflexivity.
  - intros imageCid attrs st2 H1 Hp H2. rewrite upload_image_with_file.
    unfold uploadImageToPinata, uploadJSONToPinata, mbind, prog_bind, mret, prog_ret, await.
    cbn [lift bind try_catch run]. rewrite H1. cbn [lift bind try_catch run].
    rewrite Hp. cbn [lift bind try_catch run]. rewrite H2. reflexivity.
Qed.

Lemma upload_image_reports_rejected_upload_witness :
  run store_down (Part000.upload_image (Some a_file) []) tt
  = (Ok (json 500 (failure_body (js "Request failed with status code 503"))), tt,
     [PinFileToIPFS (buffer a_file) (originalname a_file)])
  /\ run documents_rejected (Part000.upload_image (Some a_file) []) tt
     = (Ok (json 500 (failure_body (js "Request failed with status code 400"))), tt,
        [PinFileToIPFS (buffer a_file) (originalname a_file);
         PinJSONToIPFS (image_metadata [] (js "QmImage") (JArray []))]).
Proof.
  split.
  - exact (proj1 (upload_image_reports_rejected_upload
                    store_down tt tt a_file []
                    (mkError (js "Request failed with status code 503"))) eq_refl).
  - exact (proj2 (upload_image_reports_rejected_upload
                    documents_rejected tt tt a_file []
                    (mkError (js "Request failed with status code 400")))
                 (js "QmImage") (JArray []) tt eq_refl eq_refl eq_refl).
Defined.

(* ===================================================================== *)
(** ** POST /evolve/:tokenId of index.js *)
(* ===================================================================== *)

Lemma index_evolve_with_file tokenId file req_body :
  IndexJs.evolve tokenId (Some file) req_body
  = try_catch
      (imageCid ← uploadImageToPinata (buffer file) (originalname file);
       attrs ← lift (parse_attributes (text_field (js "attributes") req_body) (JObject []));
       metadataCid ← uploadJSONToPinata (evolved_metadata tokenId imageCid attrs);
       txHash ← evolveNFT tokenId (JString (js "ipfs://" ++ metadataCid));
       mret (json 200 (JObject [(js "success", JBool true);
                                (js "txHash", JString txHash);
                                (js "imageCid", JString imageCid);
                                (js "metadataCid", JString metadataCid)])))
      (fun err => mret (json 500 (failure_body (message err)))).
Proof. reflexivity. Qed.

(** X5: a successful evolve of index.js chains its four calls: the file
    is uploaded, the metadata document naming "ipfs://" and the file's
    identifier as [image] is uploaded, and the reference committed for the
    token is "ipfs://" followed by the identifier the store gave for that
    document, together with the HashBinder of this reference; after the
    wait the answer is 200 with the transaction hash and both
    identifiers. *)
Theorem index_evolve_commits_the_uploaded_metadata
        {S : Type} (w : World S) (st st1 st2 st4 : S) (tokenId : jsstring) (file : File)
        (req_body : TextFields) (attrs : JsValue) (imageCid metadataCid h : jsstring)
        (tx : Tx) (receipt : Receipt) :
  answer w st (PinFileToIPFS (buffer file) (originalname file)) = (st1, Ok imageCid) ->
  parse_attributes (text_field (js "attributes") req_body) (JObject []) = Ok attrs ->
  answer w st1 (PinJSONToIPFS (evolved_metadata tokenId imageCid attrs))
  = (st2, Ok metadataCid) ->
  HashBinder (js "ipfs://" ++ metadataCid) = Some h ->
  update_confirms w st2 tokenId (JString (js "ipfs://" ++ metadataCid)) h tx receipt st4 ->
  run w (IndexJs.evolve tokenId (Some file) req_body) st
  = (Ok (json 200 (JObject [(js "success", JBool true);
                            (js "txHash", JString (tx_hash tx));
                            (js "imageCid", JString imageCid);
                            (js "metadataCid", JString metadataCid)])),
     st4,
     [PinFileToIPFS (buffer file) (originalname file);
      PinJSONToIPFS (evolved_metadata tokenId imageCid attrs);
      CommitEvolution tokenId (JString (js "ipfs://" ++ metadataCid)) h;
      TxWait tx]).
Proof.
  intros H1 Hp H2 Hh Hc. rewrite index_evolve_with_file.
  rewrite run_try_catch. unfold mbind, prog_bind.
  unfold uploadImageToPinata, uploadJSONToPinata, await.
  cbn [bind run]. rewrite H1. cbn [lift bind run]. rewrite Hp. cbn [lift bind run].
  rewrite H2. cbn [lift bind]. rewrite run_bind.
  rewrite (evolveNFT_confirmed w _ _ _ _ _ _ _ Hh Hc). reflexivity.
Qed.

Lemma index_evolve_commits_the_uploaded_metadata_witness :
  HashBinder (js "ipfs://" ++ js "Qm1") = Some (keccak256 (js "ipfs://Qm1"))
  /\ run faithful (IndexJs.evolve (js "1") (Some a_file) []) after_mintA
     = (Ok (json 200 (JObject [(js "success", JBool true);
                               (js "txHash", JString (tx_hash (tx_of 1)));
                               (js "imageCid", JString (js "Qm0"));
                               (js "metadataCid", JString (js "Qm1"))])),
        (run faithful (IndexJs.evolve (js "1") (Some a_file) []) after_mintA).1.2,
        [PinFileToIPFS (buffer a_file) (originalname a_file);
         PinJSONToIPFS (evolved_metadata (js "1") (js "Qm0") (JObject []));
         CommitEvolution (js "1") (JString (js "ipfs://" ++ js "Qm1"))
                         (keccak256 (js "ipfs://Qm1"));
         TxWait (tx_of 1)]).
Proof.
  assert (Hh : HashBinder (js "ipfs://" ++ js "Qm1") = Some (keccak256 (js "ipfs://Qm1")))
    by (vm_compute; reflexivity).
  split; [exact Hh|].
  refine (index_evolve_commits_the_uploaded_metadata
            faithful after_mintA _ _ _ (js "1") a_file [] (JObject []) (js "Qm0") (js "Qm1")
            _ (tx_of 1) (mkReceipt []) _ eq_refl _ Hh _).
  - vm_compute. reflexivity.
  - vm_compute. reflexivity.
  - eexists. split; vm_compute; reflexivity.
Defined.

(** X6: index.js's evolve writes the ledger only after both uploads have
    succeeded, and only with the reference of the document it has just
    uploaded: any ledger write found among the calls of a run is the
    commitEvolution of "ipfs://" and the identifier the store returned for
    the metadata of this request, with the HashBinder of that reference. *)
Theorem index_evolve_writes_after_both_uploads
        {S : Type} (w : World S) (st : S) (tokenId : jsstring) (req_file : option File)
        (req_body : TextFields) (c : ExtCall) :
  c ∈ (run w (IndexJs.evolve tokenId req_file req_body) st).2 ->
  is_write c = true ->
  exists file imageCid attrs metadataCid st1 st2 h,
    req_file = Some file
    /\ answer w st (PinFileToIPFS (buffer file) (originalname file)) = (st1, Ok imageCid)
    /\ parse_attributes (text_field (js "attributes") req_body) (JObject []) = Ok attrs
    /\ answer w st1 (PinJSONToIPFS (evolved_metadata tokenId imageCid attrs))
       = (st2, Ok metadataCid)
    /\ HashBinder (js "ipfs://" ++ metadataCid) = Some h
    /\ c = CommitEvolution tokenId (JString (js "ipfs://" ++ metadataCid)) h.
Proof.
  intros Hin Hw. revert Hin.
  destruct req_file as [file|].
  2: { simpl. intros Hin. apply elem_of_nil in Hin. contradiction. }
  match goal with |- _ -> ?g => set (G := g) end.
  rewrite index_evolve_with_file.
  unfold uploadImageToPinata, uploadJSONToPinata, evolveNFT, mbind, prog_bind, mret,
         prog_ret, await.
  cbn [lift bind try_catch run].
  destruct (answer w st _) as [st1 [imageCid|e]] eqn:H1; cbn [lift bind try_catch run].
  2: { intros Hin. apply list_elem_of_singleton in Hin as ->. discriminate. }
  destruct (parse_attributes _ _) as [attrs|e] eqn:Hp; cbn [lift bind try_catch run].
  2: { intros Hin. apply list_elem_of_singleton in Hin as ->. discriminate. }
  destruct (answer w st1 _) as [st2 [metadataCid|e]] eqn:H2; cbn [lift bind try_catch run].
  2: { intros Hin. repeat (apply elem_of_cons in Hin as [->|Hin]; [discriminate|]).
       apply elem_of_nil in Hin. contradiction. }
  destruct (toUtf8Bytes (JString (js "ipfs://" ++ metadataCid))) as [data|e] eqn:Hu;
    cbn [lift bind try_catch run].
  2: { intros Hin. repeat (apply elem_of_cons in Hin as [->|Hin]; [discriminate|]).
       apply elem_of_nil in Hin. contradiction. }
  pose proof (bound_hash _ _ Hu) as Hh. cbn beta iota in Hh.
  assert (Hcommit : c = CommitEvolution tokenId (JString (js "ipfs://" ++ metadataCid))
                                        (keccak256 data) -> G).
  { intros ->. subst G.
    exists file, imageCid, attrs, metadataCid, st1, st2, (keccak256 data).
    repeat split; assumption. }
  destruct (answer w st2 _) as [st3 [tx|e]]; cbn [lift bind try_catch run].
  - destruct (answer w st3 _) as [st4 [r|e]]; cbn [lift bind try_catch run];
      intros Hin;
      (apply elem_of_cons in Hin as [->|Hin]; [discriminate|]);
      (apply elem_of_cons in Hin as [->|Hin]; [discriminate|]);
      (apply elem_of_cons in Hin as [->|Hin]; [apply Hcommit; reflexivity|]);
      (apply elem_of_cons in Hin as [->|Hin]; [discriminate|]);
      apply elem_of_nil in Hin; contradiction.
  - intros Hin.
    (apply elem_of_cons in Hin as [->|Hin]; [discriminate|]).
    (apply elem_of_cons in Hin as [->|Hin]; [discriminate|]).
    (apply elem_of_cons in Hin as [->|Hin]; [apply Hcommit; reflexivity|]).
    apply elem_of_nil in Hin. contradiction.
Qed.

Lemma index_evolve_writes_after_both_uploads_witness :
  CommitEvolution (js "1") (JString (js "ipfs://" ++ js "Qm1")) (keccak256 (js "ipfs://Qm1"))
    ∈ (run faithful (IndexJs.evolve (js "1") (Some a_file) []) after_mintA).2
  /\ is_write (CommitEvolution (js "1") (JString (js "ipfs://" ++ js "Qm1"))
                               (keccak256 (js "ipfs://Qm1"))) = true
  /\ exists file imageCid attrs metadataCid st1 st2 h,
      Some a_file = Some file
      /\ answer faithful after_mintA (PinFileToIPFS (buffer file) (originalname file))
         = (st1, Ok imageCid)
      /\ parse_attributes (text_field (js "attributes") []) (JObject []) = Ok attrs
      /\ answer faithful st1 (PinJSONToIPFS (evolved_metadata (js "1") imageCid attrs))
         = (st2, Ok metadataCid)
      /\ HashBinder (js "ipfs://" ++ metadataCid) = Some h
      /\ CommitEvolution (js "1") (JString (js "ipfs://" ++ js "Qm1"))
                         (keccak256 (js "ipfs://Qm1"))
         = CommitEvolution (js "1") (JString (js "ipfs://" ++ metadataCid)) h.
Proof.
  assert (Hin : CommitEvolution (js "1") (JString (js "ipfs://" ++ js "Qm1"))
                                (keccak256 (js "ipfs://Qm1"))
                ∈ (run faithful (IndexJs.evolve (js "1") (Some a_file) []) after_mintA).2).
  { vm_compute. do 2 apply list_elem_of_further. apply list_elem_of_here. }
  split; [exact Hin|]. split; [reflexivity|].
  exact (index_evolve_writes_after_both_uploads
           faithful after_mintA (js "1") (Some a_file) [] _ Hin eq_refl).
Defined.

(** X7: without a file, index.js's evolve fails on reading [req.file]
    before anything else happens: the answer is 500 with {success:false,
    error}, whatever the body holds, and no call is made. *)
Theorem index_evolve_without_file_is_500
        {S : Type} (w : World S) (st : S) (tokenId : jsstring) (req_body : TextFields) :
  exists msg,
    run w (IndexJsApp.serve (IndexJsApp.PostEvolve tokenId None req_body)) st
    = (Ok (json 500 (failure_body msg)), st, [])
    /\ msg <> [].
Proof. eexists. split; [reflexivity | discriminate]. Qed.

(* ===================================================================== *)
(** ** POST /mint: what a 200 means, and what a failure looks like *)
(* ===================================================================== *)

Lemma toUtf8Bytes_hash uri data :
  toUtf8Bytes uri = Ok data ->
  exists s, uri = JString s /\ HashBinder s = Some (keccak256 data).
Proof.
  intros H. destruct (toUtf8Bytes_Ok _ _ H) as (s & -> & E).
  exists s. split; [reflexivity|]. apply HashBinder_Some. eauto.
Qed.

Lemma index_mint_200 {S : Type} (w : World S) st st' req_body resp tr :
  run w (IndexJs.mint req_body) st = (Ok resp, st', tr) -> status resp = 200 ->
  exists to s h tx receipt,
    mint_fields req_body to (JString s) /\ HashBinder s = Some h
    /\ create_confirms w st to (JString s) h tx receipt st'
    /\ tr = [SafeMint to (JString s) h; TxWait tx]
    /\ body resp = Some (JObject [(js "success", JBool true);
                                  (js "txHash", JString (tx_hash tx));
                                  (js "metadataUri", JString s)]).
Proof.
  unfold IndexJs.mint, IndexJs.mintNFT, mbind, prog_bind, mret, prog_ret, await.
  destruct (destructure (js "to") req_body) as [to|e] eqn:Hto;
    cbn [lift bind try_catch run]; [|intros [= <- _ _]; discriminate].
  destruct (destructure (js "metadataUri") req_body) as [uri|e] eqn:Huri;
    cbn [lift bind try_catch run]; [|intros [= <- _ _]; discriminate].
  destruct (truthy to) eqn:Tto; cbn [negb orb lift bind try_catch run];
    [|intros [= <- _ _]; discriminate].
  destruct (truthy uri) eqn:Turi; cbn [negb orb lift bind try_catch run];
    [|intros [= <- _ _]; discriminate].
  destruct (toUtf8Bytes uri) as [data|e] eqn:Hu; cbn [lift bind try_catch run];
    [|intros [= <- _ _]; discriminate].
  destruct (toUtf8Bytes_hash _ _ Hu) as (s & -> & Hh).
  destruct (answer w st _) as [st1 [tx|e]] eqn:H1; cbn [lift bind try_catch run];
    [|intros [= <- _ _]; discriminate].
  destruct (answer w st1 _) as [st2 [r|e]] eqn:H2; cbn [lift bind try_catch run];
    [|intros [= <- _ _]; discriminate].
  intros [= <- <- <-] _.
  exists to, s, (keccak256 data), tx, r.
  split; [repeat split; assumption|]. split; [exact Hh|].
  split; [exists st1; split; assumption|]. split; reflexivity.
Qed.

Lemma part_mint_200 {S : Type} (w : World S) st st' req_body resp tr :
  run w (Part000.mint req_body) st = (Ok resp, st', tr) -> status resp = 200 ->
  exists to s h tx receipt,
    mint_fields req_body to (JString s) /\ HashBinder s = Some h
    /\ create_confirms w st to (JString s) h tx receipt st'
    /\ tr = [SafeMint to (JString s) h; TxWait tx]
    /\ exists tokenId, body resp = Some (minted tx tokenId (JString s)).
Proof.
  unfold Part000.mint, Part000.mintNFT, mbind, prog_bind, mret, prog_ret, await.
  destruct (destructure (js "to") req_body) as [to|e] eqn:Hto;
    cbn [lift bind try_catch run]; [|intros [= <- _ _]; discriminate].
  destruct (destructure (js "metadataUri") req_body) as [uri|e] eqn:Huri;
    cbn [lift bind try_catch run]; [|intros [= <- _ _]; discriminate].
  destruct (truthy to) eqn:Tto; cbn [negb orb lift bind try_catch run];
    [|intros [= <- _ _]; discriminate].
  destruct (truthy uri) eqn:Turi; cbn [negb orb lift bind try_catch run];
    [|intros [= <- _ _]; discriminate].
  destruct (toUtf8Bytes uri) as [data|e] eqn:Hu; cbn [lift bind try_catch run];
    [|intros [= <- _ _]; discriminate].
  destruct (toUtf8Bytes_hash _ _ Hu) as (s & -> & Hh).
  destruct (answer w st _) as [st1 [tx|e]] eqn:H1; cbn [lift bind try_catch run];
    [|intros [= <- _ _]; discriminate].
  destruct (answer w st1 _) as [st2 [r|e]] eqn:H2; cbn [lift bind try_catch run];
    [|intros [= <- _ _]; discriminate].
  assert (Hdone : forall tokenId : jsstring,
             exists to0 s0 h tx0 receipt,
               mint_fields req_body to0 (JString s0) /\ HashBinder s0 = Some h
               /\ create_confirms w st to0 (JString s0) h tx0 receipt st2
               /\ [SafeMint to (JString s) (keccak256 data); TxWait tx]
                  = [SafeMint to0 (JString s0) h; TxWait tx0]
               /\ exists tokenId0,
                   Some (minted tx tokenId (JString s))
                   = Some (minted tx0 tokenId0 (JString s0))).
  { intros tokenId. exists to, s, (keccak256 data), tx, r.
    split; [repeat split; assumption|]. split; [exact Hh|].
    split; [exists st1; split; assumption|]. split; [reflexivity|].
    exists tokenId. reflexivity. }
  destruct (Part000.find_transfer (logs r)) as [ev|]; cbn [lift bind try_catch run].
  - destruct (getBigInt (args_tokenId ev)) as [n|e]; cbn [lift bind try_catch run];
      [|intros [= <- _ _]; discriminate].
    intros [= <- <- <-] _. apply Hdone.
  - intros [= <- <- <-] _. apply Hdone.
Qed.

(** X8: POST /mint never answers 200 without a confirmed create.  In any
    world, when either server answers a mint with status 200, the body held
    truthy [to] and [metadataUri], the reference was a string with a UTF-8
    encoding, safeMint was submitted with that owner, that reference and
    its HashBinder and resolved to a transaction, wait() on it resolved,
    these were the only two calls, and the answer's [txHash] and
    [metadataUri] are that transaction's hash and that reference. *)
Theorem mint_200_means_confirmed
        {S : Type} (w : World S) (st st' : S) (handler : JsValue -> prog Response)
        (req_body : JsValue) (resp : Response) (tr : list ExtCall) :
  handler = IndexJs.mint \/ handler = Part000.mint ->
  run w (handler req_body) st = (Ok resp, st', tr) ->
  status resp = 200 ->
  exists to s h tx receipt fields,
    mint_fields req_body to (JString s) /\ HashBinder s = Some h
    /\ create_confirms w st to (JString s) h tx receipt st'
    /\ tr = [SafeMint to (JString s) h; TxWait tx]
    /\ body resp = Some (JObject fields)
    /\ lookup_field (js "success") fields = JBool true
    /\ lookup_field (js "txHash") fields = JString (tx_hash tx)
    /\ lookup_field (js "metadataUri") fields = JString s.
Proof.
  intros [-> | ->] Hrun H200.
  - destruct (index_mint_200 w _ _ _ _ _ Hrun H200)
      as (to & s & h & tx & r & Hf & Hh & Hc & Htr & Hb).
    exists to, s, h, tx, r. eexists. repeat (split; [eassumption|]).
    repeat split; reflexivity.
  - destruct (part_mint_200 w _ _ _ _ _ Hrun H200)
      as (to & s & h & tx & r & Hf & Hh & Hc & Htr & tokenId & Hb).
    exists to, s, h, tx, r. eexists. repeat (split; [eassumption|]).
    repeat split; reflexivity.
Qed.

Lemma mint_200_means_confirmed_witness :
  run faithful (Part000.mint scenarioA) genesis
  = (Ok (json 200 (minted (tx_of 0) (js "1") (JString (js "ipfs://Qm123")))), after_mintA,
     [SafeMint (JString (js "0xABC")) (JString (js "ipfs://Qm123")) hashA; TxWait (tx_of 0)])
  /\ status (json 200 (minted (tx_of 0) (js "1") (JString (js "ipfs://Qm123")))) = 200
  /\ exists to s h tx receipt fields,
      mint_fields scenarioA to (JString s) /\ HashBinder s = Some h
      /\ create_confirms faithful genesis to (JString s) h tx receipt after_mintA
      /\ [SafeMint (JString (js "0xABC")) (JString (js "ipfs://Qm123")) hashA;
          TxWait (tx_of 0)]
         = [SafeMint to (JString s) h; TxWait tx]
      /\ body (json 200 (minted (tx_of 0) (js "1") (JString (js "ipfs://Qm123"))))
         = Some (JObject fields)
      /\ lookup_field (js "success") fields = JBool true
      /\ lookup_field (js "txHash") fields = JString (tx_hash tx)
      /\ lookup_field (js "metadataUri") fields = JString s.
Proof.
  assert (Hrun : run faithful (Part000.mint scenarioA) genesis
                 = (Ok (json 200 (minted (tx_of 0) (js "1") (JString (js "ipfs://Qm123")))),
                    after_mintA,
                    [SafeMint (JString (js "0xABC")) (JString (js "ipfs://Qm123")) hashA;
                     TxWait (tx_of 0)]))
    by (vm_compute; reflexivity).
  split; [exact Hrun|]. split; [reflexivity|].
  exact (mint_200_means_confirmed faithful genesis after_mintA Part000.mint scenarioA _ _
                                  (or_intror eq_refl) Hrun eq_refl).
Defined.

(** X9: a create that the ledger rejects, at submission or at the wait,
    is answered 500 with {error} carrying the message of the rejection.  A
    rejected submission is not waited for; after a rejected wait the
    answer does not name the transaction that was submitted. *)
Theorem mint_reports_ledger_rejection
        {S : Type} (w : World S) (st st' : S) (handler : JsValue -> prog Response)
        (req_body to : JsValue) (s h : jsstring) (e : JsError) (tr : list ExtCall) :
  handler = IndexJs.mint \/ handler = Part000.mint ->
  mint_fields req_body to (JString s) ->
  HashBinder s = Some h ->
  (answer w st (SafeMint to (JString s) h) = (st', Err e)
   /\ tr = [SafeMint to (JString s) h])
  \/ (exists tx st1,
         answer w st (SafeMint to (JString s) h) = (st1, Ok tx)
         /\ answer w st1 (TxWait tx) = (st', Err e)
         /\ tr = [SafeMint to (JString s) h; TxWait tx]) ->
  run w (handler req_body) st = (Ok (json 500 (error_body (message e))), st', tr).
Proof.
  intros Hhandler Hf Hh Hrej.
  apply HashBinder_Some in Hh as (data & E & ->).
  assert (Hi : run w (IndexJs.mint req_body) st
               = (Ok (json 500 (error_body (message e))), st', tr)).
  { rewrite (index_mint_valid _ _ _ Hf).
    unfold IndexJs.mintNFT, mbind, prog_bind, mret, prog_ret, await.
    rewrite (toUtf8Bytes_string _ _ E). cbn [lift bind try_catch run].
    destruct Hrej as [[H1 ->] | (tx & st1 & H1 & H2 & ->)];
      rewrite H1; cbn [lift bind try_catch run]; [reflexivity|].
    rewrite H2. reflexivity. }
  assert (Hp : run w (Part000.mint req_body) st
               = (Ok (json 500 (error_body (message e))), st', tr)).
  { rewrite (part_mint_valid _ _ _ Hf).
    unfold Part000.mintNFT, mbind, prog_bind, mret, prog_ret, await.
    rewrite (toUtf8Bytes_string _ _ E). cbn [lift bind try_catch run].
    destruct Hrej as [[H1 ->] | (tx & st1 & H1 & H2 & ->)];
      rewrite H1; cbn [lift bind try_catch run]; [reflexivity|].
    rewrite H2. reflexivity. }
  destruct Hhandler as [-> | ->]; assumption.
Qed.

Lemma mint_reports_ledger_rejection_witness :
  mint_fields scenarioA (JString (js "0xABC")) (JString (js "ipfs://Qm123"))
  /\ HashBinder (js "ipfs://Qm123") = Some hashA
  /\ run never_confirms (Part000.mint scenarioA) tt
     = (Ok (json 500 (error_body (js "transaction execution reverted"))), tt,
        [SafeMint (JString (js "0xABC")) (JString (js "ipfs://Qm123")) hashA;
         TxWait (mkTx (js "0xfeed"))]).
Proof.
  split; [exact scenarioA_fields|]. split; [exact HashBinder_A|].
  apply (mint_reports_ledger_rejection
           never_confirms tt tt Part000.mint scenarioA _ _ _
           (mkError (js "transaction execution reverted")) _
           (or_intror eq_refl) scenarioA_fields HashBinder_A).
  right. exists (mkTx (js "0xfeed")), tt. repeat split.
Defined.

(** X10: a reference that ethers cannot encode never reaches the ledger.
    When [metadataUri] is truthy but is not a string (a number, [true], an
    array, an object), or is a string with an unpaired high surrogate,
    /mint of either file answers 500 with {error} and part_000's /evolve
    answers 500 with {success:false, error}, carrying the message of the
    encoding failure, and no call is made. *)
Theorem unencodable_reference_stops_before_the_ledger
        {S : Type} (w : World S) (st : S) (req_body uri : JsValue) (e : JsError) :
  destructure (js "metadataUri") req_body = Ok uri ->
  truthy uri = true ->
  toUtf8Bytes uri = Err e ->
  (forall to, destructure (js "to") req_body = Ok to -> truthy to = true ->
              run w (IndexJs.mint req_body) st
              = (Ok (json 500 (error_body (message e))), st, [])
              /\ run w (Part000.mint req_body) st
                 = (Ok (json 500 (error_body (message e))), st, []))
  /\ (forall tokenId,
         run w (Part000.evolve tokenId req_body) st
         = (Ok (json 500 (failure_body (message e))), st, [])).
Proof.
  intros Huri Turi Hu. split.
  - intros to Hto Tto.
    assert (Hf : mint_fields req_body to uri) by (repeat split; assumption).
    rewrite (index_mint_valid _ _ _ Hf), (part_mint_valid _ _ _ Hf).
    unfold IndexJs.mintNFT, Part000.mintNFT, mbind, prog_bind. rewrite Hu.
    split; reflexivity.
  - intros tokenId. unfold Part000.evolve, evolveNFT, mbind, prog_bind.
    rewrite Huri. cbn [lift bind try_catch]. rewrite Turi. cbn [negb].
    rewrite Hu. reflexivity.
Qed.

Lemma unencodable_reference_stops_before_the_ledger_witness :
  destructure (js "metadataUri")
              (JObject [(js "to", JString (js "0xABC")); (js "metadataUri", JNumber 5 0)])
  = Ok (JNumber 5 0)
  /\ truthy (JNumber 5 0) = true
  /\ toUtf8Bytes (JNumber 5 0) = Err (mkError (js "invalid string value"))
  /\ run faithful
         (Part000.evolve (js "1")
            (JObject [(js "to", JString (js "0xABC")); (js "metadataUri", JNumber 5 0)]))
         after_mintA
     = (Ok (json 500 (failure_body (js "invalid string value"))), after_mintA, []).
Proof.
  split; [reflexivity|]. split; [reflexivity|]. split; [reflexivity|].
  exact (proj2 (unencodable_reference_stops_before_the_ledger
                  faithful after_mintA
                  (JObject [(js "to", JString (js "0xABC")); (js "metadataUri", JNumber 5 0)])
                  (JNumber 5 0) (mkError (js "invalid string value"))
                  eq_refl eq_refl eq_refl) (js "1")).
Defined.

Lemma mint_valid_is_not_400 (handler : JsValue -> prog Response) req_body to uri :
  handler = IndexJs.mint \/ handler = Part000.mint ->
  mint_fields req_body to uri ->
  every_return (fun r => status r <> 400) (handler req_body).
Proof.
  intros [-> | ->] Hf.
  - rewrite (index_mint_valid _ _ _ Hf). not_400.
  - rewrite (part_mint_valid _ _ _ Hf). not_400.
Qed.

Lemma mint_handler_400 {S : Type} (w : World S) (st : S)
      (handler : JsValue -> prog Response) (req_body : JsValue) :
  handler = IndexJs.mint \/ handler = Part000.mint ->
  exists resp st' tr,
    run w (handler req_body) st = (Ok resp, st', tr)
    /\ (status resp = 400
        <-> exists to uri,
          destructure (js "to") req_body = Ok to
          /\ destructure (js "metadataUri") req_body = Ok uri
          /\ (truthy to = false \/ truthy uri = false))
    /\ (status resp = 400 ->
        resp = json 400 (error_body (js "to and metadataUri are required")) /\ tr = [])
    /\ (req_body = JUndefined \/ req_body = JNull -> status resp = 500 /\ tr = []).
Proof.
  intros Hhandler.
  assert (Hreq : exists req, serve_any req = handler req_body
                             /\ is_mint req = true
                             /\ fails_check req
                                = match destructure (js "to") req_body,
                                        destructure (js "metadataUri") req_body with
                                  | Ok to, Ok uri => negb (truthy to) || negb (truthy uri)
                                  | _, _ => false
                                  end).
  { destruct Hhandler as [-> | ->].
    - exists (inl (IndexJsApp.PostMint req_body)). repeat split.
    - exists (inr (Part000App.PostMint req_body)). repeat split. }
  destruct Hreq as (req & Hserve & Hmint & Hcheck).
  destruct (handler_answers w st req) as (resp & st' & tr & Hrun & _ & Hiff & H400 & _).
  rewrite Hserve in Hrun. rewrite Hcheck in Hiff.
  exists resp, st', tr. split; [exact Hrun|]. split; [|split].
  - rewrite Hiff.
    destruct (destructure (js "to") req_body) as [to|e];
      [|split; [discriminate | intros (? & ? & [=] & _)]].
    destruct (destructure (js "metadataUri") req_body) as [uri|e];
      [|split; [discriminate | intros (? & ? & _ & [=] & _)]].
    split.
    + intros H. exists to, uri. repeat split.
      destruct (truthy to), (truthy uri); auto; discriminate.
    + intros (to' & uri' & [= <-] & [= <-] & [-> | ->]); [reflexivity|].
      destruct (truthy to); reflexivity.
  - intros Hs. destruct (H400 Hs) as (-> & msg & ->). split; [|reflexivity].
    revert Hrun. destruct Hhandler as [-> | ->];
      unfold IndexJs.mint, Part000.mint, mbind, prog_bind;
      (destruct (destructure (js "to") req_body); cbn [lift bind try_catch run];
       [|intros [= <-]; reflexivity]);
      (destruct (destructure (js "metadataUri") req_body); cbn [lift bind try_catch run];
       [|intros [= <-]; reflexivity]);
      (destruct (negb _ || negb _); [intros [= <-]; reflexivity|]);
      intros Hrun; exfalso; revert Hrun.
    all: unfold IndexJs.mintNFT, Part000.mintNFT, mbind, prog_bind, await;
      repeat first
        [ progress cbn [run try_catch bind lift mret prog_ret]
        | match goal with
          | |- context [toUtf8Bytes ?v] => destruct (toUtf8Bytes v)
          | |- context [Part000.find_transfer ?l] => destruct (Part000.find_transfer l)
          | |- context [getBigInt ?v] => destruct (getBigInt v)
          | |- context [answer ?w ?s ?c] => destruct (answer w s c) as [? [?|?]]
          end ];
      intros [=].
  - intros Hb. revert Hrun.
    destruct Hhandler as [-> | ->]; destruct Hb as [-> | ->];
      intros [= <- _ <-]; split; reflexivity.
Qed.

Lemma default_error_handler_400 (err : HttpError) :
  status (default_error_handler err) = 400 <-> err_status err = Some 400.
Proof.
  unfold default_error_handler. cbn [status].
  destruct (err_status err) as [s|]; [|split; [lia | discriminate]].
  destruct ((400 <=? s) && (s <? 600)) eqn:E; split;
    try (intros ->; reflexivity); try (intros [= ->]; try reflexivity; discriminate);
    intros H; lia.
Qed.

(** X11: what a 400 to POST /mint means.  A request that [express.json()]
    refuses is answered without reaching the handler: by part_000 always
    with 400 and {error: message of the error}, by index.js with an
    answer that has no JSON body and is a 400 exactly when the error
    carries the status 400.  A request that reaches the handler is answered
    400 exactly when its body can be read and [to] or [metadataUri] is
    falsy (missing, null, false, 0, the empty string); the body of the
    answer is then {error: "to and metadataUri are required"} and no call
    is made.  A body that is [undefined] or [null] is not a 400: reading
    its fields throws, and the answer is 500. *)
Theorem mint_400_iff_refused_or_a_field_is_falsy {S : Type} (w : World S) (st : S) :
  (forall err,
      run w (Part000App.app (Refused err)) st
      = (Ok (json 400 (error_body (message (cause err)))), st, []))
  /\ (forall err,
         run w (IndexJsApp.app (Refused err)) st = (Ok (default_error_handler err), st, [])
         /\ body (default_error_handler err) = None
         /\ (status (default_error_handler err) = 400 <-> err_status err = Some 400))
  /\ (forall a req_body,
         a = inl (Passed (IndexJsApp.PostMint req_body))
         \/ a = inr (Passed (Part000App.PostMint req_body)) ->
         exists resp st' tr,
           run w (app_any a) st = (Ok resp, st', tr)
           /\ (status resp = 400
               <-> exists to uri,
                 destructure (js "to") req_body = Ok to
                 /\ destructure (js "metadataUri") req_body = Ok uri
                 /\ (truthy to = false \/ truthy uri = false))
           /\ (status resp = 400 ->
               resp = json 400 (error_body (js "to and metadataUri are required"))
               /\ tr = [])
           /\ (req_body = JUndefined \/ req_body = JNull -> status resp = 500 /\ tr = [])).
Proof.
  split; [|split].
  - intros err. reflexivity.
  - intros err. split; [reflexivity|]. split; [reflexivity|].
    apply default_error_handler_400.
  - intros a req_body [-> | ->]; cbn [app_any IndexJsApp.app Part000App.app
                                      IndexJsApp.serve Part000App.serve];
      apply mint_handler_400; auto.
Qed.

Lemma mint_400_iff_refused_or_a_field_is_falsy_witness :
  run faithful (Part000App.app (Refused malformed_json)) genesis
  = (Ok (json 400 (error_body (js "Unexpected token } in JSON at position 1"))), genesis, [])
  /\ (run faithful (IndexJsApp.app (Refused malformed_json)) genesis
      = (Ok (default_error_handler malformed_json), genesis, [])
      /\ body (default_error_handler malformed_json) = None
      /\ status (default_error_handler malformed_json) = 400)
  /\ exists resp st' tr,
      run faithful
          (app_any (inr (Passed (Part000App.PostMint
             (JObject [(js "to", JString []);
                       (js "metadataUri", JString (js "ipfs://Qm123"))])))))
          genesis
      = (Ok resp, st', tr)
      /\ resp = json 400 (error_body (js "to and metadataUri are required"))
      /\ tr = [].
Proof.
  pose proof (mint_400_iff_refused_or_a_field_is_falsy faithful genesis)
    as (Hpart & Hindex & Hpassed).
  split; [exact (Hpart malformed_json)|]. split.
  - destruct (Hindex malformed_json) as (Hrun & Hb & Hs).
    split; [exact Hrun|]. split; [exact Hb|]. apply Hs. reflexivity.
  - destruct (Hpassed _ (JObject [(js "to", JString []);
                                  (js "metadataUri", JString (js "ipfs://Qm123"))])
                      (or_intror eq_refl))
      as (resp & st' & tr & Hrun & Hiff & H400 & _).
    exists resp, st', tr. split; [exact Hrun|].
    apply H400, Hiff. exists (JString []), (JString (js "ipfs://Qm123")).
    split; [reflexivity|]. split; [reflexivity|]. left. reflexivity.
Defined.

(* ===================================================================== *)
(** ** The record identifier read from the receipt *)
(* ===================================================================== *)

Lemma find_transfer_first pre ev post :
  Forall (fun log => fragment log <> Some (js "Transfer")) pre ->
  fragment ev = Some (js "Transfer") ->
  Part000.find_transfer (pre ++ ev :: post) = Some ev.
Proof.
  intros Hpre Hev. unfold Part000.find_transfer.
  induction Hpre as [|log pre Hlog _ IH]; simpl.
  - rewrite bool_decide_eq_true_2 by exact Hev. reflexivity.
  - rewrite bool_decide_eq_false_2 by exact Hlog. exact IH.
Qed.

(** X12: the identifier that part_000's mint reports is the one of the
    first Transfer event in the receipt's log list, wherever it stands:
    entries before it that are not Transfer events (or were not parsed by
    the contract interface), and any entries after it, Transfer events
    included, do not matter. *)
Theorem mint_reports_the_first_transfer_event
        {S : Type} (w : World S) (st st2 : S) (req_body to : JsValue) (s h : jsstring)
        (tx : Tx) (pre post : list Log) (ev : Log) (n : N) :
  mint_fields req_body to (JString s) ->
  HashBinder s = Some h ->
  create_confirms w st to (JString s) h tx (mkReceipt (pre ++ ev :: post)) st2 ->
  Forall (fun log => fragment log <> Some (js "Transfer")) pre ->
  fragment ev = Some (js "Transfer") ->
  args_tokenId ev = Some n ->
  run w (Part000.mint req_body) st
  = (Ok (json 200 (minted tx (bigint_toString n) (JString s))), st2,
     [SafeMint to (JString s) h; TxWait tx]).
Proof.
  intros Hf Hh Hc Hpre Hev Hn.
  rewrite (part_mint_confirmed w _ _ _ _ _ _ _ _ Hf Hh Hc). cbn [logs].
  rewrite (find_transfer_first _ _ _ Hpre Hev), Hn. reflexivity.
Qed.

Lemma busy_confirms :
  create_confirms busy_ledger tt (JString (js "0xABC")) (JString (js "ipfs://Qm123"))
                  hashA (mkTx (js "0xfeed")) busy_receipt tt.
Proof. exists tt. split; reflexivity. Qed.

Lemma mint_reports_the_first_transfer_event_witness :
  mint_fields scenarioA (JString (js "0xABC")) (JString (js "ipfs://Qm123"))
  /\ HashBinder (js "ipfs://Qm123") = Some hashA
  /\ Forall (fun log => fragment log <> Some (js "Transfer"))
            [mkLog None None; mkLog (Some (js "Approval")) (Some 3%N)]
  /\ run busy_ledger (Part000.mint scenarioA) tt
     = (Ok (json 200 (minted (mkTx (js "0xfeed")) (bigint_toString 7)
                             (JString (js "ipfs://Qm123")))), tt,
        [SafeMint (JString (js "0xABC")) (JString (js "ipfs://Qm123")) hashA;
         TxWait (mkTx (js "0xfeed"))]).
Proof.
  assert (Hpre : Forall (fun log => fragment log <> Some (js "Transfer"))
                        [mkLog None None; mkLog (Some (js "Approval")) (Some 3%N)])
    by (repeat constructor; discriminate).
  split; [exact scenarioA_fields|]. split; [exact HashBinder_A|]. split; [exact Hpre|].
  exact (mint_reports_the_first_transfer_event
           busy_ledger tt tt scenarioA _ _ _ _ _ _ _ 7%N
           scenarioA_fields HashBinder_A busy_confirms Hpre eq_refl eq_refl).
Defined.

(** The decimal text of a BigInt. *)
Lemma decimal_digits (d : Decimal.uint) :
  forallb Json.is_digit (js (NilEmpty.string_of_uint d)) = true.
Proof. induction d; simpl; auto. Qed.

Lemma decimal_nonempty (d : Decimal.uint) :
  d <> Decimal.Nil -> js (NilEmpty.string_of_uint d) <> [].
Proof. destruct d; simpl; intros H; try discriminate. contradiction. Qed.

Lemma bigint_toString_digits (n : N) :
  bigint_toString n <> [] /\ forallb Json.is_digit (bigint_toString n) = true.
Proof.
  unfold bigint_toString. split; [|apply decimal_digits].
  apply decimal_nonempty. destruct n as [|p]; [discriminate|].
  apply DecimalPos.Unsigned.to_uint_nonnil.
Qed.

Lemma bigint_toString_not_unknown (n : N) : bigint_toString n <> js "unknown".
Proof.
  intros H. pose proof (proj2 (bigint_toString_digits n)) as Hd.
  rewrite H in Hd. discriminate.
Qed.

Lemma find_transfer_None (ls : list Log) :
  Part000.find_transfer ls = None
  <-> Forall (fun log => fragment log <> Some (js "Transfer")) ls.
Proof.
  unfold Part000.find_transfer. induction ls as [|log ls IH]; simpl.
  - split; [constructor | reflexivity].
  - destruct (bool_decide (fragment log = Some (js "Transfer"))) eqn:E.
    + apply bool_decide_eq_true_1 in E. split; [discriminate|].
      intros H. inversion H; subst. contradiction.
    + apply bool_decide_eq_false_1 in E. rewrite IH. split.
      * intros H. constructor; assumption.
      * intros H. inversion H; assumption.
Qed.

(** X13: in a 200 answer of part_000's mint the [tokenId] is the text
    "unknown" exactly when the confirmed receipt lists no Transfer event;
    otherwise it is a non-empty string of decimal digits, so the
    placeholder cannot be mistaken for an identifier. *)
Theorem mint_tokenId_is_unknown_or_decimal
        {S : Type} (w : World S) (st st2 : S) (req_body to : JsValue) (s h : jsstring)
        (tx : Tx) (receipt : Receipt) (resp : Response) :
  mint_fields req_body to (JString s) ->
  HashBinder s = Some h ->
  create_confirms w st to (JString s) h tx receipt st2 ->
  (run w (Part000.mint req_body) st).1.1 = Ok resp ->
  status resp = 200 ->
  exists tokenId,
    body resp = Some (minted tx tokenId (JString s))
    /\ (tokenId = js "unknown"
        <-> Forall (fun log => fragment log <> Some (js "Transfer")) (logs receipt))
    /\ (tokenId <> js "unknown" ->
        tokenId <> [] /\ forallb Json.is_digit tokenId = true).
Proof.
  intros Hf Hh Hc Hrun H200.
  rewrite (part_mint_confirmed w _ _ _ _ _ _ _ _ Hf Hh Hc) in Hrun. cbn [fst] in Hrun.
  pose proof (find_transfer_None (logs receipt)) as Hnone.
  destruct (Part000.find_transfer (logs receipt)) as [ev|].
  - destruct (args_tokenId ev) as [n|]; injection Hrun as <-; [|discriminate].
    exists (bigint_toString n). split; [reflexivity|]. split.
    + split.
      * intros H. destruct (bigint_toString_not_unknown n H).
      * intros H. apply Hnone in H. discriminate.
    + intros _. apply bigint_toString_digits.
  - injection Hrun as <-. exists (js "unknown"). split; [reflexivity|].
    split; [split; [intros _; apply Hnone; reflexivity | reflexivity]|].
    intros H. destruct (H eq_refl).
Qed.

Lemma mint_tokenId_is_unknown_or_decimal_witness :
  mint_fields scenarioA (JString (js "0xABC")) (JString (js "ipfs://Qm123"))
  /\ HashBinder (js "ipfs://Qm123") = Some hashA
  /\ (run busy_ledger (Part000.mint scenarioA) tt).1.1
     = Ok (json 200 (minted (mkTx (js "0xfeed")) (js "7") (JString (js "ipfs://Qm123"))))
  /\ exists tokenId,
      body (json 200 (minted (mkTx (js "0xfeed")) (js "7") (JString (js "ipfs://Qm123"))))
      = Some (minted (mkTx (js "0xfeed")) tokenId (JString (js "ipfs://Qm123")))
      /\ (tokenId = js "unknown"
          <-> Forall (fun log => fragment log <> Some (js "Transfer")) (logs busy_receipt))
      /\ (tokenId <> js "unknown" ->
          tokenId <> [] /\ forallb Json.is_digit tokenId = true).
Proof.
  split; [exact scenarioA_fields|]. split; [exact HashBinder_A|].
  split; [reflexivity|].
  exact (mint_tokenId_is_unknown_or_decimal
           busy_ledger tt tt scenarioA _ _ _ _ _ _
           scenarioA_fields HashBinder_A busy_confirms eq_refl eq_refl).
Defined.

(* ===================================================================== *)
(** ** POST /evolve/:tokenId of part_000 *)
(* ===================================================================== *)

(** X14: part_000's evolve never answers 200 without a confirmed update.
    In any world, when the answer has status 200, [metadataUri] was a
    truthy string with a UTF-8 encoding, commitEvolution was submitted for
    the identifier of the path, as given, with that reference and its
    HashBinder, it resolved to a transaction and wait() on it resolved;
    these were the only calls, and the answer echoes the identifier, the
    reference and that transaction's hash. *)
Theorem evolve_200_means_confirmed
        {S : Type} (w : World S) (st st' : S) (tokenId : jsstring) (req_body : JsValue)
        (resp : Response) (tr : list ExtCall) :
  run w (Part000.evolve tokenId req_body) st = (Ok resp, st', tr) ->
  status resp = 200 ->
  exists s h tx receipt,
    destructure (js "metadataUri") req_body = Ok (JString s)
    /\ s <> []
    /\ HashBinder s = Some h
    /\ update_confirms w st tokenId (JString s) h tx receipt st'
    /\ tr = [CommitEvolution tokenId (JString s) h; TxWait tx]
    /\ resp = json 200 (JObject [(js "success", JBool true);
                                 (js "txHash", JString (tx_hash tx));
                                 (js "tokenId", JString tokenId);
                                 (js "metadataUri", JString s)]).
Proof.
  unfold Part000.evolve, evolveNFT, mbind, prog_bind, mret, prog_ret, await.
  destruct (destructure (js "metadataUri") req_body) as [uri|e] eqn:Huri;
    cbn [lift bind try_catch run]; [|intros [= <- _ _]; discriminate].
  destruct (truthy uri) eqn:Turi; cbn [negb lift bind try_catch run];
    [|intros [= <- _ _]; discriminate].
  destruct (toUtf8Bytes uri) as [data|e] eqn:Hu; cbn [lift bind try_catch run];
    [|intros [= <- _ _]; discriminate].
  destruct (toUtf8Bytes_hash _ _ Hu) as (s & -> & Hh).
  destruct (answer w st _) as [st1 [tx|e]] eqn:H1; cbn [lift bind try_catch run];
    [|intros [= <- _ _]; discriminate].
  destruct (answer w st1 _) as [st2 [r|e]] eqn:H2; cbn [lift bind try_catch run];
    [|intros [= <- _ _]; discriminate].
  intros [= <- <- <-] _.
  exists s, (keccak256 data), tx, r.
  split; [reflexivity|]. split; [intros ->; discriminate|]. split; [exact Hh|].
  split; [exists st1; split; assumption|]. split; reflexivity.
Qed.

Lemma evolve_200_means_confirmed_witness :
  run faithful (Part000.evolve (js "1") scenarioB) after_mintA
  = (Ok (json 200 (JObject [(js "success", JBool true);
                            (js "txHash", JString (tx_hash (tx_of 1)));
                            (js "tokenId", JString (js "1"));
                            (js "metadataUri", JString (js "ipfs://Qm999"))])),
     after_evolveB,
     [CommitEvolution (js "1") (JString (js "ipfs://Qm999")) hashB; TxWait (tx_of 1)])
  /\ exists s h tx receipt,
      destructure (js "metadataUri") scenarioB = Ok (JString s)
      /\ s <> []
      /\ HashBinder s = Some h
      /\ update_confirms faithful after_mintA (js "1") (JString s) h tx receipt after_evolveB
      /\ [CommitEvolution (js "1") (JString (js "ipfs://Qm999")) hashB; TxWait (tx_of 1)]
         = [CommitEvolution (js "1") (JString s) h; TxWait tx]
      /\ json 200 (JObject [(js "success", JBool true);
                            (js "txHash", JString (tx_hash (tx_of 1)));
                            (js "tokenId", JString (js "1"));
                            (js "metadataUri", JString (js "ipfs://Qm999"))])
         = json 200 (JObject [(js "success", JBool true);
                              (js "txHash", JString (tx_hash tx));
                              (js "tokenId", JString (js "1"));
                              (js "metadataUri", JString s)]).
Proof.
  assert (Hrun : run faithful (Part000.evolve (js "1") scenarioB) after_mintA
                 = (Ok (json 200 (JObject [(js "success", JBool true);
                                           (js "txHash", JString (tx_hash (tx_of 1)));
                                           (js "tokenId", JString (js "1"));
                                           (js "metadataUri", JString (js "ipfs://Qm999"))])),
                    after_evolveB,
                    [CommitEvolution (js "1") (JString (js "ipfs://Qm999")) hashB;
                     TxWait (tx_of 1)]))
    by (vm_compute; reflexivity).
  split; [exact Hrun|].
  exact (evolve_200_means_confirmed faithful after_mintA after_evolveB (js "1") scenarioB
                                    _ _ Hrun eq_refl).
Defined.

(** X15: an update that the ledger rejects (an identifier it does not
    hold, a signer it does not accept) is answered by part_000's evolve
    with 500 and {success:false, error} carrying the message of the
    rejection, and is not waited for; a rejected wait is answered the same
    way, without the transaction hash. *)
Theorem evolve_reports_ledger_rejection
        {S : Type} (w : World S) (st st' : S) (tokenId : jsstring) (req_body : JsValue)
        (s h : jsstring) (e : JsError) (tr : list ExtCall) :
  destructure (js "metadataUri") req_body = Ok (JString s) ->
  s <> [] ->
  HashBinder s = Some h ->
  (answer w st (CommitEvolution tokenId (JString s) h) = (st', Err e)
   /\ tr = [CommitEvolution tokenId (JString s) h])
  \/ (exists tx st1,
         answer w st (CommitEvolution tokenId (JString s) h) = (st1, Ok tx)
         /\ answer w st1 (TxWait tx) = (st', Err e)
         /\ tr = [CommitEvolution tokenId (JString s) h; TxWait tx]) ->
  run w (Part000.evolve tokenId req_body) st
  = (Ok (json 500 (failure_body (message e))), st', tr).
Proof.
  intros Huri Hne Hh Hrej.
  apply HashBinder_Some in Hh as (data & E & ->).
  unfold Part000.evolve, evolveNFT, mbind, prog_bind, mret, prog_ret, await.
  rewrite Huri. cbn [lift bind try_catch run].
  assert (Ht : truthy (JString s) = true) by (destruct s; [contradiction | reflexivity]).
  rewrite Ht. cbn [negb]. rewrite (toUtf8Bytes_string _ _ E).
  cbn [lift bind try_catch run].
  destruct Hrej as [[H1 ->] | (tx & st1 & H1 & H2 & ->)];
    rewrite H1; cbn [lift bind try_catch run]; [reflexivity|].
  rewrite H2. reflexivity.
Qed.

Lemma evolve_reports_ledger_rejection_witness :
  destructure (js "metadataUri") scenarioB = Ok (JString (js "ipfs://Qm999"))
  /\ js "ipfs://Qm999" <> []
  /\ HashBinder (js "ipfs://Qm999") = Some hashB
  /\ run faithful (Part000.evolve (js "7") scenarioB) genesis
     = (Ok (json 500 (failure_body (js "execution reverted"))), genesis,
        [CommitEvolution (js "7") (JString (js "ipfs://Qm999")) hashB]).
Proof.
  assert (Hne : js "ipfs://Qm999" <> []) by discriminate.
  split; [reflexivity|]. split; [exact Hne|]. split; [exact HashBinder_B|].
  apply (evolve_reports_ledger_rejection
           faithful genesis genesis (js "7") scenarioB _ _ reverted _
           eq_refl Hne HashBinder_B).
  left. split; reflexivity.
Defined.

(* ===================================================================== *)
(** ** Which calls an endpoint makes, and how many *)
(* ===================================================================== *)

Section Counting.
Context {A : Type} (f : ExtCall -> bool).

Lemma at_most_mono (n m : nat) (p : prog A) :
  (n <= m)%nat -> at_most f n p -> at_most f m p.
Proof.
  revert n m. induction p as [a|e|c k IH]; simpl; auto.
  intros n m Hle. destruct (f c).
  - destruct n as [|n]; [contradiction|]. destruct m as [|m]; [lia|].
    intros H r. apply (IH r n m); [lia | apply H].
  - intros H r. apply (IH r n m); [lia | apply H].
Qed.

Lemma at_most_try_catch (n : nat) (p : prog A) (h : JsError -> prog A) :
  at_most f n p -> (forall e, at_most f 0 (h e)) -> at_most f n (try_catch p h).
Proof.
  intros Hp Hh. revert n Hp. induction p as [a|e|c k IH]; simpl; auto.
  - intros n _. apply (at_most_mono 0 n); [lia | apply Hh].
  - intros n. destruct (f c).
    + destruct n as [|n]; [contradiction|]. intros H r. apply IH, H.
    + intros H r. apply IH, H.
Qed.

Lemma run_at_most {S : Type} (w : World S) (n : nat) (p : prog A) (st : S) :
  at_most f n p -> (count_calls f (run w p st).2 <= n)%nat.
Proof.
  revert n st. induction p as [a|e|c k IH]; simpl; intros n st Hp; try (cbn; lia).
  destruct (answer w st c) as [s1 r].
  destruct (f c) eqn:Hc.
  - destruct n as [|n]; [contradiction|].
    specialize (IH r n s1 (Hp r)).
    destruct (run w (k r) s1) as [[o s2] tr]. unfold count_calls in *. simpl in *.
    rewrite Hc. simpl. lia.
  - specialize (IH r n s1 (Hp r)).
    destruct (run w (k r) s1) as [[o s2] tr]. unfold count_calls in *. simpl in *.
    rewrite Hc. exact IH.
Qed.

End Counting.

Lemma at_most_bind {A B : Type} (f : ExtCall -> bool) (n m : nat) (p : prog A)
      (k : A -> prog B) :
  at_most f n p -> (forall a, at_most f m (k a)) -> at_most f (n + m) (bind p k).
Proof.
  intros Hp Hk. revert n Hp. induction p as [a|e|c k' IH]; simpl; auto.
  - intros n _. apply (at_most_mono f m (n + m)); [lia | apply Hk].
  - intros n. destruct (f c).
    + destruct n as [|n]; [contradiction|]. intros H r. apply (IH r n), H.
    + intros H r. apply IH, H.
Qed.

Lemma at_most_lift {A : Type} (f : ExtCall -> bool) (n : nat) (r : result A) :
  at_most f n (lift r).
Proof. destruct r; exact I. Qed.

Lemma at_most_await (f : ExtCall -> bool) (c : ExtCall) : at_most f 1 (await c).
Proof. unfold await. simpl. destruct (f c); intros r; apply at_most_lift. Qed.

Lemma at_most_await_other (f : ExtCall -> bool) (c : ExtCall) :
  f c = false -> at_most f 0 (await c).
Proof. intros H. unfold await. simpl. rewrite H. intros r. apply at_most_lift. Qed.

Local Ltac walk_handler :=
  unfold ping, token, IndexJs.mint, IndexJs.evolve, Part000.mint, Part000.evolve,
         Part000.upload_image, IndexJs.mintNFT, Part000.mintNFT, evolveNFT, getTokenURI,
         uploadImageToPinata, uploadJSONToPinata, mbind, prog_bind, mret, prog_ret, await;
  cbv zeta;
  repeat first
    [ match goal with |- True => exact I end
    | match goal with |- _ = true => reflexivity end
    | progress cbn [at_most every_call bind try_catch lift is_write is_store_call
                    allowed_call]
    | match goal with
      | |- forall _, _ => intro
      | |- _ /\ _ => split
      | |- context [lift ?r] => destruct r
      | |- context [if ?b then _ else _] => destruct b
      | |- context [match ?x with Some _ => _ | None => _ end] => destruct x
      end ].

Lemma serve_allowed_calls (req : IndexJsApp.Request + Part000App.Request) :
  every_call (fun c => allowed_call req c = true) (serve_any req).
Proof.
  destruct req as [[|b|t f b|t]|[|b|t b|f b|t]];
    cbn [serve_any IndexJsApp.serve Part000App.serve]; walk_handler.
Qed.

Lemma serve_writes_once (req : IndexJsApp.Request + Part000App.Request) :
  at_most is_write 1 (serve_any req).
Proof.
  destruct req as [[|b|t f b|t]|[|b|t b|f b|t]];
    cbn [serve_any IndexJsApp.serve Part000App.serve]; walk_handler.
Qed.

Lemma serve_uploads_twice (req : IndexJsApp.Request + Part000App.Request) :
  at_most is_store_call 2 (serve_any req).
Proof.
  destruct req as [[|b|t f b|t]|[|b|t b|f b|t]];
    cbn [serve_any IndexJsApp.serve Part000App.serve]; walk_handler.
Qed.

Lemma serve_four_calls (req : IndexJsApp.Request + Part000App.Request) :
  at_most (fun _ => true) 4 (serve_any req).
Proof.
  destruct req as [[|b|t f b|t]|[|b|t b|f b|t]];
    cbn [serve_any IndexJsApp.serve Part000App.serve]; walk_handler.
Qed.

Lemma count_all_calls (tr : list ExtCall) : count_calls (fun _ => true) tr = length tr.
Proof. unfold count_calls. induction tr; simpl; auto. Qed.

(** X16: what a request can set in motion.  In any world, a request to
    either server makes at most four calls, at most two of them uploads
    and at most one of them a write to the ledger: nothing is retried.  The
    calls are of the kinds of its endpoint only: /mint submits safeMint and
    waits, part_000's /evolve submits commitEvolution and waits, index.js's
    /evolve uploads, submits commitEvolution and waits, /upload-image only
    uploads, /token only reads, /ping calls nothing.  So /token and
    /upload-image never write the ledger, /mint never updates a record and
    /evolve never creates one. *)
Theorem endpoint_calls_are_bounded
        {S : Type} (w : World S) (st : S)
        (req : IndexJsApp.Request + Part000App.Request) :
  Forall (fun c => allowed_call req c = true) (run w (serve_any req) st).2
  /\ (count_calls is_write (run w (serve_any req) st).2 <= 1)%nat
  /\ (count_calls is_store_call (run w (serve_any req) st).2 <= 2)%nat
  /\ (length (run w (serve_any req) st).2 <= 4)%nat.
Proof.
  split; [apply run_every_call, serve_allowed_calls|].
  split; [apply run_at_most, serve_writes_once|].
  split; [apply run_at_most, serve_uploads_twice|].
  rewrite <- count_all_calls. apply run_at_most, serve_four_calls.
Qed.

(* ===================================================================== *)
(** ** The success field *)
(* ===================================================================== *)

Local Ltac walk_returns :=
  unfold ping, token, IndexJs.mint, IndexJs.evolve, Part000.mint, Part000.evolve,
         Part000.upload_image, IndexJs.mintNFT, Part000.mintNFT, evolveNFT, getTokenURI,
         uploadImageToPinata, uploadJSONToPinata, mbind, prog_bind, mret, prog_ret, await,
         every_return;
  cbv zeta;
  repeat first
    [ progress cbn [outcomes bind try_catch lift]
    | match goal with
      | |- flag_matches _ =>
        let H := fresh in
        intros ? H; injection H as <-; split; intros H; first [reflexivity | discriminate H]
      | |- forall _, _ => intro
      | |- context [lift ?r] => destruct r
      | |- context [if ?b then _ else _] => destruct b
      | |- context [match ?x with Some _ => _ | None => _ end] => destruct x
      end ].

Lemma serve_flag_matches (req : IndexJsApp.Request + Part000App.Request) :
  every_return flag_matches (serve_any req).
Proof.
  destruct req as [[|b|t f b|t]|[|b|t b|f b|t]];
    cbn [serve_any IndexJsApp.serve Part000App.serve]; walk_returns.
  all: intros ? [=].
Qed.

(** X17: in every JSON answer of either server the [success] field and
    the status agree: the body says success:true exactly when the status
    is 200.  No failure (400 or 500) is sent with success:true, and every
    200 that has a JSON body says success:true. *)
Theorem success_field_agrees_with_status
        {S : Type} (w : World S) (st : S)
        (req : IndexJsApp.Request + Part000App.Request) :
  exists resp,
    (run w (serve_any req) st).1.1 = Ok resp
    /\ forall fields,
        body resp = Some (JObject fields) ->
        (lookup_field (js "success") fields = JBool true <-> status resp = 200).
Proof. apply run_every_return, serve_flag_matches. Qed.

(* ===================================================================== *)
(** ** References in ASCII *)
(* ===================================================================== *)

Lemma utf8_encode_ascii (s : jsstring) :
  Forall (fun c => c < 0x80) s -> Utf8.encode s = Some s.
Proof.
  induction 1 as [|c s Hc _ IH]; [reflexivity|].
  change (Utf8.encode (c :: s))
    with (if c <? 0x80 then cons c <$> Utf8.encode s
          else if c <? 0x800 then
                 (fun r => Z.lor (Z.shiftr c 6) 0xc0 :: Z.lor (Z.land c 0x3f) 0x80 :: r)
                   <$> Utf8.encode s
          else if Z.land c 0xfc00 =? 0xd800 then
                 match s with
                 | c2 :: rest =>
                   if Z.land c2 0xfc00 =? 0xdc00 then
                     let pair := 0x10000 + Z.shiftl (Z.land c 0x03ff) 10
                                 + Z.land c2 0x03ff in
                     (fun r => Z.lor (Z.shiftr pair 18) 0xf0
                               :: Z.lor (Z.land (Z.shiftr pair 12) 0x3f) 0x80
                               :: Z.lor (Z.land (Z.shiftr pair 6) 0x3f) 0x80
                               :: Z.lor (Z.land pair 0x3f) 0x80 :: r) <$> Utf8.encode rest
                   else None
                 | [] => None
                 end
          else (fun r => Z.lor (Z.shiftr c 12) 0xe0
                         :: Z.lor (Z.land (Z.shiftr c 6) 0x3f) 0x80
                         :: Z.lor (Z.land c 0x3f) 0x80 :: r) <$> Utf8.encode s).
  rewrite (proj2 (Z.ltb_lt c 0x80) Hc), IH. reflexivity.
Qed.

(** X18: a reference made of ASCII characters only (every "ipfs://..."
    URI) is encoded byte for byte as its own code units, so the hash that
    mintNFT and evolveNFT submit for it is keccak256 of the characters as
    they stand; the encoding cannot fail for it. *)
Theorem ascii_reference_is_hashed_as_it_stands (s : jsstring) :
  Forall (fun c => c < 0x80) s ->
  toUtf8Bytes (JString s) = Ok s
  /\ HashBinder s = Some (keccak256 s).
Proof.
  intros Hs. pose proof (utf8_encode_ascii s Hs) as E. split.
  - apply toUtf8Bytes_string, E.
  - apply HashBinder_Some. eauto.
Qed.

Lemma ascii_reference_is_hashed_as_it_stands_witness :
  Forall (fun c => c < 0x80) (js "ipfs://Qm123")
  /\ toUtf8Bytes (JString (js "ipfs://Qm123")) = Ok (js "ipfs://Qm123")
  /\ HashBinder (js "ipfs://Qm123") = Some (keccak256 (js "ipfs://Qm123")).
Proof.
  assert (H : Forall (fun c => c < 0x80) (js "ipfs://Qm123"))
    by (repeat constructor).
  split; [exact H|]. exact (ascii_reference_is_hashed_as_it_stands _ H).
Defined.

(* ===================================================================== *)
(** ** Create, read, update, read on the reference ledger *)
(* ===================================================================== *)

Lemma js_cons (a : ascii) (s : string) :
  js (String a s) = Z.of_N (N_of_ascii a) :: js s.
Proof. reflexivity. Qed.

Lemma decimal_value_acc (d : Decimal.uint) (p : positive) :
  decimal_value (Npos p) (js (NilEmpty.string_of_uint d))
  = Some (Npos (Pos.of_uint_acc d p)).
Proof.
  revert p. induction d as [|d IH|d IH|d IH|d IH|d IH|d IH|d IH|d IH|d IH|d IH];
    intros p; cbn [NilEmpty.string_of_uint Pos.of_uint_acc]; [reflexivity|..];
    rewrite js_cons; cbn [decimal_value]; cbn -[N.mul Pos.mul js];
    rewrite <- IH; f_equal; lia.
Qed.

Lemma decimal_value_zero (d : Decimal.uint) :
  decimal_value 0 (js (NilEmpty.string_of_uint d)) = Some (Pos.of_uint d).
Proof.
  induction d as [|d IH|d _|d _|d _|d _|d _|d _|d _|d _|d _];
    cbn [NilEmpty.string_of_uint Pos.of_uint]; [reflexivity|..];
    rewrite js_cons; cbn [decimal_value]; cbn -[N.mul Pos.mul js decimal_value];
    [exact IH | apply (decimal_value_acc d) ..].
Qed.

(** The decimal text of an identifier reads back as the identifier. *)
Lemma parse_id_toString (n : N) : parse_id (bigint_toString n) = Some n.
Proof.
  destruct (bigint_toString_digits n) as [Hne _].
  unfold parse_id. destruct (bigint_toString n) as [|c cs] eqn:E; [contradiction|].
  rewrite <- E. unfold bigint_toString. rewrite decimal_value_zero.
  f_equal. apply DecimalN.Unsigned.of_to.
Qed.

Lemma tx_number_of (n : N) : tx_number (tx_of n) = Some n.
Proof. unfold tx_number, tx_of. cbn [tx_hash]. apply parse_id_toString. Qed.

Lemma faithful_create_confirms ch to s h :
  create_confirms faithful ch to (JString s) h (tx_of (next_tx ch))
                  (mkReceipt [mkLog (Some (js "Transfer")) (Some (next_id ch))])
                  (after_create ch to s h).
Proof.
  exists (after_create ch to s h). split; [reflexivity|].
  cbn [faithful ledger answer chain_answer].
  rewrite tx_number_of. cbn [mbind option_bind].
  unfold after_create at 1. cbn [receipts]. rewrite lookup_insert_eq. reflexivity.
Qed.

Lemma faithful_update_confirms ch id rec s h :
  records ch !! id = Some rec ->
  update_confirms faithful ch (bigint_toString id) (JString s) h (tx_of (next_tx ch))
                  (mkReceipt []) (after_update ch id rec s h).
Proof.
  intros Hrec. exists (after_update ch id rec s h). split.
  - cbn [faithful ledger answer chain_answer].
    rewrite parse_id_toString. cbn [mbind option_bind]. rewrite Hrec. reflexivity.
  - cbn [faithful ledger answer chain_answer].
    rewrite tx_number_of. cbn [mbind option_bind].
    unfold after_update at 1. cbn [receipts]. rewrite lookup_insert_eq. reflexivity.
Qed.

Lemma faithful_read ch id rec :
  records ch !! id = Some rec ->
  run faithful (token (bigint_toString id)) ch
  = (Ok (json 200 (JObject [(js "success", JBool true);
                            (js "tokenId", JString (bigint_toString id));
                            (js "uri", JString (reference rec))])),
     ch, [TokenURI (bigint_toString id)]).
Proof.
  intros Hrec. unfold token, getTokenURI, mbind, prog_bind, await.
  cbn [lift bind try_catch run faithful ledger answer chain_answer].
  rewrite parse_id_toString. cbn [mbind option_bind]. rewrite Hrec. reflexivity.
Qed.

(** X19: on the reference ledger, what is written reads back.  From any
    state of the ledger, a valid POST /mint is answered with the decimal
    text of the identifier the ledger assigned; GET /token with that text
    then returns exactly the reference that was minted; and after a POST
    /evolve of that identifier with a new reference, GET /token returns
    exactly the new reference. *)
Theorem reference_reads_back_after_create_and_update
        (ch : Chain) (req_body to req_body2 : JsValue) (s h s2 h2 : jsstring) :
  mint_fields req_body to (JString s) ->
  HashBinder s = Some h ->
  destructure (js "metadataUri") req_body2 = Ok (JString s2) ->
  s2 <> [] ->
  HashBinder s2 = Some h2 ->
  let id := bigint_toString (next_id ch) in
  let ch1 := after_create ch to s h in
  let ch2 := after_update ch1 (next_id ch) (mkRecord to s h) s2 h2 in
  run faithful (Part000.mint req_body) ch
  = (Ok (json 200 (minted (tx_of (next_tx ch)) id (JString s))), ch1,
     [SafeMint to (JString s) h; TxWait (tx_of (next_tx ch))])
  /\ (run faithful (token id) ch1).1.1
     = Ok (json 200 (JObject [(js "success", JBool true);
                              (js "tokenId", JString id);
                              (js "uri", JString s)]))
  /\ run faithful (Part000.evolve id req_body2) ch1
     = (Ok (json 200 (JObject [(js "success", JBool true);
                               (js "txHash", JString (tx_hash (tx_of (next_tx ch1))));
                               (js "tokenId", JString id);
                               (js "metadataUri", JString s2)])), ch2,
        [CommitEvolution id (JString s2) h2; TxWait (tx_of (next_tx ch1))])
  /\ (run faithful (token id) ch2).1.1
     = Ok (json 200 (JObject [(js "success", JBool true);
                              (js "tokenId", JString id);
                              (js "uri", JString s2)])).
Proof.
  intros Hf Hh Hb2 Hne Hh2 id ch1 ch2.
  assert (Hrec1 : records ch1 !! next_id ch = Some (mkRecord to s h)).
  { unfold ch1, after_create. cbn [records]. apply lookup_insert_eq. }
  assert (Hrec2 : records ch2 !! next_id ch = Some (mkRecord to s2 h2)).
  { unfold ch2, after_update. cbn [records owner]. apply lookup_insert_eq. }
  split; [|split; [|split]].
  - rewrite (part_mint_confirmed faithful _ _ _ _ _ _ _ _ Hf Hh
               (faithful_create_confirms ch to s h)).
    reflexivity.
  - unfold id. rewrite (faithful_read ch1 _ _ Hrec1). reflexivity.
  - assert (Ht : truthy (JString s2) = true) by (destruct s2; [contradiction | reflexivity]).
    apply (part_evolve_confirmed faithful ch1 ch2 id req_body2 s2 h2 _ (mkReceipt [])
                                 Hb2 Ht Hh2).
    apply (faithful_update_confirms ch1 (next_id ch) (mkRecord to s h) s2 h2 Hrec1).
  - unfold id. rewrite (faithful_read ch2 _ _ Hrec2). reflexivity.
Qed.

Lemma reference_reads_back_after_create_and_update_witness :
  mint_fields scenarioA (JString (js "0xABC")) (JString (js "ipfs://Qm123"))
  /\ HashBinder (js "ipfs://Qm123") = Some hashA
  /\ destructure (js "metadataUri") scenarioB = Ok (JString (js "ipfs://Qm999"))
  /\ js "ipfs://Qm999" <> []
  /\ HashBinder (js "ipfs://Qm999") = Some hashB
  /\ (run faithful (token (bigint_toString (next_id genesis)))
          (after_update (after_create genesis (JString (js "0xABC")) (js "ipfs://Qm123") hashA)
                        (next_id genesis)
                        (mkRecord (JString (js "0xABC")) (js "ipfs://Qm123") hashA)
                        (js "ipfs://Qm999") hashB)).1.1
     = Ok (json 200 (JObject [(js "success", JBool true);
                              (js "tokenId", JString (bigint_toString (next_id genesis)));
                              (js "uri", JString (js "ipfs://Qm999"))])).
Proof.
  assert (Hne : js "ipfs://Qm999" <> []) by discriminate.
  split; [exact scenarioA_fields|]. split; [exact HashBinder_A|]. split; [reflexivity|].
  split; [exact Hne|]. split; [exact HashBinder_B|].
  exact (proj2 (proj2 (proj2 (reference_reads_back_after_create_and_update
                                genesis scenarioA _ scenarioB _ _ _ _
                                scenarioA_fields HashBinder_A eq_refl Hne HashBinder_B)))).
Defined.

(* ===================================================================== *)
(** ** What a 200 means on the upload endpoints *)
(* ===================================================================== *)

(** X20: index.js's evolve never answers 200 unless all four steps went
    through.  In any world, a 200 means that a file was sent, that its
    upload and the upload of the metadata document both succeeded, that the
    update of the token with the reference of that document was submitted
    and that the wait resolved; the answer names the transaction and the
    two identifiers the store returned. *)
Theorem index_evolve_200_means_all_steps
        {S : Type} (w : World S) (st st' : S) (tokenId : jsstring) (req_file : option File)
        (req_body : TextFields) (resp : Response) (tr : list ExtCall) :
  run w (IndexJs.evolve tokenId req_file req_body) st = (Ok resp, st', tr) ->
  status resp = 200 ->
  exists file imageCid attrs metadataCid st1 st2 h tx receipt,
    req_file = Some file
    /\ answer w st (PinFileToIPFS (buffer file) (originalname file)) = (st1, Ok imageCid)
    /\ parse_attributes (text_field (js "attributes") req_body) (JObject []) = Ok attrs
    /\ answer w st1 (PinJSONToIPFS (evolved_metadata tokenId imageCid attrs))
       = (st2, Ok metadataCid)
    /\ HashBinder (js "ipfs://" ++ metadataCid) = Some h
    /\ update_confirms w st2 tokenId (JString (js "ipfs://" ++ metadataCid)) h tx receipt st'
    /\ tr = [PinFileToIPFS (buffer file) (originalname file);
             PinJSONToIPFS (evolved_metadata tokenId imageCid attrs);
             CommitEvolution tokenId (JString (js "ipfs://" ++ metadataCid)) h;
             TxWait tx]
    /\ resp = json 200 (JObject [(js "success", JBool true);
                                 (js "txHash", JString (tx_hash tx));
                                 (js "imageCid", JString imageCid);
                                 (js "metadataCid", JString metadataCid)]).
Proof.
  intros Hrun H200. revert Hrun.
  destruct req_file as [file|]; [|intros [= <- _ _]; discriminate].
  match goal with |- _ -> ?g => set (G := g) end.
  rewrite index_evolve_with_file.
  unfold uploadImageToPinata, uploadJSONToPinata, evolveNFT, mbind, prog_bind, mret,
         prog_ret, await.
  cbn [lift bind try_catch run].
  destruct (answer w st _) as [st1 [imageCid|e]] eqn:H1; cbn [lift bind try_catch run];
    [|intros [= <- _ _]; discriminate].
  destruct (parse_attributes _ _) as [attrs|e] eqn:Hp; cbn [lift bind try_catch run];
    [|intros [= <- _ _]; discriminate].
  destruct (answer w st1 _) as [st2 [metadataCid|e]] eqn:H2; cbn [lift bind try_catch run];
    [|intros [= <- _ _]; discriminate].
  destruct (toUtf8Bytes (JString (js "ipfs://" ++ metadataCid))) as [data|e] eqn:Hu;
    cbn [lift bind try_catch run]; [|intros [= <- _ _]; discriminate].
  pose proof (bound_hash _ _ Hu) as Hh. cbn beta iota in Hh.
  destruct (answer w st2 _) as [st3 [tx|e]] eqn:H3; cbn [lift bind try_catch run];
    [|intros [= <- _ _]; discriminate].
  destruct (answer w st3 _) as [st4 [r|e]] eqn:H4; cbn [lift bind try_catch run];
    [|intros [= <- _ _]; discriminate].
  intros [= <- <- <-]. subst G.
  exists file, imageCid, attrs, metadataCid, st1, st2, (keccak256 data), tx, r.
  repeat (split; [first [reflexivity | assumption]|]).
  split; [exists st3; split; assumption|]. split; reflexivity.
Qed.

(** X21: /upload-image never answers 200 unless both uploads succeeded.
    In any world, a 200 means that a file was sent, that [attributes] was
    absent, empty or valid JSON, and that the store accepted the file and
    then the metadata document; the answer then holds the two identifiers
    the store returned, and its [metadata] is the document that was
    pinned. *)
Theorem upload_image_200_means_both_uploads
        {S : Type} (w : World S) (st st' : S) (req_file : option File)
        (req_body : TextFields) (resp : Response) (tr : list ExtCall) :
  run w (Part000.upload_image req_file req_body) st = (Ok resp, st', tr) ->
  status resp = 200 ->
  exists file imageCid attrs metadataCid st1,
    req_file = Some file
    /\ answer w st (PinFileToIPFS (buffer file) (originalname file)) = (st1, Ok imageCid)
    /\ parse_attributes (text_field (js "attributes") req_body) (JArray []) = Ok attrs
    /\ answer w st1 (PinJSONToIPFS (image_metadata req_body imageCid attrs))
       = (st', Ok metadataCid)
    /\ tr = [PinFileToIPFS (buffer file) (originalname file);
             PinJSONToIPFS (image_metadata req_body imageCid attrs)]
    /\ resp = json 200 (JObject [(js "success", JBool true);
                                 (js "imageCid", JString imageCid);
                                 (js "metadataCid", JString metadataCid);
                                 (js "metadataUri", JString (js "ipfs://" ++ metadataCid));
                                 (js "metadata", image_metadata req_body imageCid attrs)]).
Proof.
  intros Hrun H200. revert Hrun.
  destruct req_file as [file|]; [|intros [= <- _ _]; discriminate].
  match goal with |- _ -> ?g => set (G := g) end.
  rewrite upload_image_with_file.
  unfold uploadImageToPinata, uploadJSONToPinata, mbind, prog_bind, mret, prog_ret, await.
  cbn [lift bind try_catch run].
  destruct (answer w st _) as [st1 [imageCid|e]] eqn:H1; cbn [lift bind try_catch run];
    [|intros [= <- _ _]; discriminate].
  destruct (parse_attributes _ _) as [attrs|e] eqn:Hp; cbn [lift bind try_catch run];
    [|intros [= <- _ _]; discriminate].
  destruct (answer w st1 _) as [st2 [metadataCid|e]] eqn:H2; cbn [lift bind try_catch run];
    [|intros [= <- _ _]; discriminate].
  intros [= <- <- <-]. subst G.
  exists file, imageCid, attrs, metadataCid, st1.
  repeat (split; [first [reflexivity | assumption]|]). reflexivity.
Qed.

Lemma index_evolve_200_means_all_steps_witness :
  run faithful (IndexJs.evolve (js "1") (Some a_file) []) after_mintA
  = (Ok (json 200 (JObject [(js "success", JBool true);
                            (js "txHash", JString (tx_hash (tx_of 1)));
                            (js "imageCid", JString (js "Qm0"));
                            (js "metadataCid", JString (js "Qm1"))])),
     (run faithful (IndexJs.evolve (js "1") (Some a_file) []) after_mintA).1.2,
     (run faithful (IndexJs.evolve (js "1") (Some a_file) []) after_mintA).2)
  /\ exists file imageCid attrs metadataCid st1 st2 h tx receipt,
      Some a_file = Some file
      /\ answer faithful after_mintA (PinFileToIPFS (buffer file) (originalname file))
         = (st1, Ok imageCid)
      /\ parse_attributes (text_field (js "attributes") []) (JObject []) = Ok attrs
      /\ answer faithful st1 (PinJSONToIPFS (evolved_metadata (js "1") imageCid attrs))
         = (st2, Ok metadataCid)
      /\ HashBinder (js "ipfs://" ++ metadataCid) = Some h
      /\ update_confirms faithful st2 (js "1") (JString (js "ipfs://" ++ metadataCid)) h
                         tx receipt
                         (run faithful (IndexJs.evolve (js "1") (Some a_file) []) after_mintA).1.2
      /\ (run faithful (IndexJs.evolve (js "1") (Some a_file) []) after_mintA).2
         = [PinFileToIPFS (buffer file) (originalname file);
            PinJSONToIPFS (evolved_metadata (js "1") imageCid attrs);
            CommitEvolution (js "1") (JString (js "ipfs://" ++ metadataCid)) h;
            TxWait tx]
      /\ json 200 (JObject [(js "success", JBool true);
                            (js "txHash", JString (tx_hash (tx_of 1)));
                            (js "imageCid", JString (js "Qm0"));
                            (js "metadataCid", JString (js "Qm1"))])
         = json 200 (JObject [(js "success", JBool true);
                              (js "txHash", JString (tx_hash tx));
                              (js "imageCid", JString imageCid);
                              (js "metadataCid", JString metadataCid)]).
Proof.
  assert (Hrun : run faithful (IndexJs.evolve (js "1") (Some a_file) []) after_mintA
                 = (Ok (json 200 (JObject [(js "success", JBool true);
                                           (js "txHash", JString (tx_hash (tx_of 1)));
                                           (js "imageCid", JString (js "Qm0"));
                                           (js "metadataCid", JString (js "Qm1"))])),
                    (run faithful (IndexJs.evolve (js "1") (Some a_file) []) after_mintA).1.2,
                    (run faithful (IndexJs.evolve (js "1") (Some a_file) []) after_mintA).2))
    by (vm_compute; reflexivity).
  split; [exact Hrun|].
  exact (index_evolve_200_means_all_steps faithful after_mintA _ (js "1") (Some a_file) []
                                          _ _ Hrun eq_refl).
Defined.

Lemma upload_image_200_means_both_uploads_witness :
  run faithful (Part000.upload_image (Some a_file) []) genesis
  = (Ok (json 200 (JObject [(js "success", JBool true);
                            (js "imageCid", JString (js "Qm0"));
                            (js "metadataCid", JString (js "Qm1"));
                            (js "metadataUri", JString (js "ipfs://" ++ js "Qm1"));
                            (js "metadata", image_metadata [] (js "Qm0") (JArray []))])),
     mkChain ∅ 1 ∅ 0 2,
     [PinFileToIPFS (buffer a_file) (originalname a_file);
      PinJSONToIPFS (image_metadata [] (js "Qm0") (JArray []))])
  /\ exists file imageCid attrs metadataCid st1,
      Some a_file = Some file
      /\ answer faithful genesis (PinFileToIPFS (buffer file) (originalname file))
         = (st1, Ok imageCid)
      /\ parse_attributes (text_field (js "attributes") []) (JArray []) = Ok attrs
      /\ answer faithful st1 (PinJSONToIPFS (image_metadata [] imageCid attrs))
         = (mkChain ∅ 1 ∅ 0 2, Ok metadataCid)
      /\ [PinFileToIPFS (buffer a_file) (originalname a_file);
          PinJSONToIPFS (image_metadata [] (js "Qm0") (JArray []))]
         = [PinFileToIPFS (buffer file) (originalname file);
            PinJSONToIPFS (image_metadata [] imageCid attrs)]
      /\ json 200 (JObject [(js "success", JBool true);
                            (js "imageCid", JString (js "Qm0"));
                            (js "metadataCid", JString (js "Qm1"));
                            (js "metadataUri", JString (js "ipfs://" ++ js "Qm1"));
                            (js "metadata", image_metadata [] (js "Qm0") (JArray []))])
         = json 200 (JObject [(js "success", JBool true);
                              (js "imageCid", JString imageCid);
                              (js "metadataCid", JString metadataCid);
                              (js "metadataUri", JString (js "ipfs://" ++ metadataCid));
                              (js "metadata", image_metadata [] imageCid attrs)]).
Proof.
  assert (Hrun : run faithful (Part000.upload_image (Some a_file) []) genesis
                 = (Ok (json 200 (JObject [(js "success", JBool true);
                                           (js "imageCid", JString (js "Qm0"));
                                           (js "metadataCid", JString (js "Qm1"));
                                           (js "metadataUri", JString (js "ipfs://" ++ js "Qm1"));
                                           (js "metadata",
                                            image_metadata [] (js "Qm0") (JArray []))])),
                    mkChain ∅ 1 ∅ 0 2,
                    [PinFileToIPFS (buffer a_file) (originalname a_file);
                     PinJSONToIPFS (image_metadata [] (js "Qm0") (JArray []))]))
    by (vm_compute; reflexivity).
  split; [exact Hrun|].
  exact (upload_image_200_means_both_uploads faithful genesis _ (Some a_file) [] _ _
                                             Hrun eq_refl).
Defined.

(* ===================================================================== *)
(** ** The encoding of a reference loses nothing *)
(* ===================================================================== *)

Lemma all_bits_sound n : forall f, all_bits n f = true ->
  forall z, 0 <= z < 2 ^ Z.of_nat n -> f z = true.
Proof.
  induction n as [|n IH]; intros f H z Hz.
  - simpl in *. assert (z = 0) by lia. subst. exact H.
  - cbn [all_bits] in H. apply andb_prop in H as [H0 H1].
    rewrite Nat2Z.inj_succ, Z.pow_succ_r in Hz by lia.
    pose proof (Z.div_mod z 2 ltac:(lia)) as Hd.
    pose proof (Z.mod_pos_bound z 2 ltac:(lia)) as Hm.
    assert (Hq : 0 <= z / 2 < 2 ^ Z.of_nat n).
    { split; [apply Z.div_pos; lia | apply Z.div_lt_upper_bound; lia]. }
    destruct (Z.eq_dec (z mod 2) 0) as [E|E].
    + pose proof (IH _ H0 _ Hq) as R. cbn beta in R.
      replace z with (2 * (z / 2)) by lia. exact R.
    + pose proof (IH _ H1 _ Hq) as R. cbn beta in R.
      replace z with (2 * (z / 2) + 1) by lia. exact R.
Qed.


Lemma lor_0x80 x : 0 <= x < 64 -> Z.lor x 0x80 = x + 128.
Proof.
  intros H.
  assert (C : all_bits 6 (fun x => Z.lor x 0x80 =? x + 128) = true) by (vm_compute; reflexivity).
  pose proof (all_bits_sound 6 _ C x H) as R. cbn beta in R. lia.
Qed.

Lemma lor_0xc0 x : 0 <= x < 32 -> Z.lor x 0xc0 = x + 192.
Proof.
  intros H.
  assert (C : all_bits 5 (fun x => Z.lor x 0xc0 =? x + 192) = true) by (vm_compute; reflexivity).
  pose proof (all_bits_sound 5 _ C x H) as R. cbn beta in R. lia.
Qed.

Lemma lor_0xe0 x : 0 <= x < 16 -> Z.lor x 0xe0 = x + 224.
Proof.
  intros H.
  assert (C : all_bits 4 (fun x => Z.lor x 0xe0 =? x + 224) = true) by (vm_compute; reflexivity).
  pose proof (all_bits_sound 4 _ C x H) as R. cbn beta in R. lia.
Qed.

Lemma lor_0xf0 x : 0 <= x < 8 -> Z.lor x 0xf0 = x + 240.
Proof.
  intros H.
  assert (C : all_bits 3 (fun x => Z.lor x 0xf0 =? x + 240) = true) by (vm_compute; reflexivity).
  pose proof (all_bits_sound 3 _ C x H) as R. cbn beta in R. lia.
Qed.

Lemma high_surrogate_range c :
  0 <= c < 65536 -> (Z.land c 0xfc00 =? 0xd800) = ((0xd800 <=? c) && (c <? 0xdc00)).
Proof.
  intros H.
  assert (C : all_bits 16 (fun c => Bool.eqb (Z.land c 0xfc00 =? 0xd800)
                                         ((0xd800 <=? c) && (c <? 0xdc00))) = true)
    by (vm_compute; reflexivity).
  pose proof (all_bits_sound 16 _ C c H) as R. cbn beta in R.
  apply Bool.eqb_prop in R. exact R.
Qed.

Lemma low_surrogate_range c :
  0 <= c < 65536 -> (Z.land c 0xfc00 =? 0xdc00) = ((0xdc00 <=? c) && (c <? 0xe000)).
Proof.
  intros H.
  assert (C : all_bits 16 (fun c => Bool.eqb (Z.land c 0xfc00 =? 0xdc00)
                                         ((0xdc00 <=? c) && (c <? 0xe000))) = true)
    by (vm_compute; reflexivity).
  pose proof (all_bits_sound 16 _ C c H) as R. cbn beta in R.
  apply Bool.eqb_prop in R. exact R.
Qed.

Lemma land_0x3f x : 0 <= x -> Z.land x 0x3f = x mod 64.
Proof. intros H. change 0x3f with (Z.ones 6). rewrite Z.land_ones by lia. reflexivity. Qed.

Lemma land_0x3ff x : 0 <= x -> Z.land x 0x3ff = x mod 1024.
Proof. intros H. change 0x3ff with (Z.ones 10). rewrite Z.land_ones by lia. reflexivity. Qed.

Lemma encode_cons c t :
  Utf8.encode (c :: t)
  = if c <? 0x80 then cons c <$> Utf8.encode t
    else if c <? 0x800 then
      (fun r => Z.lor (Z.shiftr c 6) 0xc0
                :: Z.lor (Z.land c 0x3f) 0x80 :: r) <$> Utf8.encode t
    else if Z.land c 0xfc00 =? 0xd800 then
      match t with
      | c2 :: rest =>
        if Z.land c2 0xfc00 =? 0xdc00 then
          let pair := 0x10000 + Z.shiftl (Z.land c 0x03ff) 10
                      + Z.land c2 0x03ff in
          (fun r => Z.lor (Z.shiftr pair 18) 0xf0
                    :: Z.lor (Z.land (Z.shiftr pair 12) 0x3f) 0x80
                    :: Z.lor (Z.land (Z.shiftr pair 6) 0x3f) 0x80
                    :: Z.lor (Z.land pair 0x3f) 0x80 :: r) <$> Utf8.encode rest
        else None
      | [] => None
      end
    else
      (fun r => Z.lor (Z.shiftr c 12) 0xe0
                :: Z.lor (Z.land (Z.shiftr c 6) 0x3f) 0x80
                :: Z.lor (Z.land c 0x3f) 0x80 :: r) <$> Utf8.encode t.
Proof. reflexivity. Qed.

Lemma encode_head c t b :
  code_units (c :: t) -> Utf8.encode (c :: t) = Some b ->
  exists hd rest r, head_of (c :: t) hd rest /\ Utf8.encode rest = Some r /\ b = hd ++ r.
Proof.
  intros Hu. inversion Hu as [|? ? Hc Ht]; subst.
  rewrite encode_cons.
  destruct (c <? 128) eqn:E1.
  { destruct (Utf8.encode t) as [r|] eqn:Er; cbn [fmap option_fmap option_map]; [|discriminate]. intros [= <-].
    exists [c], t, r. split; [constructor; lia|]. split; [exact Er | reflexivity]. }
  destruct (c <? 2048) eqn:E2.
  { destruct (Utf8.encode t) as [r|] eqn:Er; cbn [fmap option_fmap option_map]; [|discriminate]. intros [= <-].
    exists [c / 64 + 192; c mod 64 + 128], t, r. split; [constructor; lia|].
    split; [exact Er|].
    rewrite land_0x3f, Z.shiftr_div_pow2 by lia. change (2 ^ 6) with 64.
    rewrite lor_0xc0, lor_0x80; [reflexivity | |].
    - apply Z.mod_pos_bound. lia.
    - split; [apply Z.div_pos; lia | apply Z.div_lt_upper_bound; lia]. }
  rewrite high_surrogate_range by exact Hc.
  destruct ((55296 <=? c) && (c <? 56320)) eqn:E3.
  { destruct t as [|c2 rest]; [discriminate|].
    inversion Ht as [|? ? Hc2 Hrest]; subst.
    rewrite low_surrogate_range by exact Hc2.
    destruct ((56320 <=? c2) && (c2 <? 57344)) eqn:E4; [|discriminate].
    destruct (Utf8.encode rest) as [r|] eqn:Er; cbn [fmap option_fmap option_map]; [|discriminate]. intros [= <-].
    set (v := 65536 + (c - 0xd800) * 1024 + (c2 - 0xdc00)).
    exists [v / 262144 + 240; (v / 4096) mod 64 + 128; (v / 64) mod 64 + 128; v mod 64 + 128],
           rest, r.
    split; [apply head_four; [lia | lia | reflexivity]|].
    split; [exact Er|].
    rewrite !land_0x3ff by lia. rewrite Z.shiftl_mul_pow2 by lia. change (2 ^ 10) with 1024.
    assert (Hv : 65536 + c mod 1024 * 1024 + c2 mod 1024 = v).
    { unfold v. apply andb_prop in E3, E4. Z.div_mod_to_equations. lia. }
    rewrite Hv.
    assert (Hvr : 65536 <= v < 1114112) by (unfold v; lia).
    rewrite !Z.shiftr_div_pow2 by lia.
    change (2 ^ 18) with 262144. change (2 ^ 12) with 4096. change (2 ^ 6) with 64.
    rewrite !land_0x3f by (try apply Z.div_pos; lia).
    rewrite lor_0xf0, !lor_0x80; [reflexivity | | | |];
      try (apply Z.mod_pos_bound; lia).
    split; [apply Z.div_pos; lia | apply Z.div_lt_upper_bound; lia]. }
  destruct (Utf8.encode t) as [r|] eqn:Er; cbn [fmap option_fmap option_map]; [|discriminate]. intros [= <-].
  exists [c / 4096 + 224; (c / 64) mod 64 + 128; c mod 64 + 128], t, r.
  split; [apply head_three; lia|]. split; [exact Er|].
  rewrite !Z.shiftr_div_pow2 by lia.
  change (2 ^ 12) with 4096. change (2 ^ 6) with 64.
  rewrite !land_0x3f by (try apply Z.div_pos; lia).
  rewrite lor_0xe0, !lor_0x80; [reflexivity | | |];
    try (apply Z.mod_pos_bound; lia).
  split; [apply Z.div_pos; lia | apply Z.div_lt_upper_bound; lia].
Qed.

Lemma head_of_rest s hd rest :
  head_of s hd rest -> code_units s ->
  code_units rest /\ (length rest < length s)%nat /\ hd <> []
  /\ Forall (fun x => 0 <= x < 256) hd
  /\ (length s - length rest <= length hd <= 3 * (length s - length rest))%nat.
Proof.
  intros H Hu. unfold code_units in *.
  destruct H as [c t Hc|c t Hc|c t Hc Hn|c c2 t v Hc Hc2 Hv].
  - inversion Hu; subst. repeat split; [assumption | simpl; lia | discriminate | | simpl; lia ..].
    repeat constructor; lia.
  - inversion Hu; subst. repeat split; [assumption | simpl; lia | discriminate | | simpl; lia ..].
    repeat constructor; Z.div_mod_to_equations; lia.
  - inversion Hu; subst. repeat split; [assumption | simpl; lia | discriminate | | simpl; lia ..].
    repeat constructor; Z.div_mod_to_equations; lia.
  - inversion Hu as [|? ? ? Hu']; subst. inversion Hu'; subst.
    repeat split; [assumption | simpl; lia | discriminate | | simpl; lia ..].
    repeat constructor; Z.div_mod_to_equations; lia.
Qed.

Lemma head_of_inj s1 s2 hd1 hd2 rest1 rest2 r1 r2 :
  head_of s1 hd1 rest1 -> head_of s2 hd2 rest2 -> hd1 ++ r1 = hd2 ++ r2 ->
  r1 = r2 /\ (rest1 = rest2 -> s1 = s2).
Proof.
  intros H1 H2.
  destruct H1 as [c t Hc|c t Hc|c t Hc Hn|c c2 t v Hc Hc2 Hv];
    destruct H2 as [c' t' Hc'|c' t' Hc'|c' t' Hc' Hn'|c' c2' t' v' Hc' Hc2' Hv'];
    cbn [app]; intros E; injection E as E;
    try (exfalso; Z.div_mod_to_equations; lia).
  - subst. split; [reflexivity | intros ->; reflexivity].
  - subst r2. split; [reflexivity|]. intros ->. f_equal. Z.div_mod_to_equations; lia.
  - subst r2. split; [reflexivity|]. intros ->. f_equal. Z.div_mod_to_equations; lia.
  - subst r2. split; [reflexivity|]. intros ->.
    assert (v = v') by (Z.div_mod_to_equations; lia).
    assert (c = c' /\ c2 = c2') as [-> ->] by lia. reflexivity.
Qed.

Lemma encode_nil_inv s : code_units s -> Utf8.encode s = Some [] -> s = [].
Proof.
  intros Hu He. destruct s as [|c t]; [reflexivity|].
  destruct (encode_head c t [] Hu He) as (hd & rest & r & Hh & _ & E).
  destruct (head_of_rest _ _ _ Hh Hu) as (_ & _ & Hne & _).
  destruct hd; [congruence | discriminate].
Qed.

Lemma encode_injective_upto n :
  forall s1 s2 b, (length s1 < n)%nat -> code_units s1 -> code_units s2 ->
  Utf8.encode s1 = Some b -> Utf8.encode s2 = Some b -> s1 = s2.
Proof.
  induction n as [|n IH]; intros s1 s2 b Hlen Hu1 Hu2 H1 H2; [lia|].
  destruct s1 as [|c1 t1].
  { injection H1 as <-. symmetry. apply encode_nil_inv; assumption. }
  destruct s2 as [|c2 t2].
  { injection H2 as <-. apply encode_nil_inv; assumption. }
  destruct (encode_head _ _ _ Hu1 H1) as (hd1 & rest1 & r1 & Hh1 & Hr1 & E1).
  destruct (encode_head _ _ _ Hu2 H2) as (hd2 & rest2 & r2 & Hh2 & Hr2 & E2).
  destruct (head_of_rest _ _ _ Hh1 Hu1) as (Hur1 & Hl1 & _).
  destruct (head_of_rest _ _ _ Hh2 Hu2) as (Hur2 & _).
  assert (E : hd1 ++ r1 = hd2 ++ r2) by congruence.
  destruct (head_of_inj _ _ _ _ _ _ _ _ Hh1 Hh2 E) as [Hr Hs].
  apply Hs. subst r2.
  apply (IH rest1 rest2 r1); [simpl in *; lia | assumption ..].
Qed.

(** X22: the encoding of a reference loses nothing.  Two different strings
    (of 16-bit code units) that both have a UTF-8 encoding never have the
    same one, so mintNFT and evolveNFT hash different bytes for different
    references. *)
Theorem distinct_references_have_distinct_encodings (s1 s2 : jsstring) (b1 b2 : bytes) :
  code_units s1 -> code_units s2 -> s1 <> s2 ->
  Utf8.encode s1 = Some b1 -> Utf8.encode s2 = Some b2 -> b1 <> b2.
Proof.
  intros Hu1 Hu2 Hne H1 H2 ->. apply Hne.
  apply (encode_injective_upto (S (length s1)) s1 s2 b2); auto.
Qed.

Lemma distinct_references_have_distinct_encodings_witness :
  Utf8.encode [0xd83d; 0xde00] = Some [240; 159; 152; 128]
  /\ Utf8.encode [0xde00; 0xd83d; 0xde00] = Some [237; 184; 128; 240; 159; 152; 128]
  /\ [240; 159; 152; 128] <> [237; 184; 128; 240; 159; 152; 128].
Proof.
  split; [reflexivity|]. split; [reflexivity|].
  apply (distinct_references_have_distinct_encodings [0xd83d; 0xde00] [0xde00; 0xd83d; 0xde00]).
  - repeat constructor; lia.
  - repeat constructor; lia.
  - discriminate.
  - reflexivity.
  - reflexivity.
Defined.

Lemma encode_bytes_upto n :
  forall s b, (length s < n)%nat -> code_units s -> Utf8.encode s = Some b ->
  Forall (fun x => 0 <= x < 256) b /\ (length s <= length b <= 3 * length s)%nat.
Proof.
  induction n as [|n IH]; intros s b Hlen Hu He; [lia|].
  destruct s as [|c t].
  { injection He as <-. split; [constructor | simpl; lia]. }
  destruct (encode_head _ _ _ Hu He) as (hd & rest & r & Hh & Hr & ->).
  destruct (head_of_rest _ _ _ Hh Hu) as (Hur & Hl & _ & Hb & Hn).
  destruct (IH rest r ltac:(simpl in *; lia) Hur Hr) as [Hbr Hnr].
  split; [apply Forall_app; split; assumption|].
  rewrite length_app. lia.
Qed.

(** X23: what toUtf8Bytes hands to keccak256 is a list of bytes: every
    element of the encoding of a string lies between 0 and 255, and the
    encoding has at least as many bytes as the string has code units and at
    most three times as many. *)
Theorem utf8_encoding_is_bytes (s : jsstring) (b : bytes) :
  code_units s -> Utf8.encode s = Some b ->
  Forall (fun x => 0 <= x < 256) b /\ (length s <= length b <= 3 * length s)%nat.
Proof. intros. eapply (encode_bytes_upto (S (length s))); eauto. Qed.

Lemma utf8_encoding_is_bytes_witness :
  Utf8.encode [0xe9; 0x20ac; 0xd83d; 0xde00]
  = Some [0xc3; 0xa9; 0xe2; 0x82; 0xac; 0xf0; 0x9f; 0x98; 0x80]
  /\ Forall (fun x => 0 <= x < 256) [0xc3; 0xa9; 0xe2; 0x82; 0xac; 0xf0; 0x9f; 0x98; 0x80]
  /\ (length [0xe9; 0x20ac; 0xd83d; 0xde00]%Z
      <= length [0xc3; 0xa9; 0xe2; 0x82; 0xac; 0xf0; 0x9f; 0x98; 0x80]%Z
      <= 3 * length [0xe9; 0x20ac; 0xd83d; 0xde00]%Z)%nat.
Proof.
  split; [reflexivity|].
  apply (utf8_encoding_is_bytes [0xe9; 0x20ac; 0xd83d; 0xde00]).
  - repeat constructor; lia.
  - reflexivity.
Defined.

Lemma hexdigit_inj d d' : 0 <= d < 16 -> 0 <= d' < 16 -> hexdigit d = hexdigit d' -> d = d'.
Proof.
  unfold hexdigit. intros H H'.
  destruct (d <? 10) eqn:E, (d' <? 10) eqn:E'; lia.
Qed.

Lemma hexlify_inj (x y : bytes) :
  Forall (fun v => 0 <= v < 256) x -> Forall (fun v => 0 <= v < 256) y ->
  hexlify x = hexlify y -> x = y.
Proof.
  unfold hexlify. intros Hx Hy E. apply app_inv_head in E.
  revert y Hy E. induction Hx as [|a x Ha Hx IH]; intros y Hy E.
  - destruct y; [reflexivity | discriminate].
  - destruct Hy as [|a' y Ha' Hy]; [discriminate|].
    cbn [flat_map app] in E. injection E as E1 E2 E3.
    rewrite (IH y Hy E3). f_equal.
    rewrite Z.shiftr_div_pow2 in E1 by lia. rewrite Z.shiftr_div_pow2 in E1 by lia.
    change (2 ^ 4) with 16 in E1. change 15 with (Z.ones 4) in E2.
    rewrite !Z.land_ones in E2 by lia. change (2 ^ 4) with 16 in E2.
    apply hexdigit_inj in E1; [|Z.div_mod_to_equations; lia ..].
    apply hexdigit_inj in E2; [|Z.div_mod_to_equations; lia ..].
    Z.div_mod_to_equations; lia.
Qed.

(** X24: two references receive the same hash only if they are the same
    string or Keccak-256 collides on their encodings.  When HashBinder gives
    the same value for two strings, either the strings are equal, or their
    UTF-8 encodings are two different byte strings with the same Keccak-256
    digest: neither the encoding nor the hex printing of the digest merges
    references. *)
Theorem equal_hashes_need_a_keccak_collision (s1 s2 h : jsstring) :
  code_units s1 -> code_units s2 ->
  HashBinder s1 = Some h -> HashBinder s2 = Some h ->
  s1 = s2
  \/ exists b1 b2, Utf8.encode s1 = Some b1 /\ Utf8.encode s2 = Some b2
                   /\ b1 <> b2 /\ Keccak.keccak256 b1 = Keccak.keccak256 b2.
Proof.
  unfold HashBinder. intros Hu1 Hu2 H1 H2.
  destruct (Utf8.encode s1) as [b1|] eqn:E1; [|discriminate].
  destruct (Utf8.encode s2) as [b2|] eqn:E2; [|discriminate].
  injection H1 as <-.
  assert (H2' : hexlify (Keccak.keccak256 b2) = hexlify (Keccak.keccak256 b1))
    by congruence.
  clear H2.
  destruct (decide (b1 = b2)) as [->|Hb].
  - left. apply (encode_injective_upto (S (length s1)) s1 s2 b2); auto.
  - right. exists b1, b2. split; [reflexivity|]. split; [reflexivity|].
    split; [exact Hb|].
    symmetry. apply hexlify_inj; [apply KeccakFacts.keccak256_bytes ..| exact H2'].
Qed.

Lemma equal_hashes_need_a_keccak_collision_witness :
  js "ipfs://Qm123" = js "ipfs://Qm123"
  \/ exists b1 b2, Utf8.encode (js "ipfs://Qm123") = Some b1
                   /\ Utf8.encode (js "ipfs://Qm123") = Some b2
                   /\ b1 <> b2 /\ Keccak.keccak256 b1 = Keccak.keccak256 b2.
Proof.
  apply (equal_hashes_need_a_keccak_collision (js "ipfs://Qm123") (js "ipfs://Qm123") hashA).
  - repeat constructor; lia.
  - repeat constructor; lia.
  - exact HashBinder_A.
  - exact HashBinder_A.
Defined.

(* ===================================================================== *)
(** ** HashBinder: where it is defined, and what it is there *)
(* ===================================================================== *)

Lemma is_high_range c :
  Utf8Standard.is_high c = ((55296 <=? c) && (c <? 56320)).
Proof.
  unfold Utf8Standard.is_high.
  destruct (55296 <=? c) eqn:E1, (c <=? 56319) eqn:E2, (c <? 56320) eqn:E3;
    try reflexivity; lia.
Qed.

Lemma is_low_range c :
  Utf8Standard.is_low c = ((56320 <=? c) && (c <? 57344)).
Proof.
  unfold Utf8Standard.is_low.
  destruct (56320 <=? c) eqn:E1, (c <=? 57343) eqn:E2, (c <? 57344) eqn:E3;
    try reflexivity; lia.
Qed.

Lemma standard_cons (f : Z) (cps : option (list Z)) :
  flat_map Utf8Standard.encode_code_point <$> (cons f <$> cps)
  = (fun r => Utf8Standard.encode_code_point f ++ r)
      <$> (flat_map Utf8Standard.encode_code_point <$> cps).
Proof. destruct cps; reflexivity. Qed.

Lemma encode_standard_upto n :
  forall s, (length s < n)%nat -> code_units s -> Utf8.encode s = Utf8Standard.encode s.
Proof.
  induction n as [|n IH]; intros s Hlen Hu; [lia|].
  destruct s as [|c t]; [reflexivity|].
  inversion Hu as [|? ? Hc Ht]; subst.
  rewrite encode_cons. unfold Utf8Standard.encode. cbn [Utf8Standard.code_points].
  rewrite is_high_range.
  destruct (c <? 128) eqn:E1.
  { replace ((55296 <=? c) && (c <? 56320)) with false by lia.
    rewrite standard_cons. rewrite (IH t) by (simpl in *; auto; lia).
    unfold Utf8Standard.encode, Utf8Standard.encode_code_point.
    rewrite E1. reflexivity. }
  destruct (c <? 2048) eqn:E2.
  { replace ((55296 <=? c) && (c <? 56320)) with false by lia.
    rewrite standard_cons. rewrite (IH t) by (simpl in *; auto; lia).
    unfold Utf8Standard.encode, Utf8Standard.encode_code_point.
    rewrite E1, E2.
    rewrite land_0x3f, Z.shiftr_div_pow2 by lia. change (2 ^ 6) with 64.
    rewrite lor_0xc0, lor_0x80.
    - rewrite (Z.add_comm (c / 64)), (Z.add_comm (c mod 64)). reflexivity.
    - apply Z.mod_pos_bound. lia.
    - split; [apply Z.div_pos; lia | apply Z.div_lt_upper_bound; lia]. }
  rewrite high_surrogate_range by exact Hc.
  destruct ((55296 <=? c) && (c <? 56320)) eqn:E3.
  { destruct t as [|c2 rest]; [reflexivity|].
    inversion Ht as [|? ? Hc2 Hrest]; subst.
    rewrite low_surrogate_range by exact Hc2. rewrite is_low_range.
    destruct ((56320 <=? c2) && (c2 <? 57344)) eqn:E4; [|reflexivity].
    rewrite standard_cons. rewrite (IH rest) by (simpl in *; auto; lia).
    unfold Utf8Standard.encode.
    set (v := 65536 + (c - 55296) * 1024 + (c2 - 56320)).
    rewrite !land_0x3ff by lia. rewrite Z.shiftl_mul_pow2 by lia. change (2 ^ 10) with 1024.
    assert (Hv : 65536 + c mod 1024 * 1024 + c2 mod 1024 = v).
    { unfold v. apply andb_prop in E3, E4. Z.div_mod_to_equations. lia. }
    rewrite Hv.
    assert (Hvr : 65536 <= v < 1114112).
    { unfold v. apply andb_prop in E3, E4. lia. }
    unfold Utf8Standard.encode_code_point.
    replace (v <? 128) with false by lia. replace (v <? 2048) with false by lia.
    replace (v <? 65536) with false by lia.
    rewrite !Z.shiftr_div_pow2 by lia.
    change (2 ^ 18) with 262144. change (2 ^ 12) with 4096. change (2 ^ 6) with 64.
    rewrite !land_0x3f by (try apply Z.div_pos; lia).
    rewrite lor_0xf0, !lor_0x80; try (apply Z.mod_pos_bound; lia).
    - rewrite (Z.add_comm (v / 262144)), (Z.add_comm ((v / 4096) mod 64)),
        (Z.add_comm ((v / 64) mod 64)), (Z.add_comm (v mod 64)). reflexivity.
    - split; [apply Z.div_pos; lia | apply Z.div_lt_upper_bound; lia]. }
  rewrite standard_cons. rewrite (IH t) by (simpl in *; auto; lia).
  unfold Utf8Standard.encode, Utf8Standard.encode_code_point.
  rewrite E1, E2. replace (c <? 65536) with true by lia.
  rewrite !Z.shiftr_div_pow2 by lia.
  change (2 ^ 12) with 4096. change (2 ^ 6) with 64.
  rewrite !land_0x3f by (try apply Z.div_pos; lia).
  rewrite lor_0xe0, !lor_0x80; try (apply Z.mod_pos_bound; lia).
  - rewrite (Z.add_comm (c / 4096)), (Z.add_comm ((c / 64) mod 64)),
      (Z.add_comm (c mod 64)). reflexivity.
  - split; [apply Z.div_pos; lia | apply Z.div_lt_upper_bound; lia].
Qed.

Lemma encode_standard (s : jsstring) :
  code_units s -> Utf8.encode s = Utf8Standard.encode s.
Proof. intros. apply (encode_standard_upto (S (length s))); auto. Qed.

Lemma high_is_not_low c : Utf8Standard.is_high c = true -> Utf8Standard.is_low c = false.
Proof. rewrite is_high_range, is_low_range. lia. Qed.

Lemma unpaired_skip_one c t :
  Utf8Standard.is_high c = false ->
  (unpaired_high_surrogate (c :: t) <-> unpaired_high_surrogate t).
Proof.
  intros Hc. unfold unpaired_high_surrogate. split.
  - intros (i & c' & Hi & Hh & Hn). destruct i as [|i].
    + injection Hi as <-. congruence.
    + exists i, c'. split; [exact Hi|]. split; [exact Hh | exact Hn].
  - intros (i & c' & Hi & Hh & Hn). exists (S i), c'.
    split; [exact Hi|]. split; [exact Hh | exact Hn].
Qed.

Lemma unpaired_skip_pair c c2 t :
  Utf8Standard.is_low c2 = true ->
  (unpaired_high_surrogate (c :: c2 :: t) <-> unpaired_high_surrogate t).
Proof.
  intros Hc2. unfold unpaired_high_surrogate. split.
  - intros (i & c' & Hi & Hh & Hn). destruct i as [|[|i]].
    + specialize (Hn c2 eq_refl). congruence.
    + injection Hi as <-. apply high_is_not_low in Hh. congruence.
    + exists i, c'. split; [exact Hi|]. split; [exact Hh | exact Hn].
  - intros (i & c' & Hi & Hh & Hn). exists (S (S i)), c'.
    split; [exact Hi|]. split; [exact Hh | exact Hn].
Qed.

Lemma code_points_none_upto n :
  forall s, (length s < n)%nat ->
            (Utf8Standard.code_points s = None <-> unpaired_high_surrogate s).
Proof.
  induction n as [|n IH]; intros s Hlen; [lia|].
  destruct s as [|c t].
  { split; [discriminate | intros (i & c & Hi & _); destruct i; discriminate]. }
  cbn [Utf8Standard.code_points].
  destruct (Utf8Standard.is_high c) eqn:Hc.
  - destruct t as [|c2 rest].
    + split; [|reflexivity]. intros _. exists 0%nat, c.
      split; [reflexivity|]. split; [exact Hc | discriminate].
    + destruct (Utf8Standard.is_low c2) eqn:Hc2.
      * rewrite (unpaired_skip_pair _ _ _ Hc2), <- (IH rest) by (simpl in *; lia).
        destruct (Utf8Standard.code_points rest); cbn [fmap option_fmap option_map];
          split; intros H; first [discriminate H | reflexivity].
      * split; [|reflexivity]. intros _. exists 0%nat, c.
        split; [reflexivity|]. split; [exact Hc|]. intros c2' [= <-]. exact Hc2.
  - rewrite (unpaired_skip_one _ _ Hc), <- (IH t) by (simpl in *; lia).
    destruct (Utf8Standard.code_points t); cbn [fmap option_fmap option_map];
      split; intros H; first [discriminate H | reflexivity].
Qed.

Lemma encode_none_iff (s : jsstring) :
  code_units s -> (Utf8.encode s = None <-> unpaired_high_surrogate s).
Proof.
  intros Hu. rewrite (encode_standard s Hu), <- (code_points_none_upto (S (length s)) s) by lia.
  unfold Utf8Standard.encode.
  destruct (Utf8Standard.code_points s); cbn [fmap option_fmap option_map];
    split; intros H; first [discriminate H | reflexivity].
Qed.

Lemma mintNFT_unencodable {S : Type} (w : World S) (st : S) (to : JsValue) (s : jsstring) :
  Utf8.encode s = None ->
  run w (IndexJs.mintNFT to (JString s)) st
  = (Err (mkError (js "invalid surrogate pair")), st, [])
  /\ run w (Part000.mintNFT to (JString s)) st
     = (Err (mkError (js "invalid surrogate pair")), st, []).
Proof.
  intros H. unfold IndexJs.mintNFT, Part000.mintNFT, mbind, prog_bind, toUtf8Bytes.
  rewrite H. split; reflexivity.
Qed.

Lemma evolveNFT_unencodable {S : Type} (w : World S) (st : S) (tokenId s : jsstring) :
  Utf8.encode s = None ->
  run w (evolveNFT tokenId (JString s)) st
  = (Err (mkError (js "invalid surrogate pair")), st, []).
Proof.
  intros H. unfold evolveNFT, mbind, prog_bind, toUtf8Bytes. rewrite H. reflexivity.
Qed.

(** C8, as the code has it: HashBinder, the hash that mintNFT and
    evolveNFT compute, is a function of the reference string alone, but a
    partial one.  For a string of 16-bit code units it is defined exactly
    when the string has no unpaired high surrogate.  Where it is defined it
    is keccak256 over the UTF-8 encoding of the string as the standard
    defines it (the loop of ethers and the table of RFC 3629 give the same
    bytes), printed as "0x" and 64 hex digits; and in every world, from
    every state, for any recipient and any token identifier, the hashes
    that an invocation of mintNFT or of evolveNFT on the string submits
    are this one value and no other.  Where it is not defined,
    [toUtf8Bytes] throws "invalid surrogate pair": every invocation fails
    before its first call and submits no hash. *)
Theorem HashBinder_is_defined_on_paired_strings (s : jsstring) :
  code_units s ->
  (HashBinder s = None <-> unpaired_high_surrogate s)
  /\ (forall h, HashBinder s = Some h ->
                is_bytes32 h
                /\ exists data, Utf8Standard.encode s = Some data
                                /\ h = hexlify (Keccak.keccak256 data))
  /\ (forall (S : Type) (w : World S) (st : S) (to : JsValue) (tokenId : jsstring),
         anchor_hashes w (IndexJs.mintNFT to (JString s)) st = option_list (HashBinder s)
         /\ anchor_hashes w (Part000.mintNFT to (JString s)) st = option_list (HashBinder s)
         /\ anchor_hashes w (evolveNFT tokenId (JString s)) st = option_list (HashBinder s))
  /\ (unpaired_high_surrogate s ->
      forall (S : Type) (w : World S) (st : S) (to : JsValue) (tokenId : jsstring),
        run w (IndexJs.mintNFT to (JString s)) st
        = (Err (mkError (js "invalid surrogate pair")), st, [])
        /\ run w (Part000.mintNFT to (JString s)) st
           = (Err (mkError (js "invalid surrogate pair")), st, [])
        /\ run w (evolveNFT tokenId (JString s)) st
           = (Err (mkError (js "invalid surrogate pair")), st, [])).
Proof.
  intros Hu. split; [|split; [|split]].
  - rewrite <- (encode_none_iff s Hu). unfold HashBinder.
    destruct (Utf8.encode s); split; congruence.
  - intros h Hh. apply HashBinder_Some in Hh as (data & E & ->).
    split; [apply keccak256_is_bytes32|].
    exists data. rewrite <- (encode_standard s Hu). split; [exact E | reflexivity].
  - intros S w st to tokenId.
    split; [apply anchor_hashes_index_mintNFT|].
    split; [apply anchor_hashes_part_mintNFT | apply anchor_hashes_evolveNFT].
  - intros Hun S w st to tokenId. apply (encode_none_iff s Hu) in Hun.
    destruct (mintNFT_unencodable w st to s Hun) as [H1 H2].
    split; [exact H1|]. split; [exact H2|]. apply evolveNFT_unencodable. exact Hun.
Qed.

Lemma HashBinder_is_defined_on_paired_strings_witness :
  code_units (js "ipfs://Qm123")
  /\ HashBinder (js "ipfs://Qm123") = Some hashA
  /\ is_bytes32 hashA
  /\ exists data, Utf8Standard.encode (js "ipfs://Qm123") = Some data
                  /\ hashA = hexlify (Keccak.keccak256 data).
Proof.
  assert (Hu : code_units (js "ipfs://Qm123")) by (repeat constructor; lia).
  split; [exact Hu|]. split; [exact HashBinder_A|].
  exact (proj1 (proj2 (HashBinder_is_defined_on_paired_strings (js "ipfs://Qm123") Hu))
               hashA HashBinder_A).
Defined.

(** C8 fails as stated: HashBinder is not total.  The reference
    "ipfs://Qm" followed by a high surrogate has no hash at all, of any
    width; a POST /mint with this [metadataUri] is answered 500 by both
    servers and nothing is submitted. *)
Lemma string_without_a_hash :
  code_units dangling
  /\ unpaired_high_surrogate dangling
  /\ HashBinder dangling = None
  /\ (forall h, is_bytes32 h -> HashBinder dangling <> Some h)
  /\ run faithful (Part000.mint (JObject [(js "to", JString (js "0xABC"));
                                         (js "metadataUri", JString dangling)])) genesis
     = (Ok (json 500 (error_body (js "invalid surrogate pair"))), genesis, [])
  /\ run faithful (IndexJs.mint (JObject [(js "to", JString (js "0xABC"));
                                        (js "metadataUri", JString dangling)])) genesis
     = (Ok (json 500 (error_body (js "invalid surrogate pair"))), genesis, []).
Proof.
  assert (Hn : HashBinder dangling = None) by (vm_compute; reflexivity).
  split; [repeat constructor; lia|]. split.
  { exists 9%nat, 0xD83D. split; [reflexivity|]. split; [reflexivity | discriminate]. }
  split; [exact Hn|]. split; [intros h _; rewrite Hn; discriminate|].
  split; vm_compute; reflexivity.
Qed.
